(** * Lark-Calendar-Scheduler: the record tracker and the upload cycle

    A shallow embedding of the record tracking and synchronisation code of
    the repository ([src/record_tracker.py], [src/scheduler.py],
    [src/fetcher.py], [src/direct_calendar_uploader.py], [src/config.py],
    [src/lark_token.py] and the token functions of [src/oauth.py]) and the
    properties its specification states about it, followed by further
    properties of that code.

    Conventions of the embedding.
    - A Python [str] is a [string]: a sequence of code points below 256.
    - A value read by [json.load] is a [json].
    - A Python exception is a [Raise] of the [result] monad; [try ... except]
      is [try_except].
    - What the interpreter and the machine decide (the local time zone, the
      digest functions of [json] and [hashlib], the limit on the digits
      [int] accepts) is a field of a [host].
    - The SQLite file is a [db]: the rows of its two tables in rowid order.
      A statement is taken to execute as written: input/output errors and
      integers beyond the 64 bits of an INTEGER column are outside the
      model. A TIMESTAMP is the number of seconds it denotes.
    - [CURRENT_TIMESTAMP] and the answers of the remote table are read from
      oracles carried by the [world] the orchestrator runs in.
    - A [float] read from the clock is a [spec_float] in binary64.
    - A JSON file holds the document written to it: [json.dump] followed by
      [json.load] gives the document back. *)

From Stdlib Require Import ZArith List String Ascii Bool Lia.
From Stdlib Require Import Sorted Permutation.
From Stdlib Require Import SpecFloat.
Import ListNotations.

Set Warnings "-register-all".

Local Open Scope string_scope.
Local Open Scope Z_scope.
Local Open Scope list_scope.

(* ================================================================== *)
(** * Python values and exceptions *)

Inductive exn : Type :=
| ValueError
| TypeError
| KeyError
| AttributeError
| OverflowError
| IntegrityError.

Inductive result (A : Type) : Type :=
| Ok (a : A)
| Raise (e : exn).

Arguments Ok {A} a.
Arguments Raise {A} e.

Definition bind {A B : Type} (c : result A) (k : A -> result B) : result B :=
  match c with
  | Ok a => k a
  | Raise e => Raise e
  end.

Declare Scope py_scope.
Delimit Scope py_scope with py.
Notation "x <- c ;; k" := (bind c (fun x => k))
  (at level 61, c at next level, right associativity) : py_scope.

(** [try: body / except: handler]. *)
Definition try_except {A : Type} (body : result A) (handler : exn -> result A)
  : result A :=
  match body with
  | Ok a => Ok a
  | Raise e => handler e
  end.

(** The values [json.load] builds: [None], [bool], [int], [float], [str],
    [list] and [dict] (its items, one per key). *)
Inductive json : Type :=
| JNull
| JBool (b : bool)
| JInt (n : Z)
| JFloat (f : spec_float)
| JStr (s : string)
| JArr (items : list json)
| JObj (members : list (string * json)).

(** What the machine and the interpreter decide. *)
Record host : Type := {
  (** [sys.get_int_max_str_digits()]; 0 switches the limit off. *)
  int_max_str_digits : nat;
  (** [datetime.timestamp()] of a naive datetime: the POSIX seconds of the
      wall-clock time that is the given number of seconds after
      1970-01-01T00:00:00 in the local time zone; the platform raises where
      it cannot say. *)
  local_timestamp : Z -> result Z;
  (** [json.dumps(value, sort_keys=True)]. *)
  json_dumps_sorted : json -> string;
  (** [hashlib.md5(text.encode()).hexdigest()]. *)
  md5_hexdigest : string -> string;
  (** [os.path.join(directory, name)]. *)
  path_join : string -> string -> string;
  (** [os.path.splitext(os.path.basename(path))[0]]. *)
  path_stem : string -> string;
  (** Whether [glob.glob(os.path.join(directory, "*.txt"))] lists the path. *)
  glob_txt : string -> string -> bool
}.

(* ------------------------------------------------------------------ *)
(** ** Strings *)

Definition ord (c : ascii) : Z := Z.of_N (N_of_ascii c).

Definition is_digit (c : ascii) : bool := (48 <=? ord c) && (ord c <=? 57).

Definition digit_value (c : ascii) : Z := ord c - 48.

(** [Py_ISSPACE]: the six blanks of the C locale. *)
Definition Py_ISSPACE (c : ascii) : bool :=
  ((9 <=? ord c) && (ord c <=? 13)) || (ord c =? 32).

(** [Py_UNICODE_ISSPACE] below 256: what [str.strip()] removes. *)
Definition Py_UNICODE_ISSPACE (c : ascii) : bool :=
  ((9 <=? ord c) && (ord c <=? 13)) || ((28 <=? ord c) && (ord c <=? 32))
  || (ord c =? 133) || (ord c =? 160).

Fixpoint lstrip (s : string) : string :=
  match s with
  | EmptyString => EmptyString
  | String c rest => if Py_UNICODE_ISSPACE c then lstrip rest else s
  end.

(** [True] when every character is a blank (also for the empty string). *)
Fixpoint all_space (s : string) : bool :=
  match s with
  | EmptyString => true
  | String c rest => Py_UNICODE_ISSPACE c && all_space rest
  end.

Fixpoint rstrip (s : string) : string :=
  match s with
  | EmptyString => EmptyString
  | String c rest => if all_space s then EmptyString else String c (rstrip rest)
  end.

(** [s.strip()]. *)
Definition strip (s : string) : string := rstrip (lstrip s).

(** Truth value of a [str]: [not s] holds for the empty string only. *)
Definition str_truthy (s : string) : bool :=
  match s with
  | EmptyString => false
  | String _ _ => true
  end.

(** [needle in haystack] on two strings. *)
Fixpoint str_contains (needle haystack : string) : bool :=
  prefix needle haystack
  || match haystack with
     | EmptyString => false
     | String _ rest => str_contains needle rest
     end.

(* ------------------------------------------------------------------ *)
(** ** [int(...)] *)

(** [_PyUnicode_TransformDecimalAndSpaceToASCII] on one character: ASCII
    stays, a blank above it becomes a space, anything else a question
    mark. *)
Definition to_ascii_decimal_space (c : ascii) : ascii :=
  if ord c <? 127 then c
  else if Py_UNICODE_ISSPACE c then " "%char
  else "?"%char.

Fixpoint transform_decimal_and_space (s : string) : string :=
  match s with
  | EmptyString => EmptyString
  | String c rest => String (to_ascii_decimal_space c) (transform_decimal_and_space rest)
  end.

Fixpoint skip_spaces (s : string) : string :=
  match s with
  | EmptyString => EmptyString
  | String c rest => if Py_ISSPACE c then skip_spaces rest else s
  end.

(** The digit loop of [PyLong_FromString] in base 10. [prev] is the
    character read last, [acc] the value and [digits] the number of digits
    read so far. It stops at the first character that is neither a digit
    nor an underscore; two underscores in a row are an error. *)
Fixpoint scan_digits (s : string) (prev : option ascii) (acc : Z) (digits : nat)
  : option (Z * nat * option ascii * string) :=
  match s with
  | EmptyString => Some (acc, digits, prev, s)
  | String c rest =>
      if Ascii.eqb c "_"%char then
        match prev with
        | Some p => if Ascii.eqb p "_"%char then None
                    else scan_digits rest (Some c) acc digits
        | None => scan_digits rest (Some c) acc digits
        end
      else if is_digit c then
        scan_digits rest (Some c) (acc * 10 + digit_value c) (S digits)
      else Some (acc, digits, prev, s)
  end.

(** [_PY_LONG_MAX_STR_DIGITS_THRESHOLD]. *)
Definition max_str_digits_threshold : nat := 640.

Definition exceeds_digit_limit (h : host) (digits : nat) : bool :=
  Nat.ltb max_str_digits_threshold digits
  && Nat.ltb 0 (int_max_str_digits h)
  && Nat.ltb (int_max_str_digits h) digits.

(** [PyLong_FromString(text, base=10)] and the check that it read all. *)
Definition long_from_string (h : host) (s : string) : result Z :=
  let s1 := skip_spaces s in
  let '(negative, s2) :=
    match s1 with
    | String c rest =>
        if Ascii.eqb c "+"%char then (false, rest)
        else if Ascii.eqb c "-"%char then (true, rest)
        else (false, s1)
    | EmptyString => (false, s1)
    end in
  match s2 with
  | String c _ =>
      if Ascii.eqb c "_"%char then Raise ValueError
      else
        match scan_digits s2 None 0 0 with
        | None => Raise ValueError
        | Some (value, digits, prev, rest) =>
            match prev with
            | None => Raise ValueError
            | Some p =>
                if Ascii.eqb p "_"%char then Raise ValueError
                else if exceeds_digit_limit h digits then Raise ValueError
                else
                  match skip_spaces rest with
                  | EmptyString => Ok (if negative then - value else value)
                  | String _ _ => Raise ValueError
                  end
            end
        end
  | EmptyString => Raise ValueError
  end.

(** [int(text)] for a [str]. *)
Definition int_of_str (h : host) (s : string) : result Z :=
  long_from_string h (transform_decimal_and_space s).

(** [int(x)] for a [float]: truncation towards zero. *)
Definition int_of_float (f : spec_float) : result Z :=
  match f with
  | S754_zero _ => Ok 0
  | S754_infinity _ => Raise OverflowError
  | S754_nan => Raise ValueError
  | S754_finite negative m e =>
      let magnitude :=
        if 0 <=? e then Z.pos m * 2 ^ e else Z.pos m / 2 ^ (- e) in
      Ok (if negative then - magnitude else magnitude)
  end.

(** [int(x)]. *)
Definition py_int (h : host) (x : json) : result Z :=
  match x with
  | JStr s => int_of_str h s
  | JInt n => Ok n
  | JBool b => Ok (if b then 1 else 0)
  | JFloat f => int_of_float f
  | JNull | JArr _ | JObj _ => Raise TypeError
  end.

(* ------------------------------------------------------------------ *)
(** ** Dictionaries and the operators used on them *)

Fixpoint dict_lookup (key : string) (d : list (string * json)) : option json :=
  match d with
  | [] => None
  | (k, v) :: rest => if String.eqb key k then Some v else dict_lookup key rest
  end.

(** [key in x]. *)
Definition py_in (key : string) (x : json) : result bool :=
  match x with
  | JObj d => Ok (match dict_lookup key d with Some _ => true | None => false end)
  | JStr s => Ok (str_contains key s)
  | JArr items =>
      Ok (existsb (fun v => match v with JStr s => String.eqb key s | _ => false end)
                  items)
  | JNull | JBool _ | JInt _ | JFloat _ => Raise TypeError
  end.

(** [x[key]] with a [str] key. *)
Definition py_getitem (x : json) (key : string) : result json :=
  match x with
  | JObj d => match dict_lookup key d with
              | Some v => Ok v
              | None => Raise KeyError
              end
  | _ => Raise TypeError
  end.

(** [x.get(key, default)]. *)
Definition py_get (x : json) (key : string) (default : json) : result json :=
  match x with
  | JObj d => Ok (match dict_lookup key d with Some v => v | None => default end)
  | _ => Raise AttributeError
  end.

(* ------------------------------------------------------------------ *)
(** ** Dates: [datetime.strptime(text, "%Y-%m-%d")] and [timestamp()] *)

(** A naive [datetime] at midnight. *)
Record datetime : Type := {
  year : Z;
  month : Z;
  day : Z
}.

Definition is_leap (y : Z) : bool :=
  (y mod 4 =? 0) && (negb (y mod 100 =? 0) || (y mod 400 =? 0)).

Definition days_in_month (y m : Z) : Z :=
  if m =? 2 then (if is_leap y then 29 else 28)
  else if (m =? 4) || (m =? 6) || (m =? 9) || (m =? 11) then 30
  else 31.

(** [_days_before_year]: days before January 1st of year [y]. *)
Definition days_before_year (y : Z) : Z :=
  let p := y - 1 in
  p * 365 + p / 4 - p / 100 + p / 400.

(** [_days_before_month]: days of year [y] before the first of month [m]. *)
Definition days_before_month (y m : Z) : Z :=
  nth (Z.to_nat m) [0; 0; 31; 59; 90; 120; 151; 181; 212; 243; 273; 304; 334] 0
  + (if (2 <? m) && is_leap y then 1 else 0).

(** [_ymd2ord]: the proleptic Gregorian ordinal, 1 for 0001-01-01. *)
Definition ymd2ord (y m d : Z) : Z :=
  days_before_year y + days_before_month y m + d.

(** The ordinal of 1970-01-01. *)
Definition epoch_ordinal : Z := 719163.

(** The check of the [date] constructor. *)
Definition valid_date (y m d : Z) : bool :=
  (1 <=? y) && (y <=? 9999) && (1 <=? m) && (m <=? 12)
  && (1 <=? d) && (d <=? days_in_month y m).

Definition in_range (lo hi c : ascii) : bool :=
  (ord lo <=? ord c) && (ord c <=? ord hi).

(** The group [(?P<Y>\d\d\d\d)]: four digits. *)
Definition match_Y (s : string) : option (Z * string) :=
  match s with
  | String a (String b (String c (String d rest))) =>
      if is_digit a && is_digit b && is_digit c && is_digit d then
        Some (((digit_value a * 10 + digit_value b) * 10 + digit_value c) * 10
              + digit_value d, rest)
      else None
  | _ => None
  end.

Definition match_literal (c : ascii) (s : string) : option string :=
  match s with
  | String a rest => if Ascii.eqb a c then Some rest else None
  | EmptyString => None
  end.

(** The alternatives of [(?P<m>1[0-2]|0[1-9]|[1-9])], in the order the
    matcher tries them. *)
Definition match_m_alternatives (s : string) : list (Z * string) :=
  (match s with
   | String a (String b rest) =>
       if Ascii.eqb a "1" && in_range "0" "2" b then [(10 + digit_value b, rest)] else []
   | _ => []
   end)
  ++ (match s with
      | String a (String b rest) =>
          if Ascii.eqb a "0" && in_range "1" "9" b then [(digit_value b, rest)] else []
      | _ => []
      end)
  ++ (match s with
      | String a rest => if in_range "1" "9" a then [(digit_value a, rest)] else []
      | _ => []
      end).

(** The alternatives of [(?P<d>3[0-1]|[1-2]\d|0[1-9]|[1-9]| [1-9])], in
    the order the matcher tries them. *)
Definition match_d_alternatives (s : string) : list (Z * string) :=
  (match s with
   | String a (String b rest) =>
       if Ascii.eqb a "3" && in_range "0" "1" b then [(30 + digit_value b, rest)] else []
   | _ => []
   end)
  ++ (match s with
      | String a (String b rest) =>
          if in_range "1" "2" a && is_digit b
          then [(digit_value a * 10 + digit_value b, rest)] else []
      | _ => []
      end)
  ++ (match s with
      | String a (String b rest) =>
          if Ascii.eqb a "0" && in_range "1" "9" b then [(digit_value b, rest)] else []
      | _ => []
      end)
  ++ (match s with
      | String a rest => if in_range "1" "9" a then [(digit_value a, rest)] else []
      | _ => []
      end)
  ++ (match s with
      | String a (String b rest) =>
          if Ascii.eqb a " " && in_range "1" "9" b then [(digit_value b, rest)] else []
      | _ => []
      end).

(** The first alternative of the month after which the rest of the pattern,
    a hyphen and a day, still matches: the matcher backtracks over the
    others. The result is the month, the day and the text not read. *)
Fixpoint first_month_then_day (alternatives : list (Z * string))
  : option (Z * Z * string) :=
  match alternatives with
  | [] => None
  | (m, rest) :: others =>
      match match_literal "-" rest with
      | Some rest' =>
          match match_d_alternatives rest' with
          | (d, unread) :: _ => Some (m, d, unread)
          | [] => first_month_then_day others
          end
      | None => first_month_then_day others
      end
  end.

(** [re.match] of the compiled format on the text. *)
Definition match_Ymd (s : string) : option (Z * Z * Z * string) :=
  match match_Y s with
  | Some (y, rest) =>
      match match_literal "-" rest with
      | Some rest' =>
          match first_month_then_day (match_m_alternatives rest') with
          | Some (m, d, unread) => Some (y, m, d, unread)
          | None => None
          end
      | None => None
      end
  | None => None
  end.

(** [datetime.datetime.strptime(x, "%Y-%m-%d")]. *)
Definition strptime_Ymd (x : json) : result datetime :=
  match x with
  | JStr s =>
      match match_Ymd s with
      | None => Raise ValueError                  (* does not match format *)
      | Some (y, m, d, unread) =>
          match unread with
          | String _ _ => Raise ValueError        (* unconverted data remains *)
          | EmptyString =>
              if valid_date y m d
              then Ok {| year := y; month := m; day := d |}
              else Raise ValueError               (* out of range *)
          end
      end
  | _ => Raise TypeError
  end.

(** Seconds from 1970-01-01T00:00:00 to the datetime, both naive. *)
Definition naive_seconds (dt : datetime) : Z :=
  (ymd2ord (year dt) (month dt) (day dt) - epoch_ordinal) * 86400.

(** [dt.timestamp()] of a naive datetime: read in the local time zone. *)
Definition timestamp (h : host) (dt : datetime) : result Z :=
  local_timestamp h (naive_seconds dt).

(* ================================================================== *)
(** * Time extraction *)

Local Open Scope py_scope.

Definition extract_timestamp_body (h : host) (time_data : json)
  : result (option Z) :=
  has_timestamp <- py_in "timestamp" time_data ;;
  if has_timestamp then
    value <- py_getitem time_data "timestamp" ;;
    n <- py_int h value ;;
    Ok (Some (n * 1000))
  else
    has_date <- py_in "date" time_data ;;
    if has_date then
      date_str <- py_getitem time_data "date" ;;
      dt <- strptime_Ymd date_str ;;
      seconds <- timestamp h dt ;;
      Ok (Some (seconds * 1000))
    else Ok None.

(** [RecordTracker._extract_timestamp]: the body under [try], and
    [except: return None]. *)
Definition _extract_timestamp (h : host) (time_data : json) : result (option Z) :=
  try_except (extract_timestamp_body h time_data) (fun _ => Ok None).

Definition parse_timestamp_to_ms_body (h : host) (time_data : json)
  : result (option Z) :=
  has_timestamp <- py_in "timestamp" time_data ;;
  if has_timestamp then
    value <- py_getitem time_data "timestamp" ;;
    timestamp_s <- py_int h value ;;
    Ok (Some (timestamp_s * 1000))
  else
    has_date <- py_in "date" time_data ;;
    if has_date then
      date_str <- py_getitem time_data "date" ;;
      timezone <- py_get time_data "timezone" (JStr "UTC") ;;   (* read, never used *)
      dt <- strptime_Ymd date_str ;;
      seconds <- timestamp h dt ;;
      Ok (Some (seconds * 1000))
    else Ok None.

(** [DirectCalendarUploader.parse_timestamp_to_ms]: the body under [try],
    and [except Exception: print(...); return None]. *)
Definition parse_timestamp_to_ms (h : host) (time_data : json) : result (option Z) :=
  try_except (parse_timestamp_to_ms_body h time_data) (fun _ => Ok None).

(* ================================================================== *)
(** * The record store ([record_tracker.py]) *)

(** A raw calendar event as the code reads it: the value under each key it
    looks up, [None] for a key the dictionary lacks. The text fields hold
    strings, the two time fields whatever the document holds. *)
Record event_data : Type := {
  ev_event_id : option string;
  ev_summary : option string;
  ev_status : option string;
  ev_description : option string;
  ev_start_time : option json;
  ev_end_time : option json
}.

(** [d.get(key, default)] on a looked-up key. *)
Definition get_default {A : Type} (value : option A) (default : A) : A :=
  match value with
  | Some v => v
  | None => default
  end.

(** The values the code writes to the column [upload_status]. *)
Inductive status : Type :=
| pending
| uploaded
| failed.

Definition status_eqb (a b : status) : bool :=
  match a, b with
  | pending, pending | uploaded, uploaded | failed, failed => true
  | _, _ => false
  end.

(** A row of the table [calendar_records]. *)
Record calendar_record : Type := {
  id : Z;
  event_id : string;
  person_name : string;
  summary : string;
  start_time : option Z;
  end_time : option Z;
  calendar_file : string;
  record_hash : string;
  upload_status : status;
  upload_time : option Z;
  upload_result : option string;
  created_time : Z;
  updated_time : Z
}.

(** A row of the table [upload_logs]. *)
Record upload_log : Type := {
  log_id : Z;
  log_batch_id : string;
  log_event_id : string;
  log_upload_status : string;
  log_upload_result : option string;
  log_upload_time : Z;
  log_error_message : option string
}.

(** The database file: the rows of both tables in rowid order, and the
    largest rowid each AUTOINCREMENT key has used. *)
Record db : Type := {
  calendar_records : list calendar_record;
  calendar_records_seq : Z;
  upload_logs : list upload_log;
  upload_logs_seq : Z
}.

(** The database [_init_database] creates. *)
Definition empty_db : db :=
  {| calendar_records := []; calendar_records_seq := 0;
     upload_logs := []; upload_logs_seq := 0 |}.

Definition set_calendar_records (d : db) (rows : list calendar_record) : db :=
  {| calendar_records := rows;
     calendar_records_seq := calendar_records_seq d;
     upload_logs := upload_logs d;
     upload_logs_seq := upload_logs_seq d |}.

(** [WHERE event_id = ?]. *)
Definition has_event_id (eid : string) (r : calendar_record) : bool :=
  String.eqb (event_id r) eid.

(** [UPDATE calendar_records SET ... WHERE condition]: the new rows and
    [cursor.rowcount]. *)
Definition update_where (condition : calendar_record -> bool)
  (set : calendar_record -> calendar_record) (rows : list calendar_record)
  : list calendar_record :=
  map (fun r => if condition r then set r else r) rows.

Definition rowcount (condition : calendar_record -> bool)
  (rows : list calendar_record) : Z :=
  Z.of_nat (List.length (filter condition rows)).

(** [RecordTracker._generate_record_hash]. *)
Definition key_fields (event : event_data) : json :=
  JObj [ ("summary", JStr (get_default (ev_summary event) ""));
         ("start_time", get_default (ev_start_time event) (JObj []));
         ("end_time", get_default (ev_end_time event) (JObj []));
         ("status", JStr (get_default (ev_status event) ""));
         ("description", JStr (get_default (ev_description event) "")) ].

Definition _generate_record_hash (h : host) (event : event_data) : string :=
  md5_hexdigest h (json_dumps_sorted h (key_fields event)).

(** The [SET] clause of the update in [add_or_update_record]. *)
Definition set_changed (now : Z) (new_summary : string)
  (new_start new_end : option Z) (new_file new_hash : string)
  (r : calendar_record) : calendar_record :=
  {| id := id r;
     event_id := event_id r;
     person_name := person_name r;
     summary := new_summary;
     start_time := new_start;
     end_time := new_end;
     calendar_file := new_file;
     record_hash := new_hash;
     upload_status := pending;
     upload_time := None;
     upload_result := None;
     created_time := created_time r;
     updated_time := now |}.

(** The row the insert in [add_or_update_record] creates. *)
Definition new_record (now : Z) (rowid : Z) (eid person : string)
  (new_summary : string) (new_start new_end : option Z)
  (new_file new_hash : string) : calendar_record :=
  {| id := rowid;
     event_id := eid;
     person_name := person;
     summary := new_summary;
     start_time := new_start;
     end_time := new_end;
     calendar_file := new_file;
     record_hash := new_hash;
     upload_status := pending;
     upload_time := None;
     upload_result := None;
     created_time := now;
     updated_time := now |}.

(** The body of [add_or_update_record] under [try]. [now] is what
    [CURRENT_TIMESTAMP] reads. The result is the value returned and the
    database as committed. *)
Definition add_or_update_record_body (h : host) (now : Z)
  (event : event_data) (person : string) (file : string) (d : db)
  : result (bool * db) :=
  match ev_event_id event with
  | None => Ok (false, d)
  | Some eid =>
      if negb (str_truthy eid) then Ok (false, d)
      else
        new_start <- _extract_timestamp h (get_default (ev_start_time event) (JObj [])) ;;
        new_end <- _extract_timestamp h (get_default (ev_end_time event) (JObj [])) ;;
        let new_hash := _generate_record_hash h event in
        match find (has_event_id eid) (calendar_records d) with
        | Some existing_record =>
            if negb (String.eqb (record_hash existing_record) new_hash) then
              Ok (true,
                  set_calendar_records d
                    (update_where (has_event_id eid)
                       (set_changed now (get_default (ev_summary event) "")
                          new_start new_end file new_hash)
                       (calendar_records d)))
            else Ok (false, d)
        | None =>
            let rowid := calendar_records_seq d + 1 in
            Ok (true,
                {| calendar_records :=
                     calendar_records d
                     ++ [new_record now rowid eid person
                           (get_default (ev_summary event) "")
                           new_start new_end file new_hash];
                   calendar_records_seq := rowid;
                   upload_logs := upload_logs d;
                   upload_logs_seq := upload_logs_seq d |})
        end
  end.

(** [RecordTracker.add_or_update_record]: [except Exception: return False],
    with nothing committed. *)
Definition add_or_update_record (h : host) (now : Z)
  (event : event_data) (person : string) (file : string) (d : db)
  : bool * db :=
  match add_or_update_record_body h now event person file d with
  | Ok out => out
  | Raise _ => (false, d)
  end.

(** [ORDER BY created_time ASC]; rows of one time keep their rowid order. *)
Fixpoint insert_by_created_time (r : calendar_record) (rows : list calendar_record)
  : list calendar_record :=
  match rows with
  | [] => [r]
  | x :: rest =>
      if created_time r <=? created_time x then r :: rows
      else x :: insert_by_created_time r rest
  end.

Definition order_by_created_time (rows : list calendar_record)
  : list calendar_record :=
  fold_right insert_by_created_time [] rows.

Definition is_pending (r : calendar_record) : bool :=
  status_eqb (upload_status r) pending.

Definition is_failed (r : calendar_record) : bool :=
  status_eqb (upload_status r) failed.

(** [LIMIT n]: a negative [n] is no limit. *)
Definition sql_limit {A : Type} (n : Z) (rows : list A) : list A :=
  if n <? 0 then rows else firstn (Z.to_nat n) rows.

(** [RecordTracker.get_pending_records]. The arguments default to [None];
    [if person_name:] and [if limit:] also skip an empty name and a zero. *)
Definition get_pending_records (person : option string) (limit : option Z) (d : db)
  : list calendar_record :=
  let selected :=
    match person with
    | Some name =>
        if str_truthy name
        then filter (fun r => is_pending r && String.eqb (person_name r) name)
                    (calendar_records d)
        else filter is_pending (calendar_records d)
    | None => filter is_pending (calendar_records d)
    end in
  let ordered := order_by_created_time selected in
  match limit with
  | Some n => if n =? 0 then ordered else sql_limit n ordered
  | None => ordered
  end.

Definition set_uploaded (now : Z) (text : string) (r : calendar_record)
  : calendar_record :=
  {| id := id r;
     event_id := event_id r;
     person_name := person_name r;
     summary := summary r;
     start_time := start_time r;
     end_time := end_time r;
     calendar_file := calendar_file r;
     record_hash := record_hash r;
     upload_status := uploaded;
     upload_time := Some now;
     upload_result := Some text;
     created_time := created_time r;
     updated_time := now |}.

(** [RecordTracker.mark_as_uploaded]. *)
Definition mark_as_uploaded (now : Z) (eid : string) (text : string) (d : db)
  : bool * db :=
  if 0 <? rowcount (has_event_id eid) (calendar_records d) then
    (true,
     set_calendar_records d
       (update_where (has_event_id eid) (set_uploaded now text) (calendar_records d)))
  else (false, d).

Definition set_failed (now : Z) (text : string) (r : calendar_record)
  : calendar_record :=
  {| id := id r;
     event_id := event_id r;
     person_name := person_name r;
     summary := summary r;
     start_time := start_time r;
     end_time := end_time r;
     calendar_file := calendar_file r;
     record_hash := record_hash r;
     upload_status := failed;
     upload_time := Some now;
     upload_result := Some text;
     created_time := created_time r;
     updated_time := now |}.

(** [RecordTracker.mark_as_failed]: the text stored is
    [f"FAILED: {error_message}"]. *)
Definition mark_as_failed (now : Z) (eid : string) (error_message : string) (d : db)
  : bool * db :=
  (0 <? rowcount (has_event_id eid) (calendar_records d),
   set_calendar_records d
     (update_where (has_event_id eid)
        (set_failed now ("FAILED: " ++ error_message)%string)
        (calendar_records d))).

Definition set_reset (now : Z) (r : calendar_record) : calendar_record :=
  {| id := id r;
     event_id := event_id r;
     person_name := person_name r;
     summary := summary r;
     start_time := start_time r;
     end_time := end_time r;
     calendar_file := calendar_file r;
     record_hash := record_hash r;
     upload_status := pending;
     upload_time := None;
     upload_result := None;
     created_time := created_time r;
     updated_time := now |}.

(** [RecordTracker.reset_failed_records]. *)
Definition reset_failed_records (now : Z) (d : db) : Z * db :=
  (rowcount is_failed (calendar_records d),
   set_calendar_records d (update_where is_failed (set_reset now) (calendar_records d))).

Definition is_uploaded (r : calendar_record) : bool :=
  status_eqb (upload_status r) uploaded.

(** [RecordTracker.reset_all_records_to_pending]. *)
Definition reset_all_records_to_pending (now : Z) (d : db) : Z * db :=
  (rowcount (fun r => is_uploaded r || is_failed r) (calendar_records d),
   set_calendar_records d
     (update_where (fun r => is_uploaded r || is_failed r) (set_reset now)
        (calendar_records d))).

(** [RecordTracker.clear_all_records]: the value returned is the
    [rowcount] of the statement run last, the one on the log table. *)
Definition clear_all_records (d : db) : Z * db :=
  (Z.of_nat (List.length (upload_logs d)),
   {| calendar_records := [];
      calendar_records_seq := calendar_records_seq d;
      upload_logs := [];
      upload_logs_seq := upload_logs_seq d |}).

(** The count of the rows a condition keeps. *)
Definition count_where (condition : calendar_record -> bool)
  (rows : list calendar_record) : Z :=
  Z.of_nat (List.length (filter condition rows)).

(** [SUM(CASE WHEN condition THEN 1 ELSE 0 END)]: NULL over no row. *)
Definition sum_where (condition : calendar_record -> bool)
  (rows : list calendar_record) : option Z :=
  match rows with
  | [] => None
  | _ :: _ => Some (count_where condition rows)
  end.

(** The dictionary ["total_stats"]. *)
Record total_stats : Type := {
  total_records : Z;
  pending_count : option Z;
  stats_uploaded_count : option Z;
  stats_failed_count : option Z
}.

(** An entry of the list ["person_stats"]. *)
Record person_stat : Type := {
  stat_person_name : string;
  stat_total : Z;
  stat_pending : Z;
  stat_uploaded : Z;
  stat_failed : Z
}.

(** [GROUP BY person_name]: the names of the table, each once, in the
    order of the text. *)
Fixpoint insert_sorted (name : string) (names : list string) : list string :=
  match names with
  | [] => [name]
  | x :: rest =>
      match String.compare name x with
      | Gt => x :: insert_sorted name rest
      | _ => name :: names
      end
  end.

Definition insert_name (name : string) (names : list string) : list string :=
  if existsb (String.eqb name) names then names else insert_sorted name names.

Definition person_names (rows : list calendar_record) : list string :=
  fold_right (fun r names => insert_name (person_name r) names) [] rows.

Definition of_person (name : string) (r : calendar_record) : bool :=
  String.eqb (person_name r) name.

Definition person_group (rows : list calendar_record) (name : string) : person_stat :=
  {| stat_person_name := name;
     stat_total := count_where (of_person name) rows;
     stat_pending := count_where (fun r => of_person name r && is_pending r) rows;
     stat_uploaded := count_where (fun r => of_person name r && is_uploaded r) rows;
     stat_failed := count_where (fun r => of_person name r && is_failed r) rows |}.

(** [ORDER BY total DESC]; groups of one total keep their order. *)
Fixpoint insert_by_total (g : person_stat) (groups : list person_stat)
  : list person_stat :=
  match groups with
  | [] => [g]
  | x :: rest =>
      if stat_total x <=? stat_total g then g :: groups
      else x :: insert_by_total g rest
  end.

Definition order_by_total_desc (groups : list person_stat) : list person_stat :=
  fold_right insert_by_total [] groups.

(** [RecordTracker.get_upload_statistics], without the time stamp of the
    report. *)
Definition get_upload_statistics (d : db) : total_stats * list person_stat :=
  let rows := calendar_records d in
  ({| total_records := Z.of_nat (List.length rows);
      pending_count := sum_where is_pending rows;
      stats_uploaded_count := sum_where is_uploaded rows;
      stats_failed_count := sum_where is_failed rows |},
   order_by_total_desc (map (person_group rows) (person_names rows))).

(** An entry of the list [log_upload_batch] receives: what [result.get]
    finds under the four keys it reads. *)
Record upload_outcome : Type := {
  out_event_id : option string;
  out_status : option string;
  out_result : option string;
  out_error : option string
}.

(** The inserts of [log_upload_batch], one per entry; the columns
    [event_id] and [upload_status] are NOT NULL. *)
Fixpoint insert_logs (now : Z) (batch_id : string) (entries : list upload_outcome)
  (logs : list upload_log) (seq : Z) : result (list upload_log * Z) :=
  match entries with
  | [] => Ok (logs, seq)
  | entry :: rest =>
      match out_event_id entry, out_status entry with
      | Some eid, Some st =>
          insert_logs now batch_id rest
            (logs ++ [{| log_id := seq + 1;
                         log_batch_id := batch_id;
                         log_event_id := eid;
                         log_upload_status := st;
                         log_upload_result := out_result entry;
                         log_upload_time := now;
                         log_error_message := out_error entry |}])
            (seq + 1)
      | _, _ => Raise IntegrityError
      end
  end.

(** [RecordTracker.log_upload_batch]: the commit follows the last insert,
    so an exception leaves the table as it was. *)
Definition log_upload_batch (now : Z) (batch_id : string)
  (entries : list upload_outcome) (d : db) : bool * db :=
  match insert_logs now batch_id entries (upload_logs d) (upload_logs_seq d) with
  | Ok (logs, seq) =>
      (true,
       {| calendar_records := calendar_records d;
          calendar_records_seq := calendar_records_seq d;
          upload_logs := logs;
          upload_logs_seq := seq |})
  | Raise _ => (false, d)
  end.

(* ================================================================== *)
(** * The upload transport ([direct_calendar_uploader.py]) *)

(** An element of the list sent: the four entries of its ["fields"]. *)
Record upload_record : Type := {
  Summary : string;
  Start_Time : option Z;
  End_Time : option Z;
  Person : string
}.

(** The dictionary [response.json()] gives: the values under the two keys
    the code reads, and whether it has other keys. *)
Record api_result : Type := {
  code : option Z;
  msg : option string;
  other_keys : bool
}.

(** Truth value of the dictionary: it has a key. *)
Definition dict_truthy (r : api_result) : bool :=
  match code r, msg r with
  | None, None => other_keys r
  | _, _ => true
  end.

(** What the network does with one call of [batch_upload_records]. *)
Inductive post_outcome : Type :=
| NoToken                                        (* [get_lark_token()] gave nothing *)
| RequestFailed                                  (* [requests.post] raised *)
| Response (status_code : Z) (body : result api_result).

(** [DirectCalendarUploader.batch_upload_records]. *)
Definition batch_upload_records (outcome : post_outcome) (records : list upload_record)
  : option api_result :=
  match records with
  | [] => None
  | _ :: _ =>
      match outcome with
      | NoToken => None
      | RequestFailed => None
      | Response status_code body =>
          if status_code =? 200 then
            match body with
            | Ok r => Some r
            | Raise _ => None
            end
          else None
      end
  end.

(** [x or y] on two optional integers: [y] when [x] is [None] or zero. *)
Definition or_else (x y : option Z) : option Z :=
  match x with
  | Some n => if n =? 0 then y else Some n
  | None => y
  end.

(** The body of [convert_event_to_record] under [try]. *)
Definition convert_event_to_record_body (h : host) (event : event_data)
  (person : string) : result (option upload_record) :=
  let title := get_default (ev_summary event) "" in
  let state := get_default (ev_status event) "" in
  if String.eqb state "cancelled" then Ok None
  else if negb (str_truthy (strip title)) then Ok None
  else
    start_timestamp_ms <-
      parse_timestamp_to_ms h (get_default (ev_start_time event) (JObj [])) ;;
    end_timestamp_ms <-
      parse_timestamp_to_ms h (get_default (ev_end_time event) (JObj [])) ;;
    match start_timestamp_ms with
    | None => Ok None
    | Some start =>
        Ok (Some {| Summary := title;
                    Start_Time := Some start;
                    End_Time := or_else end_timestamp_ms start_timestamp_ms;
                    Person := person |})
    end.

(** [DirectCalendarUploader.convert_event_to_record]: the record for the
    remote table, or [None] for an event that is left out. *)
Definition convert_event_to_record (h : host) (event : event_data)
  (person : string) : option upload_record :=
  match convert_event_to_record_body h event person with
  | Ok record => record
  | Raise _ => None
  end.

(* ================================================================== *)
(** * The orchestrator ([scheduler.py], [config.py]) *)

Record schedule_config : Type := {
  work_time : string;
  check_interval : Z;
  batch_size : Z;
  timeout : Z
}.

Definition SCHEDULE_CONFIG : schedule_config :=
  {| work_time := "10:00"; check_interval := 60; batch_size := 50; timeout := 30 |}.

(** What lies outside the process: the time [CURRENT_TIMESTAMP] reads
    during the n-th call of a tracker method, and what the network does
    with the n-th call of [batch_upload_records]. *)
Record outside : Type := {
  current_timestamp : nat -> Z;
  network : nat -> list upload_record -> post_outcome
}.

(** The state a run works on: the tracker's database, the number of tracker
    calls made, and the lists passed to [batch_upload_records] so far. *)
Record world : Type := {
  tracker : db;
  tracker_calls : nat;
  sent : list (list upload_record)
}.

(** A call of a tracker method that writes. *)
Definition tracker_call {A : Type} (o : outside) (method : Z -> db -> A * db)
  (w : world) : A * world :=
  let '(a, d) := method (current_timestamp o (tracker_calls w)) (tracker w) in
  (a, {| tracker := d; tracker_calls := S (tracker_calls w); sent := sent w |}).

(** [self.uploader.batch_upload_records(upload_batch)]. *)
Definition uploader_call (o : outside) (records : list upload_record) (w : world)
  : option api_result * world :=
  (batch_upload_records (network o (List.length (sent w)) records) records,
   {| tracker := tracker w; tracker_calls := tracker_calls w;
      sent := sent w ++ [records] |}).

(** [range(start, stop, step)]. *)
Fixpoint range_up (fuel : nat) (i stop step : Z) : list Z :=
  match fuel with
  | O => []
  | S n => if i <? stop then i :: range_up n (i + step) stop step else []
  end.

Fixpoint range_down (fuel : nat) (i stop step : Z) : list Z :=
  match fuel with
  | O => []
  | S n => if stop <? i then i :: range_down n (i + step) stop step else []
  end.

Definition py_range (start stop step : Z) : result (list Z) :=
  if step =? 0 then Raise ValueError
  else if 0 <? step then Ok (range_up (Z.to_nat (stop - start)) start stop step)
  else Ok (range_down (Z.to_nat (start - stop)) start stop step).

(** [items[i:j]] for indices that are not negative. *)
Definition slice {A : Type} (items : list A) (i j : Z) : list A :=
  firstn (Z.to_nat (j - i)) (skipn (Z.to_nat i) items).

(** The dictionary built for one record. *)
Definition to_upload_record (record : calendar_record) : upload_record :=
  {| Summary := if str_truthy (summary record) then summary record else "";
     Start_Time := start_time record;
     End_Time := or_else (end_time record) (start_time record);
     Person := person_name record |}.

(** [for event_id in event_ids: self.tracker.mark(event_id, text)]. *)
Definition mark_each (o : outside) (mark : Z -> string -> string -> db -> bool * db)
  (event_ids : list string) (text : string) (w : world) : world :=
  fold_left (fun w' eid => snd (tracker_call o (fun now => mark now eid text) w'))
            event_ids w.

(** The running totals of the loop. *)
Record counts : Type := {
  uploaded_count : Z;
  failed_count : Z
}.

(** [result and result.get('code') == 0]. *)
Definition upload_succeeded (result : option api_result) : bool :=
  match result with
  | Some r => dict_truthy r && match code r with Some c => c =? 0 | None => false end
  | None => false
  end.

(** [result.get('msg', '未知错误') if result else '网络错误']. *)
Definition extracted_error_msg (result : option api_result) : string :=
  match result with
  | Some r => if dict_truthy r then get_default (msg r) "未知错误" else "网络错误"
  | None => "网络错误"
  end.

(** The text [mark_as_uploaded] is given for every record of a batch. *)
Definition success_text : string := "批量上传成功".

(** The body of the loop over the batches. *)
Definition upload_one_batch (o : outside) (batch_records : list calendar_record)
  (state : world * counts) : world * counts :=
  let '(w, n) := state in
  let upload_batch := map to_upload_record batch_records in
  let event_ids := map event_id batch_records in
  let '(result, w1) := uploader_call o upload_batch w in
  if upload_succeeded result then
    (mark_each o mark_as_uploaded event_ids success_text w1,
     {| uploaded_count := uploaded_count n + Z.of_nat (List.length event_ids);
        failed_count := failed_count n |})
  else
    let error_msg := extracted_error_msg result in
    (mark_each o mark_as_failed event_ids error_msg w1,
     {| uploaded_count := uploaded_count n;
        failed_count := failed_count n + Z.of_nat (List.length event_ids) |}).

(** [CalendarScheduler._upload_pending_records]. The value is the pair of
    totals the last log line reports; there is none when nothing was
    pending and when the body raised. *)
Definition _upload_pending_records (o : outside) (config : schedule_config)
  (w : world) : option counts * world :=
  let pending_records := get_pending_records None None (tracker w) in
  match pending_records with
  | [] => (None, w)
  | _ :: _ =>
      match py_range 0 (Z.of_nat (List.length pending_records)) (batch_size config) with
      | Raise _ => (None, w)
      | Ok starts =>
          let '(w', n) :=
            fold_left
              (fun state i =>
                 upload_one_batch o
                   (slice pending_records i (i + batch_size config)) state)
              starts
              (w, {| uploaded_count := 0; failed_count := 0 |}) in
          (Some n, w')
      end
  end.

(** A calendar file as the loader sees it: its path and the list under
    ["data"]["items"], absent when the file cannot be read as such. *)
Record calendar_file_data : Type := {
  file_path : string;
  file_items : option (list event_data)
}.

Definition is_cancelled (event : event_data) : bool :=
  match ev_status event with
  | Some s => String.eqb s "cancelled"
  | None => false
  end.

(** The loop over the events of one file: the state and [added_count]. *)
Definition load_events (h : host) (o : outside) (person : string) (path : string)
  (events : list event_data) (w : world) : world * Z :=
  fold_left
    (fun state event =>
       let '(w', added_count) := state in
       if negb (is_cancelled event) then
         let '(changed, w'') :=
           tracker_call o (fun now => add_or_update_record h now event person path) w' in
         (w'', if changed then added_count + 1 else added_count)
       else state)
    events (w, 0).

(** [CalendarScheduler._load_calendar_records] on the files the glob lists:
    the state and [total_added]. *)
Definition _load_calendar_records (h : host) (o : outside)
  (calendar_files : list calendar_file_data) (w : world) : world * Z :=
  fold_left
    (fun state file =>
       let '(w', total_added) := state in
       match file_items file with
       | Some events =>
           let '(w'', added_count) :=
             load_events h o (path_stem h (file_path file)) (file_path file) events w' in
           (w'', total_added + added_count)
       | None => state
       end)
    calendar_files (w, 0).

(* ================================================================== *)
(** * The calendar source ([fetcher.py]) and a full run *)

(** [PATHS["personal_calendars"]]. *)
Definition personal_calendars : string := "data/personal_calendars".

(** The start time the filter compares: [int(start_time.get("timestamp",
    "0"))] for a dictionary, [int(str(start_time))] otherwise; the text of
    a value that is neither a string nor an integer is not a number. *)
Definition event_start_timestamp (h : host) (event : event_data) : result Z :=
  match get_default (ev_start_time event) (JObj []) with
  | JObj d => py_int h (get_default (dict_lookup "timestamp" d) (JStr "0"))
  | JStr s => int_of_str h s
  | JInt n => Ok n
  | JNull | JBool _ | JFloat _ | JArr _ => Raise ValueError
  end.

(** [not event.get("summary", "").strip()]. *)
Definition has_blank_summary (event : event_data) : bool :=
  negb (str_truthy (strip (get_default (ev_summary event) ""))).

(** The filter loop of [get_calendar_events]: the events kept, or the
    exception an event raised. *)
Fixpoint filter_events (h : host) (filter_start_timestamp : Z)
  (events : list event_data) : result (list event_data) :=
  match events with
  | [] => Ok []
  | event :: rest =>
      if is_cancelled event then filter_events h filter_start_timestamp rest
      else if has_blank_summary event then filter_events h filter_start_timestamp rest
      else
        event_start <- event_start_timestamp h event ;;
        if event_start <? filter_start_timestamp
        then filter_events h filter_start_timestamp rest
        else
          kept <- filter_events h filter_start_timestamp rest ;;
          Ok (event :: kept)
  end.

(** What the calendar API answers for one calendar of the list: the keys
    read of its entry, the ["items"] of the events request (none when the
    request fails or answers an error), and the first second of the current
    month when the request is made. *)
Record calendar_answer : Type := {
  ans_calendar_id : option string;
  ans_summary : option string;
  ans_items : option (list event_data);
  ans_filter_start_timestamp : Z
}.

(** [CalendarFetcher.get_calendar_events]: the ["items"] of the dictionary
    returned; [None] on a failed request and on an exception. *)
Definition get_calendar_events (h : host) (answer : calendar_answer)
  : option (list event_data) :=
  match ans_items answer with
  | None => None
  | Some events =>
      match filter_events h (ans_filter_start_timestamp answer) events with
      | Ok filtered_events => Some filtered_events
      | Raise _ => None
      end
  end.

(** [CalendarFetcher.sanitize_filename]. *)
Definition is_reserved (c : ascii) : bool :=
  existsb (Z.eqb (ord c)) [60; 62; 58; 34; 47; 92; 124; 63; 42].

Fixpoint replace_reserved (s : string) : string :=
  match s with
  | EmptyString => EmptyString
  | String c rest =>
      String (if is_reserved c then "_"%char else c) (replace_reserved rest)
  end.

Definition sanitize_filename (filename : string) : string :=
  substring 0 100 (replace_reserved filename).

(** The files of the directory [personal_calendars]. *)
Definition directory : Type := list calendar_file_data.

(** [open(path, "w")] and [json.dump]: the file is created or replaced. *)
Fixpoint write_file (path : string) (items : list event_data) (dir : directory)
  : directory :=
  match dir with
  | [] => [{| file_path := path; file_items := Some items |}]
  | file :: rest =>
      if String.eqb (file_path file) path
      then {| file_path := path; file_items := Some items |} :: rest
      else file :: write_file path items rest
  end.

(** The body of the loop of [save_calendar_results]. *)
Definition save_calendar (h : host) (dir : directory) (answer : calendar_answer)
  : directory :=
  let calendar_id := get_default (ans_calendar_id answer) "" in
  let name := get_default (ans_summary answer) "Unknown" in
  if str_truthy calendar_id then
    match get_calendar_events h answer with
    | Some items =>
        write_file
          (path_join h personal_calendars (sanitize_filename (name ++ ".txt")%string))
          items dir
    | None => dir
    end
  else dir.

(** [CalendarFetcher.save_calendar_results]. *)
Definition save_calendar_results (h : host) (calendar_list : list calendar_answer)
  (dir : directory) : bool * directory :=
  match calendar_list with
  | [] => (false, dir)
  | _ :: _ => (true, fold_left (save_calendar h) calendar_list dir)
  end.

(** [CalendarFetcher.fetch_calendar_data]; the answer is absent when there
    is no token or the calendar list cannot be had. *)
Definition fetch_calendar_data (h : host) (answer : option (list calendar_answer))
  (dir : directory) : bool * directory :=
  match answer with
  | None => (false, dir)
  | Some calendar_list => save_calendar_results h calendar_list dir
  end.

(** [glob.glob(os.path.join(PATHS["personal_calendars"], "*.txt"))]. *)
Definition glob_calendar_files (h : host) (dir : directory) : list calendar_file_data :=
  filter (fun file => glob_txt h personal_calendars (file_path file)) dir.

(** [CalendarScheduler.execute_main_task] once the working-day check and
    the authorisation have passed: fetch, load, upload. *)
Definition execute_main_task (h : host) (o : outside) (config : schedule_config)
  (answer : option (list calendar_answer)) (state : directory * world)
  : directory * world :=
  let '(dir, w) := state in
  let '(fetched, dir1) := fetch_calendar_data h answer dir in
  if fetched then
    let '(w1, _) := _load_calendar_records h o (glob_calendar_files h dir1) w in
    let '(_, w2) := _upload_pending_records o config w1 in
    (dir1, w2)
  else (dir1, w).

(** The state before the first run: an empty directory and the database
    [_init_database] creates. *)
Definition initial_world : world :=
  {| tracker := empty_db; tracker_calls := 0; sent := [] |}.

(** The runs of [execute_main_task] a process makes, one per answer of the
    calendar API. *)
Definition run_cycles (h : host) (o : outside) (config : schedule_config)
  (answers : list (option (list calendar_answer))) : directory * world :=
  fold_left (fun state answer => execute_main_task h o config answer state)
            answers ([], initial_world).

(* ================================================================== *)
(** * More of the calendar source ([fetcher.py]) *)

(** The state of the filter loop of [get_calendar_events]: the list it
    fills and its three counters. *)
Record filter_state : Type := {
  filtered_events : list event_data;
  cancelled_count : Z;
  empty_summary_count : Z;
  out_of_range_count : Z
}.

(** The filter loop with its counters. *)
Fixpoint filter_loop (h : host) (filter_start_timestamp : Z)
  (events : list event_data) (s : filter_state) : result filter_state :=
  match events with
  | [] => Ok s
  | event :: rest =>
      if is_cancelled event then
        filter_loop h filter_start_timestamp rest
          {| filtered_events := filtered_events s;
             cancelled_count := cancelled_count s + 1;
             empty_summary_count := empty_summary_count s;
             out_of_range_count := out_of_range_count s |}
      else if has_blank_summary event then
        filter_loop h filter_start_timestamp rest
          {| filtered_events := filtered_events s;
             cancelled_count := cancelled_count s;
             empty_summary_count := empty_summary_count s + 1;
             out_of_range_count := out_of_range_count s |}
      else
        event_start <- event_start_timestamp h event ;;
        if event_start <? filter_start_timestamp then
          filter_loop h filter_start_timestamp rest
            {| filtered_events := filtered_events s;
               cancelled_count := cancelled_count s;
               empty_summary_count := empty_summary_count s;
               out_of_range_count := out_of_range_count s + 1 |}
        else
          filter_loop h filter_start_timestamp rest
            {| filtered_events := filtered_events s ++ [event];
               cancelled_count := cancelled_count s;
               empty_summary_count := empty_summary_count s;
               out_of_range_count := out_of_range_count s |}
  end.

(** The dictionary under ["data"] that [get_calendar_events] returns and
    [save_calendar_results] writes to the file, without the times of the
    query and of the retrieval. *)
Record events_data : Type := {
  data_items : list event_data;
  data_total_count : Z;
  data_original_count : Z;
  data_cancelled_count : Z;
  data_empty_summary_count : Z;
  data_out_of_range_count : Z;
  data_filter_start_timestamp : Z
}.

(** [CalendarFetcher.get_calendar_events] with the counts it reports. *)
Definition get_calendar_events_data (h : host) (answer : calendar_answer)
  : option events_data :=
  match ans_items answer with
  | None => None
  | Some events =>
      match filter_loop h (ans_filter_start_timestamp answer) events
              {| filtered_events := []; cancelled_count := 0;
                 empty_summary_count := 0; out_of_range_count := 0 |} with
      | Ok s =>
          Some {| data_items := filtered_events s;
                  data_total_count := Z.of_nat (List.length (filtered_events s));
                  data_original_count := Z.of_nat (List.length events);
                  data_cancelled_count := cancelled_count s;
                  data_empty_summary_count := empty_summary_count s;
                  data_out_of_range_count := out_of_range_count s;
                  data_filter_start_timestamp := ans_filter_start_timestamp answer |}
      | Raise _ => None
      end
  end.

(** The end of the range of time [get_calendar_events] asks the API for:
    the last day of the second month after the current one, which
    [calendar.monthrange] gives; the constructor of [datetime] turns down a
    year above 9999. *)
Definition query_end_date (current_date : datetime) : result datetime :=
  let target_month := month current_date + 2 in
  let target_year := year current_date in
  let '(target_month, target_year) :=
    if 12 <? target_month then (target_month - 12, target_year + 1)
    else (target_month, target_year) in
  let last_day := days_in_month target_year target_month in
  if valid_date target_year target_month last_day
  then Ok {| year := target_year; month := target_month; day := last_day |}
  else Raise ValueError.

(** [start_timestamp] and [end_timestamp]: the first second of the current
    month and the second 23:59:59 of the end date, both read in the local
    time zone. *)
Definition query_range (h : host) (current_date : datetime) : result (Z * Z) :=
  let start_date :=
    {| year := year current_date; month := month current_date; day := 1 |} in
  end_date <- query_end_date current_date ;;
  start_timestamp <- timestamp h start_date ;;
  end_timestamp <- local_timestamp h (naive_seconds end_date + 86399) ;;
  Ok (start_timestamp, end_timestamp).

(* ================================================================== *)
(** * The direct upload of a calendar file ([direct_calendar_uploader.py]) *)

(** [DirectCalendarUploader.read_calendar_json]: the list under
    ["data"]["items"], the empty list for a file that cannot be read. *)
Definition read_calendar_json (file : calendar_file_data) : list event_data :=
  get_default (file_items file) [].

(** [limit and i >= limit]. *)
Definition limit_reached (limit : option Z) (i : Z) : bool :=
  match limit with
  | Some n => negb (n =? 0) && (n <=? i)
  | None => false
  end.

(** The loop of [upload_calendar_file] over [enumerate(events)], from the
    index [i] on: the list [records] and [skipped_count]. *)
Fixpoint convert_events (h : host) (person_name : string) (limit : option Z)
  (i : Z) (events : list event_data) (records : list upload_record)
  (skipped_count : Z) : list upload_record * Z :=
  match events with
  | [] => (records, skipped_count)
  | event :: rest =>
      if limit_reached limit i then (records, skipped_count)
      else
        match convert_event_to_record h event person_name with
        | Some record =>
            convert_events h person_name limit (i + 1) rest
              (records ++ [record]) skipped_count
        | None =>
            convert_events h person_name limit (i + 1) rest
              records (skipped_count + 1)
        end
  end.

(** [DirectCalendarUploader.upload_calendar_file]: the value returned and
    the lists passed to [batch_upload_records]. [outcome] is what the
    network does with the call, and [created] what
    [len(result.get('data', {}).get('records', []))] gives on the answer,
    an exception when the answer has no such list. *)
Definition upload_calendar_file (h : host) (outcome : post_outcome)
  (created : result Z) (file : calendar_file_data) (person_name : option string)
  (limit : option Z) : bool * list (list upload_record) :=
  let person_name :=
    match person_name with
    | Some name => name
    | None => path_stem h (file_path file)
    end in
  match read_calendar_json file with
  | [] => (false, [])
  | events =>
      let '(records, skipped_count) :=
        convert_events h person_name limit 0 events [] 0 in
      match records with
      | [] => (false, [])
      | _ :: _ =>
          let result := batch_upload_records outcome records in
          (if upload_succeeded result
           then match created with
                | Ok _ => true
                | Raise _ => false
                end
           else false,
           [records])
      end
  end.

(* ================================================================== *)
(** * The access token ([oauth.py], [fetcher.py]) *)

(** Truth value of a value read by [json.load]. *)
Definition json_truthy (x : json) : bool :=
  match x with
  | JNull => false
  | JBool b => b
  | JInt n => negb (n =? 0)
  | JFloat f => match f with
                | S754_zero _ => false
                | _ => true
                end
  | JStr s => str_truthy s
  | JArr items => match items with
                  | [] => false
                  | _ :: _ => true
                  end
  | JObj members => match members with
                    | [] => false
                    | _ :: _ => true
                    end
  end.

(** [d[key] = value]: the value of a key the dictionary has is replaced
    at its place, a new key comes last. *)
Fixpoint dict_set (key : string) (value : json) (d : list (string * json))
  : list (string * json) :=
  match d with
  | [] => [(key, value)]
  | (k, v) :: rest =>
      if String.eqb key k then (k, value) :: rest
      else (k, v) :: dict_set key value rest
  end.

(** What the network does with the request for a token. *)
Inductive token_response : Type :=
| TokenRequestFailed                             (* [requests.post] raised *)
| TokenResponse (status_code : Z) (body : result json).

(** [x[:30]]: a string and a list have slices. *)
Definition slice_30 (x : json) : result unit :=
  match x with
  | JStr _ | JArr _ => Ok tt
  | _ => Raise TypeError
  end.

(** The body of [OAuthHandler.get_user_token] once the answer is read;
    [retrieved_at] is the text of the time of the call. *)
Definition get_user_token_body (retrieved_at : string) (token_data : json)
  : result (option json) :=
  has_token <- py_in "access_token" token_data ;;
  if has_token then
    access_token <- py_getitem token_data "access_token" ;;
    _ <- slice_30 access_token ;;
    match token_data with
    | JObj d => Ok (Some (JObj (dict_set "retrieved_at" (JStr retrieved_at) d)))
    | _ => Raise TypeError
    end
  else Ok None.

(** [OAuthHandler.get_user_token]. *)
Definition get_user_token (retrieved_at : string) (response : token_response)
  : option json :=
  match response with
  | TokenRequestFailed => None
  | TokenResponse status_code body =>
      if status_code =? 200 then
        match body with
        | Ok token_data =>
            match get_user_token_body retrieved_at token_data with
            | Ok value => value
            | Raise _ => None
            end
        | Raise _ => None
        end
      else None
  end.

(** The entries of [OAUTH_CONFIG] that are written to the file. *)
Record oauth_config : Type := {
  client_id : string;
  redirect_uri : string
}.

(** [OAuthGUI._save_oauth_data]: the document written to the token file.
    [token_data] is [JNull] for [None]; the last two arguments are the
    texts of the times read. *)
Definition _save_oauth_data (config : oauth_config) (code url : string)
  (token_data : json) (written_at last_updated : string) : json :=
  JObj [ ("timestamp", JStr written_at);
         ("oauth",
          JObj [ ("code", JStr code);
                 ("url", JStr url);
                 ("client_id", JStr (client_id config));
                 ("redirect_uri", JStr (redirect_uri config));
                 ("token_retrieved", JBool (json_truthy token_data));
                 ("token", if json_truthy token_data then token_data else JNull) ]);
         ("status",
          JObj [ ("oauth_complete", JBool (json_truthy token_data));
                 ("last_updated", JStr last_updated) ]) ].

(** The body of [CalendarFetcher.load_access_token] on the document read. *)
Definition load_access_token_body (data : json) : result (option json) :=
  oauth <- py_get data "oauth" (JObj []) ;;
  token_data <- py_get oauth "token" (JObj []) ;;
  access_token <- py_get token_data "access_token" JNull ;;
  Ok (if json_truthy access_token then Some access_token else None).

(** [CalendarFetcher.load_access_token]; the file is absent when there is
    none or when it does not hold a JSON document. *)
Definition load_access_token (token_file : option json) : option json :=
  match token_file with
  | None => None
  | Some data =>
      match load_access_token_body data with
      | Ok access_token => access_token
      | Raise _ => None
      end
  end.

(* ================================================================== *)
(** * The tenant token ([lark_token.py]) *)

(** A [float] of the interpreter: binary64. *)
Definition float_of_int (n : Z) : spec_float := binary_normalize 53 1024 n 0 false.

Definition float_add (x y : spec_float) : spec_float := SFadd 53 1024 x y.

Definition float_sub (x y : spec_float) : spec_float := SFsub 53 1024 x y.

(** [TOKEN_EXPIRE_TIME] of [config.py]. *)
Definition TOKEN_EXPIRE_TIME : Z := 7200.

(** The cache of a [LarkTokenManager]; [JNull] is [None]. *)
Record token_manager : Type := {
  _cached_token : json;
  _token_expire_time : spec_float
}.

(** The manager [__init__] makes. *)
Definition new_token_manager : token_manager :=
  {| _cached_token := JNull; _token_expire_time := float_of_int 0 |}.

(** [x == 0] on a value read by [json.load]. *)
Definition json_eq_zero (x : json) : bool :=
  match x with
  | JInt n => n =? 0
  | JBool b => negb b
  | JFloat (S754_zero _) => true
  | _ => false
  end.

(** What a call of [get_tenant_access_token] gives: the value returned
    ([JNull] for [None]), the manager after the call and whether the
    request was made. *)
Record token_call : Type := {
  returned : json;
  manager_after : token_manager;
  requested : bool
}.

(** [LarkTokenManager.get_tenant_access_token]; [current_time] is what
    [time.time()] reads and [response] what the network does with the
    request, if it is made. *)
Definition get_tenant_access_token (current_time : spec_float)
  (response : token_response) (m : token_manager) : token_call :=
  if json_truthy (_cached_token m) && SFltb current_time (_token_expire_time m)
  then {| returned := _cached_token m; manager_after := m; requested := false |}
  else
    let nothing := {| returned := JNull; manager_after := m; requested := true |} in
    match response with
    | TokenRequestFailed => nothing
    | TokenResponse status_code body =>
        if status_code =? 200 then
          match (result <- body ;;
                 code <- py_get result "code" JNull ;;
                 if json_eq_zero code then
                   token <- py_get result "tenant_access_token" JNull ;;
                   Ok (Some token)
                 else Ok None) with
          | Ok (Some token) =>
              {| returned := token;
                 manager_after :=
                   {| _cached_token := token;
                      _token_expire_time :=
                        float_sub
                          (float_add current_time (float_of_int TOKEN_EXPIRE_TIME))
                          (float_of_int 300) |};
                 requested := true |}
          | Ok None => nothing
          | Raise _ => nothing
          end
        else nothing
    end.

(* ================================================================== *)
(** * Relations between a row before and after a statement *)

(** The columns no update touches. *)
Definition same_identity (old new : calendar_record) : Prop :=
  id new = id old /\ event_id new = event_id old
  /\ person_name new = person_name old /\ created_time new = created_time old.

(** The columns only ingestion writes. *)
Definition same_content (old new : calendar_record) : Prop :=
  summary new = summary old /\ start_time new = start_time old
  /\ end_time new = end_time old /\ calendar_file new = calendar_file old
  /\ record_hash new = record_hash old.

(** The row is marked with a status, the time of the call and a text. *)
Definition marked (st : status) (now : Z) (text : string)
  (old new : calendar_record) : Prop :=
  upload_status new = st /\ upload_time new = Some now
  /\ upload_result new = Some text /\ updated_time new = now
  /\ same_identity old new /\ same_content old new.

(** The row is back to [pending] with no upload time and no result. *)
Definition reset_to_pending (now : Z) (old new : calendar_record) : Prop :=
  upload_status new = pending /\ upload_time new = None
  /\ upload_result new = None /\ updated_time new = now
  /\ same_identity old new /\ same_content old new.

(** The row has taken the content of a changed event and is back to
    [pending]. *)
Definition overwritten (now : Z) (new_summary : string)
  (new_start new_end : option Z) (new_file new_hash : string)
  (old new : calendar_record) : Prop :=
  summary new = new_summary /\ start_time new = new_start
  /\ end_time new = new_end /\ calendar_file new = new_file
  /\ record_hash new = new_hash
  /\ upload_status new = pending /\ upload_time new = None
  /\ upload_result new = None /\ updated_time new = now
  /\ same_identity old new.

(** Only the rows of one event changed, each as [change] says. *)
Definition rows_changed_for (eid : string)
  (change : calendar_record -> calendar_record -> Prop)
  (old_rows new_rows : list calendar_record) : Prop :=
  Forall2 (fun old new =>
             if String.eqb (event_id old) eid then change old new else new = old)
          old_rows new_rows.

(** No two rows share an [event_id]: the UNIQUE constraint. *)
Definition unique_event_ids (d : db) : Prop :=
  NoDup (map event_id (calendar_records d)).

(** The partition of a sequence into consecutive batches of [size]: the
    batch sizes of the specification. *)
Fixpoint chunks_upto {A : Type} (fuel : nat) (size : nat) (items : list A)
  : list (list A) :=
  match fuel with
  | O => []
  | S n =>
      match items with
      | [] => []
      | _ :: _ => firstn size items :: chunks_upto n size (skipn size items)
      end
  end.

Definition chunks {A : Type} (size : nat) (items : list A) : list (list A) :=
  chunks_upto (List.length items) size items.

(** What the uploader returns for the batch sent as call number [n]. *)
Definition batch_result (o : outside) (n : nat) (batch : list calendar_record)
  : option api_result :=
  batch_upload_records (network o n (map to_upload_record batch))
                       (map to_upload_record batch).

(** What a batch whose call returned [result] does to a record of it. *)
Definition marked_by_result (result : option api_result) (now : Z)
  (old new : calendar_record) : Prop :=
  if upload_succeeded result
  then marked uploaded now success_text old new
  else marked failed now ("FAILED: " ++ extracted_error_msg result)%string old new.

Definition by_created_time (a b : calendar_record) : Prop :=
  created_time a <= created_time b.

(** What a batch whose call returned [result] writes to a row at [now]. *)
Definition set_by_result (result : option api_result) (now : Z)
  : calendar_record -> calendar_record :=
  if upload_succeeded result
  then set_uploaded now success_text
  else set_failed now ("FAILED: " ++ extracted_error_msg result)%string.

(** The rows after the loop over [event_ids], one tracker call each, the
    first being call number [calls]. *)
Fixpoint mark_rows (o : outside) (set : Z -> calendar_record -> calendar_record)
  (calls : nat) (event_ids : list string) (rows : list calendar_record)
  : list calendar_record :=
  match event_ids with
  | [] => rows
  | eid :: rest =>
      mark_rows o set (S calls) rest
        (update_where (has_event_id eid) (set (current_timestamp o calls)) rows)
  end.

(** Whether the filter [person_name] given to [get_pending_records] lets a
    row through: no name and the empty name let every row through. *)
Definition selects (person : option string) (r : calendar_record) : bool :=
  match person with
  | Some name => if str_truthy name then String.eqb (person_name r) name else true
  | None => true
  end.

(** Whether a limit given to [get_pending_records] caps the result: a
    positive number does; no limit, zero and a negative number do not. *)
Definition caps (limit : option Z) : option nat :=
  match limit with
  | Some n => if 0 <? n then Some (Z.to_nat n) else None
  | None => None
  end.

(** The log row written for an entry of [log_upload_batch]. *)
Definition logs_entry (now : Z) (batch_id : string) (entry : upload_outcome)
  (log : upload_log) : Prop :=
  log_batch_id log = batch_id
  /\ Some (log_event_id log) = out_event_id entry
  /\ Some (log_upload_status log) = out_status entry
  /\ log_upload_result log = out_result entry
  /\ log_error_message log = out_error entry
  /\ log_upload_time log = now.

(** The entry has the two values the table requires. *)
Definition loggable (entry : upload_outcome) : bool :=
  match out_event_id entry, out_status entry with
  | Some _, Some _ => true
  | _, _ => false
  end.

(** An event the specification excludes: cancelled, or with a title that
    is empty or blank. *)
Definition excluded (event : event_data) : bool :=
  is_cancelled event || has_blank_summary event.

(** An answer of the calendar API without its excluded events. *)
Definition without_excluded (answer : calendar_answer) : calendar_answer :=
  {| ans_calendar_id := ans_calendar_id answer;
     ans_summary := ans_summary answer;
     ans_items := option_map (filter (fun event => negb (excluded event)))
                             (ans_items answer);
     ans_filter_start_timestamp := ans_filter_start_timestamp answer |}.

(** A calendar file without its cancelled events. *)
Definition without_cancelled (file : calendar_file_data) : calendar_file_data :=
  {| file_path := file_path file;
     file_items := option_map (filter (fun event => negb (is_cancelled event)))
                              (file_items file) |}.

(** The row has a title that is not blank. *)
Definition has_title (r : calendar_record) : bool :=
  str_truthy (strip (summary r)).

(** The file holds no excluded event. *)
Definition holds_no_excluded (file : calendar_file_data) : Prop :=
  forall events, file_items file = Some events ->
                 Forall (fun event => excluded event = false) events.

Definition sum_of (numbers : list Z) : Z := fold_right Z.add 0 numbers.

Definition by_total_desc (a b : person_stat) : Prop := stat_total b <= stat_total a.

(** Every row of [old_rows] is still in the table, at its place and with
    the columns no update touches; rows may have been added behind. *)
Definition rows_kept (old_rows new_rows : list calendar_record) : Prop :=
  exists kept added,
    new_rows = kept ++ added /\ Forall2 same_identity old_rows kept.

(** The events of the calendar files that the loader passes to the store,
    in the order of the calls, each with the person and the path it is
    passed with. *)
Definition load_steps (h : host) (files : list calendar_file_data)
  : list (string * string * event_data) :=
  flat_map
    (fun file =>
       match file_items file with
       | Some events =>
           map (fun event => (path_stem h (file_path file), file_path file, event))
               (filter (fun event => negb (is_cancelled event)) events)
       | None => []
       end)
    files.

(** One call of the loader. *)
Definition load_step (h : host) (o : outside) (w : world)
  (step : string * string * event_data) : world :=
  let '(person, path, event) := step in
  snd (tracker_call o (fun now => add_or_update_record h now event person path) w).

(** The event has an identifier the store accepts. *)
Definition has_identifier (event : event_data) : bool :=
  match ev_event_id event with
  | Some eid => str_truthy eid
  | None => false
  end.

Definition event_id_of (event : event_data) : string :=
  get_default (ev_event_id event) "".

(** The events of the files that reach the store and have an identifier. *)
Definition loaded_events (files : list calendar_file_data) : list event_data :=
  flat_map
    (fun file =>
       match file_items file with
       | Some events =>
           filter (fun event => negb (is_cancelled event) && has_identifier event)
                  events
       | None => []
       end)
    files.

(** The table holds the event under the fingerprint it has now. *)
Definition holds_unchanged (h : host) (rows : list calendar_record)
  (event : event_data) : Prop :=
  exists r,
    find (has_event_id (event_id_of event)) rows = Some r
    /\ record_hash r = _generate_record_hash h event.

(** What the scheduler does with the files of the directory: it loads
    them, then uploads what is pending. *)
Definition load_and_upload (h : host) (o : outside) (config : schedule_config)
  (files : list calendar_file_data) (w : world) : world :=
  snd (_upload_pending_records o config (fst (_load_calendar_records h o files w))).

(** The event starts before the current month, as the filter of the
    fetcher reads its start. *)
Definition starts_before (h : host) (filter_start_timestamp : Z)
  (event : event_data) : bool :=
  match event_start_timestamp h event with
  | Ok event_start => event_start <? filter_start_timestamp
  | Raise _ => false
  end.

(** The event is one the filter of the fetcher keeps: not excluded, with a
    start it can read that is not before the current month. *)
Definition kept_by_filter (h : host) (filter_start_timestamp : Z)
  (event : event_data) : bool :=
  negb (excluded event)
  && match event_start_timestamp h event with
     | Ok event_start => negb (event_start <? filter_start_timestamp)
     | Raise _ => false
     end.

Definition count_events (p : event_data -> bool) (events : list event_data) : Z :=
  Z.of_nat (List.length (filter p events)).

(** The start time of the event has no key ["timestamp"]: the event has no
    start time or one that gives a date only, as an all-day event does. *)
Definition lacks_timestamp (event : event_data) : bool :=
  match ev_start_time event with
  | None => true
  | Some (JObj d) =>
      match dict_lookup "timestamp" d with
      | Some _ => false
      | None => true
      end
  | Some _ => false
  end.

(** The month after a month of a year. *)
Definition month_after (ym : Z * Z) : Z * Z :=
  let '(y, m) := ym in
  if m =? 12 then (y + 1, 1) else (y, m + 1).

(** The first second of a month, in seconds from 1970-01-01T00:00:00. *)
Definition first_second (ym : Z * Z) : Z :=
  naive_seconds {| year := fst ym; month := snd ym; day := 1 |}.

(** The characters of a text. *)
Definition characters (s : string) : list ascii := list_ascii_of_string s.

(** The events [upload_calendar_file] gets to under a limit: all of them
    without a limit and with the limit 0, the first [n] with a limit [n]
    above 0, none with a limit below 0. *)
Definition examined {A : Type} (limit : option Z) (events : list A) : list A :=
  match limit with
  | Some n => if n =? 0 then events else firstn (Z.to_nat n) events
  | None => events
  end.

(** The records of the events [convert_event_to_record] does not leave
    out, in the order of the events. *)
Definition converted (h : host) (person : string) (events : list event_data)
  : list upload_record :=
  flat_map (fun event =>
              match convert_event_to_record h event person with
              | Some record => [record]
              | None => []
              end)
           events.

(** The name [upload_calendar_file] files the records under. *)
Definition person_of (h : host) (file : calendar_file_data)
  (person_name : option string) : string :=
  get_default person_name (path_stem h (file_path file)).

(** Calls of [get_tenant_access_token] in a row, each at its time and with
    the answer the network would give: the calls made and the manager
    left. *)
Fixpoint token_calls (calls : list (spec_float * token_response)) (m : token_manager)
  : list token_call * token_manager :=
  match calls with
  | [] => ([], m)
  | (current_time, response) :: rest =>
      let call := get_tenant_access_token current_time response m in
      let '(others, m') := token_calls rest (manager_after call) in
      (call :: others, m')
  end.

(** The events loaded from the files under one identifier, in the order
    of the calls. *)
Definition loaded_under (eid : string) (files : list calendar_file_data)
  : list event_data :=
  filter (fun event => String.eqb (event_id_of event) eid) (loaded_events files).

(** The start and end times ingestion resolves for an event. *)
Definition resolved_start (h : host) (event : event_data) : result (option Z) :=
  _extract_timestamp h (get_default (ev_start_time event) (JObj [])).

Definition resolved_end (h : host) (event : event_data) : result (option Z) :=
  _extract_timestamp h (get_default (ev_end_time event) (JObj [])).

(* ================================================================== *)
(** * Sample data for the examples *)

(** Stand-ins for the two digest functions: the text of the string fields,
    which is all the examples vary. *)
Definition sample_text (j : json) : string :=
  match j with
  | JStr s => s
  | _ => ""
  end.

Definition sample_dumps (j : json) : string :=
  match j with
  | JObj members => String.concat "|" (map (fun kv => sample_text (snd kv)) members)
  | other => sample_text other
  end.

(** A POSIX host whose clock is [offset] seconds east of UTC. *)
Definition host_at_offset (offset : Z) : host :=
  {| int_max_str_digits := 4300;
     local_timestamp := fun naive => Ok (naive - offset);
     json_dumps_sorted := sample_dumps;
     md5_hexdigest := fun text => text;
     path_join := fun directory name => (directory ++ "/" ++ name)%string;
     path_stem := fun path => path;
     glob_txt := fun _ _ => true |}.

Definition host_utc : host := host_at_offset 0.

(** China Standard Time. *)
Definition host_cst : host := host_at_offset 28800.

Definition time_with_timestamp : json := JObj [("timestamp", JStr "1700000000")].

Definition time_with_date : json := JObj [("date", JStr "2024-11-07")].

Definition time_with_neither : json := JObj [("timezone", JStr "Asia/Shanghai")].

(** Midnight of 2024-11-07 in UTC, in milliseconds since the epoch. *)
Definition ms_2024_11_07_utc : Z := 1730937600000.

(** An event, and the same event under another title. *)
Definition standup : event_data :=
  {| ev_event_id := Some "evt_1";
     ev_summary := Some "Standup";
     ev_status := Some "confirmed";
     ev_description := None;
     ev_start_time := Some time_with_timestamp;
     ev_end_time := Some time_with_timestamp |}.

Definition standup_renamed : event_data :=
  {| ev_event_id := Some "evt_1";
     ev_summary := Some "Daily standup";
     ev_status := Some "confirmed";
     ev_description := None;
     ev_start_time := Some time_with_timestamp;
     ev_end_time := Some time_with_timestamp |}.

(** The same event without its identifier, and with an empty one. *)
Definition standup_without_id : event_data :=
  {| ev_event_id := None;
     ev_summary := Some "Standup";
     ev_status := Some "confirmed";
     ev_description := None;
     ev_start_time := Some time_with_timestamp;
     ev_end_time := Some time_with_timestamp |}.

(** A database that holds the event, ingested at time 100 and uploaded at
    time 200. *)
Definition db_standup_pending : db :=
  snd (add_or_update_record host_utc 100 standup "Ann" "ann.txt" empty_db).

Definition db_standup_uploaded : db :=
  snd (mark_as_uploaded 200 "evt_1" "ok" db_standup_pending).

(** The world after the event was ingested. *)
Definition world_standup_pending : world :=
  {| tracker := db_standup_pending; tracker_calls := 1; sent := [] |}.

(** An answer of the remote table that accepts the batch, and one that
    refuses it. *)
Definition accepted : post_outcome :=
  Response 200 (Ok {| code := Some 0; msg := Some "success"; other_keys := true |}).

Definition refused : post_outcome :=
  Response 200 (Ok {| code := Some 1254003; msg := Some "WrongBaseToken";
                       other_keys := false |}).

(** A network that accepts every batch, and one that refuses the second
    call only. *)
Definition network_up : outside :=
  {| current_timestamp := fun n => 1000 + Z.of_nat n;
     network := fun _ _ => accepted |}.

Definition network_second_call_refused : outside :=
  {| current_timestamp := fun n => 1000 + Z.of_nat n;
     network := fun n _ => if Nat.eqb n 1 then refused else accepted |}.

(** A database of [n] pending rows, the row number [k] created at time
    [k], its identifier the character of code [k]. *)
Definition numbered_record (k : nat) : calendar_record :=
  new_record (Z.of_nat k) (Z.of_nat k) (String (ascii_of_nat k) "") "Ann" "Meeting"
             (Some 1700000000000) None "ann.txt" "hash".

Definition db_of_pending (n : nat) : db :=
  {| calendar_records := map numbered_record (seq 1 n);
     calendar_records_seq := Z.of_nat n;
     upload_logs := [];
     upload_logs_seq := 0 |}.

Definition world_of_pending (n : nat) : world :=
  {| tracker := db_of_pending n; tracker_calls := n; sent := [] |}.

(** The event after an upload that failed at time 200. *)
Definition db_standup_failed : db :=
  snd (mark_as_failed 200 "evt_1" "timeout" db_standup_pending).

Definition world_standup_failed : world :=
  {| tracker := db_standup_failed; tracker_calls := 2; sent := [] |}.

(** An event whose title is blank, and a calendar file that holds it. *)
Definition untitled : event_data :=
  {| ev_event_id := Some "evt_2";
     ev_summary := Some "   ";
     ev_status := Some "confirmed";
     ev_description := None;
     ev_start_time := Some time_with_timestamp;
     ev_end_time := None |}.

Definition file_with_untitled : calendar_file_data :=
  {| file_path := "data/personal_calendars/Ann.txt";
     file_items := Some [untitled] |}.

(** The calendar API answering with that event for one calendar. *)
Definition answer_with_untitled : calendar_answer :=
  {| ans_calendar_id := Some "cal_1";
     ans_summary := Some "Ann";
     ans_items := Some [untitled; standup];
     ans_filter_start_timestamp := 1698796800 |}.

(** A store with six rows of four persons. *)
Definition row_of (rowid : Z) (person : string) (st : status) : calendar_record :=
  {| id := rowid;
     event_id := String (ascii_of_nat (Z.to_nat rowid)) "";
     person_name := person;
     summary := "Meeting";
     start_time := Some 1700000000000;
     end_time := None;
     calendar_file := "file.txt";
     record_hash := "hash";
     upload_status := st;
     upload_time := None;
     upload_result := None;
     created_time := rowid;
     updated_time := rowid |}.

Definition db_of_four_persons : db :=
  {| calendar_records :=
       [ row_of 1 "zed" pending; row_of 2 "bob" failed; row_of 3 "amy" uploaded;
         row_of 4 "zed" uploaded; row_of 5 "bob" pending; row_of 6 "cat" pending ];
     calendar_records_seq := 6;
     upload_logs := [];
     upload_logs_seq := 0 |}.

(** A configuration whose batch size is zero. *)
Definition config_without_batches : schedule_config :=
  {| work_time := "10:00"; check_interval := 60; batch_size := 0; timeout := 30 |}.

(** A calendar file that holds the example event. *)
Definition file_with_standup : calendar_file_data :=
  {| file_path := "data/personal_calendars/Ann.txt";
     file_items := Some [standup] |}.

(** An event whose start is no number, and an answer of the calendar API
    that holds it beside the example event. *)
Definition event_starting_soon : event_data :=
  {| ev_event_id := Some "evt_6";
     ev_summary := Some "Retro";
     ev_status := Some "confirmed";
     ev_description := None;
     ev_start_time := Some (JObj [("timestamp", JStr "soon")]);
     ev_end_time := None |}.

Definition answer_with_unreadable_start : calendar_answer :=
  {| ans_calendar_id := Some "cal_1";
     ans_summary := Some "Ann";
     ans_items := Some [standup; event_starting_soon];
     ans_filter_start_timestamp := 1698796800 |}.

(** An all-day event: its start gives a date. *)
Definition all_day_event : event_data :=
  {| ev_event_id := Some "evt_7";
     ev_summary := Some "Offsite";
     ev_status := Some "confirmed";
     ev_description := None;
     ev_start_time := Some time_with_date;
     ev_end_time := Some time_with_date |}.

(** Two calendars of one name. *)
Definition first_calendar : calendar_answer :=
  {| ans_calendar_id := Some "cal_1";
     ans_summary := Some "Team/A";
     ans_items := Some [standup];
     ans_filter_start_timestamp := 1698796800 |}.

Definition second_calendar : calendar_answer :=
  {| ans_calendar_id := Some "cal_2";
     ans_summary := Some "Team:A";
     ans_items := Some [standup_renamed];
     ans_filter_start_timestamp := 1698796800 |}.

(** A calendar file with an untitled event between two others. *)
Definition file_of_three : calendar_file_data :=
  {| file_path := "personal_calendars/Ann.txt";
     file_items := Some [standup; untitled; standup_renamed] |}.

(** An answer to the request for a token, and the configuration of the
    examples. *)
Definition token_answer : json :=
  JObj [("code", JInt 0); ("access_token", JStr "u-token"); ("expires_in", JInt 7200)].

Definition sample_oauth_config : oauth_config :=
  {| client_id := "cli_example"; redirect_uri := "https://example.com/oauth2/callback" |}.

(** An answer that grants a tenant token. *)
Definition tenant_token_granted : token_response :=
  TokenResponse 200
    (Ok (JObj [("code", JInt 0); ("tenant_access_token", JStr "t-token");
               ("expire", JInt 7200)])).

(** A calendar whose events cannot be had. *)
Definition calendar_without_answer : calendar_answer :=
  {| ans_calendar_id := Some "cal_1";
     ans_summary := Some "Ann";
     ans_items := None;
     ans_filter_start_timestamp := 1698796800 |}.

(** Two calendar files that hold one event under two titles. *)
Definition files_sharing_event : list calendar_file_data :=
  [ {| file_path := "data/personal_calendars/Ann.txt"; file_items := Some [standup] |};
    {| file_path := "data/personal_calendars/Bob.txt";
       file_items := Some [standup_renamed] |} ].

(* ================================================================== *)
(** * Properties *)

(** ** Time extraction *)

Lemma try_except_none_ok {A : Type} (body : result (option A)) :
  exists v, try_except body (fun _ => Ok None) = Ok v.
Proof.
  destruct body as [v | e]; simpl; eauto.
Qed.

Lemma _extract_timestamp_ok (h : host) (time_data : json) :
  exists v, _extract_timestamp h time_data = Ok v.
Proof.
  apply try_except_none_ok.
Qed.

(** A dictionary with a ["timestamp"] entry resolves to a thousand times
    what [int] makes of it. *)
Lemma extract_timestamp_of_timestamp (h : host) (d : list (string * json))
  (value : json) (n : Z) :
  dict_lookup "timestamp" d = Some value ->
  py_int h value = Ok n ->
  _extract_timestamp h (JObj d) = Ok (Some (n * 1000))
  /\ parse_timestamp_to_ms h (JObj d) = Ok (Some (n * 1000)).
Proof.
  intros Hlookup Hint.
  unfold _extract_timestamp, parse_timestamp_to_ms, extract_timestamp_body,
    parse_timestamp_to_ms_body.
  simpl. rewrite Hlookup. simpl. rewrite Hint. simpl. split; reflexivity.
Qed.

(** A dictionary with a ["date"] entry and no ["timestamp"] entry resolves
    to the midnight that starts the day in the local time zone. *)
Lemma extract_timestamp_of_date (h : host) (d : list (string * json))
  (text : json) (dt : datetime) (seconds : Z) :
  dict_lookup "timestamp" d = None ->
  dict_lookup "date" d = Some text ->
  strptime_Ymd text = Ok dt ->
  local_timestamp h (naive_seconds dt) = Ok seconds ->
  _extract_timestamp h (JObj d) = Ok (Some (seconds * 1000))
  /\ parse_timestamp_to_ms h (JObj d) = Ok (Some (seconds * 1000)).
Proof.
  intros Hts Hdate Hparse Hlocal.
  unfold _extract_timestamp, parse_timestamp_to_ms, extract_timestamp_body,
    parse_timestamp_to_ms_body, timestamp.
  simpl. rewrite Hts. simpl. rewrite Hdate. simpl.
  rewrite Hparse. simpl. rewrite Hlocal. simpl. split; reflexivity.
Qed.

(** A dictionary with neither entry resolves to [None]. *)
Lemma extract_timestamp_of_neither (h : host) (d : list (string * json)) :
  dict_lookup "timestamp" d = None ->
  dict_lookup "date" d = None ->
  _extract_timestamp h (JObj d) = Ok None
  /\ parse_timestamp_to_ms h (JObj d) = Ok None.
Proof.
  intros Hts Hdate.
  unfold _extract_timestamp, parse_timestamp_to_ms, extract_timestamp_body,
    parse_timestamp_to_ms_body.
  simpl. rewrite Hts. simpl. rewrite Hdate. simpl. split; reflexivity.
Qed.

(** The ten digits of the example are below every limit on digits. *)
Lemma int_of_1700000000 (h : host) : py_int h (JStr "1700000000") = Ok 1700000000.
Proof.
  reflexivity.
Qed.

(** C5, the date case on the code: on a host eight hours east of UTC
    [{"date": "2024-11-07"}] resolves to 2024-11-06T16:00:00 UTC, which is
    local midnight, eight hours before the midnight UTC the specification
    names; the timestamp case and the case with neither key are as the
    specification says, on every host, and so is the date case on a host
    whose zone is UTC. *)
Theorem date_resolves_to_local_midnight :
  naive_seconds {| year := 2024; month := 11; day := 7 |} * 1000 = ms_2024_11_07_utc
  /\ _extract_timestamp host_cst time_with_date = Ok (Some 1730908800000)
  /\ parse_timestamp_to_ms host_cst time_with_date = Ok (Some 1730908800000)
  /\ 1730908800000 = ms_2024_11_07_utc - 8 * 3600 * 1000
  /\ _extract_timestamp host_utc time_with_date = Ok (Some ms_2024_11_07_utc)
  /\ parse_timestamp_to_ms host_utc time_with_date = Ok (Some ms_2024_11_07_utc)
  /\ (forall h : host,
        _extract_timestamp h time_with_timestamp = Ok (Some 1700000000000)
        /\ parse_timestamp_to_ms h time_with_timestamp = Ok (Some 1700000000000))
  /\ (forall (h : host) (d : list (string * json)),
        dict_lookup "timestamp" d = None ->
        dict_lookup "date" d = None ->
        _extract_timestamp h (JObj d) = Ok None
        /\ parse_timestamp_to_ms h (JObj d) = Ok None).
Proof.
  repeat split; try reflexivity.
  - apply (extract_timestamp_of_neither h d); assumption.
  - apply (extract_timestamp_of_neither h d); assumption.
Qed.

(** On every host the date of the example resolves to a thousand times what
    the host makes of local midnight. *)
Lemma extract_timestamp_of_example_date (h : host) (seconds : Z) :
  local_timestamp h 1730937600 = Ok seconds ->
  _extract_timestamp h time_with_date = Ok (Some (seconds * 1000)).
Proof.
  intros Hlocal.
  apply (extract_timestamp_of_date h _ (JStr "2024-11-07")
           {| year := 2024; month := 11; day := 7 |} seconds);
    try reflexivity.
  exact Hlocal.
Qed.

(** C8: time extraction is total. Whatever value it is given (a dictionary
    or not), either function returns an integer or [None] and raises
    nothing; in particular a ["timestamp"] that [int] rejects, and a
    ["date"] that [strptime] rejects, give [None]. *)
Theorem time_extraction_total : forall (h : host) (time_data : json),
  (exists v : option Z, _extract_timestamp h time_data = Ok v)
  /\ (exists v : option Z, parse_timestamp_to_ms h time_data = Ok v)
  /\ (forall (d : list (string * json)) (value : json) (e : exn),
        time_data = JObj d ->
        dict_lookup "timestamp" d = Some value ->
        py_int h value = Raise e ->
        _extract_timestamp h time_data = Ok None
        /\ parse_timestamp_to_ms h time_data = Ok None)
  /\ (forall (d : list (string * json)) (text : json) (e : exn),
        time_data = JObj d ->
        dict_lookup "timestamp" d = None ->
        dict_lookup "date" d = Some text ->
        strptime_Ymd text = Raise e ->
        _extract_timestamp h time_data = Ok None
        /\ parse_timestamp_to_ms h time_data = Ok None).
Proof.
  intros h time_data. split; [| split; [| split]].
  - apply try_except_none_ok.
  - apply try_except_none_ok.
  - intros d value e -> Hlookup Hint.
    unfold _extract_timestamp, parse_timestamp_to_ms, extract_timestamp_body,
      parse_timestamp_to_ms_body.
    simpl. rewrite Hlookup. simpl. rewrite Hint. simpl. split; reflexivity.
  - intros d text e -> Hts Hdate Hparse.
    unfold _extract_timestamp, parse_timestamp_to_ms, extract_timestamp_body,
      parse_timestamp_to_ms_body.
    simpl. rewrite Hts. simpl. rewrite Hdate. simpl. rewrite Hparse. simpl.
    split; reflexivity.
Qed.

(** Values that are no time, on an example host: a timestamp that is no
    number, a date in another form, a date that does not exist, a
    timestamp that is [null], and values that are no dictionary. *)
Example unreadable_times_resolve_to_none :
  map (_extract_timestamp host_cst)
      [ JObj [("timestamp", JStr "soon")];
        JObj [("date", JStr "07/11/2024")];
        JObj [("date", JStr "2023-02-29")];
        JObj [("timestamp", JNull); ("date", JStr "2024-11-07")];
        JStr "timestamp"; JArr [JStr "date"]; JNull; JInt 1700000000 ]
  = repeat (Ok None) 8
  /\ map (parse_timestamp_to_ms host_cst)
        [ JObj [("timestamp", JStr "soon")];
          JObj [("date", JStr "07/11/2024")];
          JObj [("date", JStr "2023-02-29")];
          JObj [("timestamp", JNull); ("date", JStr "2024-11-07")];
          JStr "timestamp"; JArr [JStr "date"]; JNull; JInt 1700000000 ]
     = repeat (Ok None) 8.
Proof.
  split; reflexivity.
Qed.

(** ** Statements on rows *)

Lemma rowcount_pos (condition : calendar_record -> bool) (rows : list calendar_record) :
  (0 <? rowcount condition rows) = existsb condition rows.
Proof.
  unfold rowcount. induction rows as [| r rows IH]; simpl.
  - reflexivity.
  - destruct (condition r); simpl.
    + apply Z.ltb_lt. lia.
    + exact IH.
Qed.

Lemma update_where_none (condition : calendar_record -> bool)
  (set : calendar_record -> calendar_record) (rows : list calendar_record) :
  existsb condition rows = false -> update_where condition set rows = rows.
Proof.
  unfold update_where. induction rows as [| r rows IH]; simpl; intros H.
  - reflexivity.
  - apply orb_false_iff in H. destruct H as [Hr Hrows].
    rewrite Hr, (IH Hrows). reflexivity.
Qed.

Lemma Forall2_update_where (condition : calendar_record -> bool)
  (set : calendar_record -> calendar_record) (rows : list calendar_record) :
  Forall2 (fun old new => new = if condition old then set old else old)
          rows (update_where condition set rows).
Proof.
  unfold update_where. induction rows as [| r rows IH]; simpl; constructor; auto.
Qed.

Lemma rows_changed_for_update (eid : string)
  (set : calendar_record -> calendar_record)
  (change : calendar_record -> calendar_record -> Prop)
  (rows : list calendar_record) :
  (forall r, change r (set r)) ->
  rows_changed_for eid change rows (update_where (has_event_id eid) set rows).
Proof.
  intros Hset. unfold rows_changed_for.
  eapply Forall2_impl; [| apply Forall2_update_where].
  intros old new ->. unfold has_event_id.
  destruct (String.eqb (event_id old) eid); auto.
Qed.

Lemma existsb_has_event_id (eid : string) (rows : list calendar_record) :
  existsb (has_event_id eid) rows = true
  <-> exists r, In r rows /\ event_id r = eid.
Proof.
  rewrite existsb_exists. unfold has_event_id.
  split; intros [r [Hin H]]; exists r; split; auto.
  - apply String.eqb_eq. exact H.
  - apply String.eqb_eq. exact H.
Qed.

Lemma find_update_where (condition : calendar_record -> bool)
  (set : calendar_record -> calendar_record) (rows : list calendar_record) :
  (forall r, condition (set r) = condition r) ->
  find condition (update_where condition set rows)
  = option_map set (find condition rows).
Proof.
  intros Hset. unfold update_where. induction rows as [| r rows IH]; simpl.
  - reflexivity.
  - destruct (condition r) eqn:Hr.
    + rewrite Hset, Hr. reflexivity.
    + rewrite Hr. exact IH.
Qed.

Lemma find_app_none (condition : calendar_record -> bool)
  (rows : list calendar_record) (r : calendar_record) :
  find condition rows = None -> condition r = true ->
  find condition (rows ++ [r]) = Some r.
Proof.
  induction rows as [| x rows IH]; simpl; intros Hnone Hr.
  - rewrite Hr. reflexivity.
  - destruct (condition x); [discriminate | auto].
Qed.

Lemma find_some_existsb (condition : calendar_record -> bool)
  (rows : list calendar_record) (r : calendar_record) :
  find condition rows = Some r -> existsb condition rows = true.
Proof.
  intros H. apply find_some in H. apply existsb_exists. exists r. exact H.
Qed.

(** ** [mark_as_uploaded] *)

Lemma set_uploaded_marked (now : Z) (text : string) (r : calendar_record) :
  marked uploaded now text r (set_uploaded now text r).
Proof.
  unfold marked, same_identity, same_content. simpl. tauto.
Qed.

Lemma set_failed_marked (now : Z) (text : string) (r : calendar_record) :
  marked failed now text r (set_failed now text r).
Proof.
  unfold marked, same_identity, same_content. simpl. tauto.
Qed.

Lemma mark_as_uploaded_rows (now : Z) (eid text : string) (d : db) :
  calendar_records (snd (mark_as_uploaded now eid text d))
  = update_where (has_event_id eid) (set_uploaded now text) (calendar_records d).
Proof.
  unfold mark_as_uploaded. rewrite rowcount_pos.
  destruct (existsb (has_event_id eid) (calendar_records d)) eqn:H; simpl.
  - reflexivity.
  - symmetry. apply update_where_none. exact H.
Qed.

(** C9: [mark_as_uploaded] asks nothing of the status a row has. It returns
    [True] exactly when a row with the [event_id] exists; every such row,
    whatever its status was ([uploaded] included), then has the status
    [uploaded], the time of the call as [upload_time] and [updated_time] and
    the text given as [upload_result], its other columns kept; every other
    row and the log table are as before. When it returns [False] the
    database is unchanged. *)
Theorem mark_as_uploaded_no_precondition :
  forall (now : Z) (eid text : string) (d : db),
    let out := mark_as_uploaded now eid text d in
    (fst out = true <-> exists r, In r (calendar_records d) /\ event_id r = eid)
    /\ (fst out = false -> snd out = d)
    /\ rows_changed_for eid (marked uploaded now text)
         (calendar_records d) (calendar_records (snd out))
    /\ upload_logs (snd out) = upload_logs d.
Proof.
  intros now eid text d out. subst out.
  split; [| split; [| split]].
  - rewrite <- existsb_has_event_id. unfold mark_as_uploaded.
    rewrite rowcount_pos.
    destruct (existsb (has_event_id eid) (calendar_records d)); simpl;
      split; congruence.
  - unfold mark_as_uploaded.
    destruct (0 <? rowcount (has_event_id eid) (calendar_records d)); simpl;
      [discriminate | reflexivity].
  - rewrite mark_as_uploaded_rows.
    apply rows_changed_for_update. intros r. apply set_uploaded_marked.
  - unfold mark_as_uploaded.
    destruct (0 <? rowcount (has_event_id eid) (calendar_records d)); reflexivity.
Qed.

(** ** [add_or_update_record] *)

Lemma resolved_start_ok (h : host) (event : event_data) :
  exists v, resolved_start h event = Ok v.
Proof.
  apply _extract_timestamp_ok.
Qed.

Lemma resolved_end_ok (h : host) (event : event_data) :
  exists v, resolved_end h event = Ok v.
Proof.
  apply _extract_timestamp_ok.
Qed.

(** The call on an event with an identifier: the three outcomes. *)
Lemma add_or_update_record_with_id (h : host) (now : Z) (event : event_data)
  (person file : string) (d : db) (eid : string) (new_start new_end : option Z) :
  ev_event_id event = Some eid ->
  str_truthy eid = true ->
  resolved_start h event = Ok new_start ->
  resolved_end h event = Ok new_end ->
  add_or_update_record h now event person file d =
  match find (has_event_id eid) (calendar_records d) with
  | Some existing_record =>
      if String.eqb (record_hash existing_record) (_generate_record_hash h event)
      then (false, d)
      else (true,
            set_calendar_records d
              (update_where (has_event_id eid)
                 (set_changed now (get_default (ev_summary event) "")
                    new_start new_end file (_generate_record_hash h event))
                 (calendar_records d)))
  | None =>
      (true,
       {| calendar_records :=
            calendar_records d
            ++ [new_record now (calendar_records_seq d + 1) eid person
                  (get_default (ev_summary event) "")
                  new_start new_end file (_generate_record_hash h event)];
          calendar_records_seq := calendar_records_seq d + 1;
          upload_logs := upload_logs d;
          upload_logs_seq := upload_logs_seq d |})
  end.
Proof.
  intros Hid Htruthy Hstart Hend.
  unfold add_or_update_record, add_or_update_record_body.
  unfold resolved_start in Hstart. unfold resolved_end in Hend.
  rewrite Hid, Htruthy. simpl. rewrite Hstart. simpl. rewrite Hend. simpl.
  destruct (find (has_event_id eid) (calendar_records d)) as [existing |];
    [| reflexivity].
  destruct (String.eqb (record_hash existing) (_generate_record_hash h event));
    reflexivity.
Qed.

(** The call on an event without an identifier. *)
Lemma add_or_update_record_without_id (h : host) (now : Z) (event : event_data)
  (person file : string) (d : db) :
  ev_event_id event = None \/ ev_event_id event = Some "" ->
  add_or_update_record h now event person file d = (false, d).
Proof.
  intros [Hid | Hid]; unfold add_or_update_record, add_or_update_record_body;
    rewrite Hid; reflexivity.
Qed.

(** The call on an event the store holds with the same fingerprint. *)
Lemma add_or_update_record_unchanged (h : host) (now : Z) (event : event_data)
  (person file : string) (d : db) (eid : string) (existing : calendar_record) :
  ev_event_id event = Some eid ->
  str_truthy eid = true ->
  find (has_event_id eid) (calendar_records d) = Some existing ->
  record_hash existing = _generate_record_hash h event ->
  add_or_update_record h now event person file d = (false, d).
Proof.
  intros Hid Htruthy Hfind Hhash.
  destruct (resolved_start_ok h event) as [new_start Hstart].
  destruct (resolved_end_ok h event) as [new_end Hend].
  rewrite (add_or_update_record_with_id h now event person file d eid
             new_start new_end Hid Htruthy Hstart Hend).
  rewrite Hfind, Hhash, String.eqb_refl. reflexivity.
Qed.

Lemma has_event_id_set_changed (eid : string) (now : Z) (new_summary : string)
  (new_start new_end : option Z) (new_file new_hash : string) (r : calendar_record) :
  has_event_id eid (set_changed now new_summary new_start new_end new_file new_hash r)
  = has_event_id eid r.
Proof.
  reflexivity.
Qed.

Lemma set_changed_overwritten (now : Z) (new_summary : string)
  (new_start new_end : option Z) (new_file new_hash : string) (r : calendar_record) :
  overwritten now new_summary new_start new_end new_file new_hash r
    (set_changed now new_summary new_start new_end new_file new_hash r).
Proof.
  unfold overwritten, same_identity. simpl. tauto.
Qed.

(** After a call, the store holds the event with its fingerprint, unless
    the event has no identifier. *)
Lemma add_or_update_record_stores_hash (h : host) (now : Z) (event : event_data)
  (person file : string) (d : db) (eid : string) :
  ev_event_id event = Some eid ->
  str_truthy eid = true ->
  exists r,
    find (has_event_id eid)
         (calendar_records (snd (add_or_update_record h now event person file d)))
    = Some r
    /\ record_hash r = _generate_record_hash h event.
Proof.
  intros Hid Htruthy.
  destruct (resolved_start_ok h event) as [new_start Hstart].
  destruct (resolved_end_ok h event) as [new_end Hend].
  rewrite (add_or_update_record_with_id h now event person file d eid
             new_start new_end Hid Htruthy Hstart Hend).
  destruct (find (has_event_id eid) (calendar_records d)) as [existing |] eqn:Hfind.
  - destruct (String.eqb (record_hash existing) (_generate_record_hash h event))
      eqn:Hhash; simpl.
    + exists existing. split; [exact Hfind | apply String.eqb_eq; exact Hhash].
    + rewrite find_update_where by (intros; apply has_event_id_set_changed).
      rewrite Hfind. simpl. eexists. split; reflexivity.
  - simpl. eexists. split.
    + apply find_app_none; [exact Hfind |].
      unfold has_event_id. simpl. apply String.eqb_refl.
    + reflexivity.
Qed.

(** C10: an event whose [event_id] is missing or empty is turned down:
    the call returns [False] and both tables are as they were. [False] is
    also what the call returns for an event the store holds unchanged, so
    the value does not tell the two apart. *)
Theorem missing_event_id_is_rejected :
  forall (h : host) (now : Z) (event : event_data) (person file : string) (d : db),
    (ev_event_id event = None \/ ev_event_id event = Some "" ->
     add_or_update_record h now event person file d = (false, d))
    /\ (forall (eid : string) (existing : calendar_record),
          ev_event_id event = Some eid ->
          str_truthy eid = true ->
          find (has_event_id eid) (calendar_records d) = Some existing ->
          record_hash existing = _generate_record_hash h event ->
          add_or_update_record h now event person file d = (false, d)).
Proof.
  intros h now event person file d. split.
  - apply add_or_update_record_without_id.
  - intros eid existing. apply add_or_update_record_unchanged.
Qed.

(** Both cases of C10 occur: the event without an identifier and the event
    already stored both get [False] and leave the database alone. *)
Example rejected_and_unchanged_look_alike :
  add_or_update_record host_utc 300 standup_without_id "Ann" "ann.txt" db_standup_uploaded
  = (false, db_standup_uploaded)
  /\ add_or_update_record host_utc 300 standup "Ann" "ann.txt" db_standup_uploaded
     = (false, db_standup_uploaded)
  /\ List.length (calendar_records db_standup_uploaded) = 1%nat.
Proof.
  repeat split; reflexivity.
Qed.

(** C3: ingestion is idempotent. Whatever a first call with an event did,
    a second call with the same event (at any later time, under any person
    and file name) returns [False] and leaves the database, hence every
    column of every row, as the first call left it; and a call with an
    event the store already holds under the same fingerprint returns
    [False] and changes nothing. *)
Theorem add_or_update_record_idempotent :
  forall (h : host) (now now' : Z) (event : event_data)
         (person file person' file' : string) (d : db),
    (let d1 := snd (add_or_update_record h now event person file d) in
     add_or_update_record h now' event person' file' d1 = (false, d1))
    /\ (forall (eid : string) (existing : calendar_record),
          ev_event_id event = Some eid ->
          str_truthy eid = true ->
          find (has_event_id eid) (calendar_records d) = Some existing ->
          record_hash existing = _generate_record_hash h event ->
          add_or_update_record h now event person file d = (false, d)).
Proof.
  intros h now now' event person file person' file' d. split.
  - cbv zeta.
    destruct (ev_event_id event) as [eid |] eqn:Hid.
    + destruct (str_truthy eid) eqn:Htruthy.
      * destruct (add_or_update_record_stores_hash h now event person file d eid
                    Hid Htruthy) as [r [Hfind Hhash]].
        apply (add_or_update_record_unchanged h now' event person' file' _ eid r);
          assumption.
      * assert (Hempty : eid = "") by (destruct eid; [reflexivity | discriminate]).
        subst eid.
        rewrite !add_or_update_record_without_id by (right; exact Hid).
        reflexivity.
    + rewrite !add_or_update_record_without_id by (left; exact Hid).
      reflexivity.
  - intros eid existing. apply add_or_update_record_unchanged.
Qed.

(** C2: change detection. For an event whose identifier the store holds in
    a row with the status [uploaded]: when the fingerprint of the event is
    not the one stored, the call returns [True], every row of the event
    takes the title, the resolved start and end, the file name and the
    fingerprint of the event, goes back to [pending] and loses its
    [upload_time] and [upload_result], and every other row stays as it was;
    when the fingerprint is the one stored, the call returns [False] and
    the database, the status [uploaded] with it, stays as it was. *)
Theorem changed_event_resets_uploaded_record :
  forall (h : host) (now : Z) (event : event_data) (person file : string) (d : db)
         (eid : string) (existing : calendar_record),
    ev_event_id event = Some eid ->
    str_truthy eid = true ->
    find (has_event_id eid) (calendar_records d) = Some existing ->
    upload_status existing = uploaded ->
    let out := add_or_update_record h now event person file d in
    (record_hash existing <> _generate_record_hash h event ->
     fst out = true
     /\ (exists (new_start new_end : option Z) (updated : calendar_record),
           resolved_start h event = Ok new_start
           /\ resolved_end h event = Ok new_end
           /\ rows_changed_for eid
                (overwritten now (get_default (ev_summary event) "")
                   new_start new_end file (_generate_record_hash h event))
                (calendar_records d) (calendar_records (snd out))
           /\ find (has_event_id eid) (calendar_records (snd out)) = Some updated
           /\ upload_status updated = pending
           /\ upload_time updated = None
           /\ upload_result updated = None)
     /\ upload_logs (snd out) = upload_logs d)
    /\ (record_hash existing = _generate_record_hash h event ->
        out = (false, d)
        /\ find (has_event_id eid) (calendar_records (snd out)) = Some existing).
Proof.
  intros h now event person file d eid existing Hid Htruthy Hfind Hstatus out.
  subst out. split.
  - intros Hdiffers.
    destruct (resolved_start_ok h event) as [new_start Hstart].
    destruct (resolved_end_ok h event) as [new_end Hend].
    rewrite (add_or_update_record_with_id h now event person file d eid
               new_start new_end Hid Htruthy Hstart Hend).
    rewrite Hfind.
    apply String.eqb_neq in Hdiffers. rewrite Hdiffers. simpl.
    split; [reflexivity | split; [| reflexivity]].
    exists new_start, new_end,
      (set_changed now (get_default (ev_summary event) "") new_start new_end file
         (_generate_record_hash h event) existing).
    split; [exact Hstart | split; [exact Hend | split; [| split]]].
    + apply rows_changed_for_update. intros r. apply set_changed_overwritten.
    + rewrite find_update_where by (intros; apply has_event_id_set_changed).
      rewrite Hfind. reflexivity.
    + simpl. tauto.
  - intros Hsame.
    rewrite (add_or_update_record_unchanged h now event person file d eid existing
               Hid Htruthy Hfind Hsame).
    split; [reflexivity | exact Hfind].
Qed.

(** The change of a title on the example: the stored event was uploaded;
    ingested again under another title it is back to [pending]. *)
Lemma changed_event_resets_uploaded_record_witness :
  fst (add_or_update_record host_utc 300 standup_renamed "Ann" "ann.txt"
         db_standup_uploaded) = true
  /\ map upload_status (calendar_records db_standup_uploaded) = [uploaded]
  /\ map upload_status
       (calendar_records
          (snd (add_or_update_record host_utc 300 standup_renamed "Ann" "ann.txt"
                  db_standup_uploaded))) = [pending].
Proof.
  split; [| split; reflexivity].
  refine (proj1 (proj1
    (changed_event_resets_uploaded_record host_utc 300 standup_renamed "Ann"
       "ann.txt" db_standup_uploaded "evt_1"
       (set_uploaded 200 "ok"
          (new_record 100 1 "evt_1" "Ann" "Standup"
             (Some 1700000000000) (Some 1700000000000) "ann.txt"
             (_generate_record_hash host_utc standup)))
       eq_refl eq_refl eq_refl eq_refl) _)).
  discriminate.
Defined.

(** ** [get_pending_records] *)

Lemma insert_by_created_time_perm (r : calendar_record) (rows : list calendar_record) :
  Permutation (insert_by_created_time r rows) (r :: rows).
Proof.
  induction rows as [| x rows IH]; simpl.
  - apply Permutation_refl.
  - destruct (created_time r <=? created_time x).
    + apply Permutation_refl.
    + eapply Permutation_trans; [apply perm_skip; exact IH | apply perm_swap].
Qed.

Lemma order_by_created_time_perm (rows : list calendar_record) :
  Permutation (order_by_created_time rows) rows.
Proof.
  unfold order_by_created_time. induction rows as [| r rows IH]; simpl.
  - apply Permutation_refl.
  - eapply Permutation_trans; [apply insert_by_created_time_perm |].
    apply perm_skip. exact IH.
Qed.

Lemma insert_by_created_time_sorted (r : calendar_record) (rows : list calendar_record) :
  StronglySorted by_created_time rows ->
  StronglySorted by_created_time (insert_by_created_time r rows).
Proof.
  induction rows as [| x rows IH]; simpl; intros Hsorted.
  - constructor; constructor.
  - destruct (created_time r <=? created_time x) eqn:Hle.
    + apply Z.leb_le in Hle. constructor; [exact Hsorted |].
      inversion Hsorted as [| ? ? Hrest Hall]; subst.
      constructor; [exact Hle |].
      eapply Forall_impl; [| exact Hall].
      unfold by_created_time. intros; lia.
    + apply Z.leb_gt in Hle.
      inversion Hsorted as [| ? ? Hrest Hall]; subst.
      constructor; [apply IH; exact Hrest |].
      eapply Permutation_Forall;
        [apply Permutation_sym; apply insert_by_created_time_perm |].
      constructor; [unfold by_created_time; lia | exact Hall].
Qed.

Lemma order_by_created_time_sorted (rows : list calendar_record) :
  StronglySorted by_created_time (order_by_created_time rows).
Proof.
  unfold order_by_created_time. induction rows as [| r rows IH]; simpl.
  - constructor.
  - apply insert_by_created_time_sorted. exact IH.
Qed.

Lemma status_eqb_eq (a b : status) : status_eqb a b = true <-> a = b.
Proof.
  destruct a, b; simpl; split; intros H; try reflexivity; discriminate.
Qed.

Lemma is_pending_iff (r : calendar_record) :
  is_pending r = true <-> upload_status r = pending.
Proof.
  apply status_eqb_eq.
Qed.

Lemma is_failed_iff (r : calendar_record) :
  is_failed r = true <-> upload_status r = failed.
Proof.
  apply status_eqb_eq.
Qed.

(** The selection without filter and limit. *)
Lemma get_pending_records_all (d : db) :
  get_pending_records None None d
  = order_by_created_time (filter is_pending (calendar_records d)).
Proof.
  reflexivity.
Qed.

Lemma get_pending_records_all_perm (d : db) :
  Permutation (get_pending_records None None d)
              (filter is_pending (calendar_records d)).
Proof.
  rewrite get_pending_records_all. apply order_by_created_time_perm.
Qed.

Lemma in_get_pending_records_all (d : db) (r : calendar_record) :
  In r (get_pending_records None None d)
  <-> In r (calendar_records d) /\ upload_status r = pending.
Proof.
  rewrite <- is_pending_iff, <- filter_In.
  split; apply Permutation_in;
    [| apply Permutation_sym]; apply get_pending_records_all_perm.
Qed.

(** ** Batches *)

Lemma chunks_upto_concat {A : Type} (size : nat) (fuel : nat) (items : list A) :
  (0 < size)%nat -> (List.length items <= fuel)%nat ->
  List.concat (chunks_upto fuel size items) = items.
Proof.
  intros Hsize. revert items.
  induction fuel as [| fuel IH]; intros items Hfuel; simpl.
  - destruct items; [reflexivity | simpl in Hfuel; lia].
  - destruct items as [| x items]; [reflexivity |].
    simpl List.concat. rewrite IH.
    + apply firstn_skipn.
    + rewrite length_skipn.
      change (List.length (x :: items)) with (S (List.length items)) in *. lia.
Qed.

Lemma chunks_upto_bounds {A : Type} (size : nat) (fuel : nat) (items : list A) :
  (0 < size)%nat ->
  Forall (fun batch => batch <> [] /\ (List.length batch <= size)%nat)
         (chunks_upto fuel size items).
Proof.
  intros Hsize. revert items.
  induction fuel as [| fuel IH]; intros items; simpl.
  - constructor.
  - destruct items as [| x items]; [constructor |].
    constructor; [| apply IH].
    split.
    + destruct size; [lia | discriminate].
    + rewrite length_firstn. lia.
Qed.

(** Every batch that has a successor is full. *)
Lemma chunks_upto_full {A : Type} (size : nat) (fuel : nat) (items : list A)
  (k : nat) (batch : list A) :
  nth_error (chunks_upto fuel size items) k = Some batch ->
  (S k < List.length (chunks_upto fuel size items))%nat ->
  List.length batch = size.
Proof.
  revert items k.
  induction fuel as [| fuel IH]; intros items k; simpl.
  - destruct k; discriminate.
  - destruct items as [| x items]; [destruct k; discriminate |].
    destruct k as [| k]; simpl.
    + intros [= <-] Hmore.
      destruct fuel as [| fuel']; simpl in Hmore; [lia |].
      destruct (skipn size (x :: items)) as [| y rest] eqn:Hskip;
        [simpl in Hmore; lia |].
      rewrite length_firstn.
      assert (Hlen : List.length (skipn size (x :: items)) = S (List.length rest))
        by (rewrite Hskip; reflexivity).
      rewrite length_skipn in Hlen. lia.
    + intros Hnth Hmore. apply (IH (skipn size (x :: items)) k); [exact Hnth | lia].
Qed.

(** The number of batches: the length divided by the size, rounded up. *)
Lemma chunks_upto_length {A : Type} (size : nat) (fuel : nat) (items : list A) :
  (0 < size)%nat -> (List.length items <= fuel)%nat ->
  List.length (chunks_upto fuel size items)
  = ((List.length items + size - 1) / size)%nat.
Proof.
  intros Hsize. revert items.
  induction fuel as [| fuel IH]; intros items Hfuel; simpl.
  - destruct items; [| simpl in Hfuel; lia]. simpl.
    symmetry. apply Nat.div_small. lia.
  - destruct items as [| x items].
    + simpl. symmetry. apply Nat.div_small. lia.
    + change (List.length (x :: items)) with (S (List.length items)) in Hfuel.
      simpl List.length at 1.
      rewrite IH
        by (rewrite length_skipn;
            change (List.length (x :: items)) with (S (List.length items)); lia).
      rewrite length_skipn.
      remember (List.length (x :: items)) as n eqn:Hn.
      assert (Hpos : (0 < n)%nat) by (subst n; simpl; lia).
      destruct (Nat.le_gt_cases n size) as [Hle | Hgt].
      * replace (n - size)%nat with 0%nat by lia.
        rewrite (Nat.div_small (0 + size - 1)) by lia.
        replace (n + size - 1)%nat with (1 * size + (n - 1))%nat by lia.
        rewrite Nat.div_add_l by lia.
        rewrite (Nat.div_small (n - 1)) by lia. reflexivity.
      * replace (n + size - 1)%nat with (1 * size + (n - size + size - 1))%nat by lia.
        rewrite Nat.div_add_l by lia. lia.
Qed.

(** The loop [for i in range(0, len(items), size): items[i:i + size]]
    visits the batches of [chunks]. *)
Lemma range_up_slices {A : Type} (items : list A) (size : Z) (fuel : nat) (i : Z) :
  0 < size -> 0 <= i ->
  map (fun start => slice items start (start + size))
      (range_up fuel i (Z.of_nat (List.length items)) size)
  = chunks_upto fuel (Z.to_nat size) (skipn (Z.to_nat i) items).
Proof.
  intros Hsize. revert i.
  induction fuel as [| fuel IH]; intros i Hi; simpl.
  - reflexivity.
  - destruct (i <? Z.of_nat (List.length items)) eqn:Hlt.
    + apply Z.ltb_lt in Hlt.
      destruct (skipn (Z.to_nat i) items) as [| x rest] eqn:Hskip.
      * exfalso.
        assert (Hlen : List.length (skipn (Z.to_nat i) items) = 0%nat)
          by (rewrite Hskip; reflexivity).
        rewrite length_skipn in Hlen. lia.
      * simpl map. rewrite IH by lia.
        unfold slice. rewrite Hskip.
        replace (i + size - i) with size by lia.
        f_equal.
        replace (Z.to_nat (i + size)) with (Z.to_nat size + Z.to_nat i)%nat by lia.
        rewrite <- skipn_skipn. rewrite Hskip. reflexivity.
    + apply Z.ltb_ge in Hlt.
      rewrite skipn_all2 by lia. reflexivity.
Qed.

Lemma py_range_batches {A : Type} (items : list A) (size : Z) :
  0 < size ->
  exists starts,
    py_range 0 (Z.of_nat (List.length items)) size = Ok starts
    /\ map (fun start => slice items start (start + size)) starts
       = chunks (Z.to_nat size) items.
Proof.
  intros Hsize. unfold py_range.
  replace (size =? 0) with false by (symmetry; apply Z.eqb_neq; lia).
  replace (0 <? size) with true by (symmetry; apply Z.ltb_lt; lia).
  eexists. split; [reflexivity |].
  rewrite range_up_slices by lia.
  unfold chunks. rewrite Z.sub_0_r, Nat2Z.id. reflexivity.
Qed.

(** ** Marking the records of a batch *)

Lemma set_calendar_records_same (d : db) :
  set_calendar_records d (calendar_records d) = d.
Proof.
  destruct d. reflexivity.
Qed.

Lemma in_update_where_other (condition : calendar_record -> bool)
  (set : calendar_record -> calendar_record) (rows : list calendar_record)
  (r : calendar_record) :
  In r rows -> condition r = false -> In r (update_where condition set rows).
Proof.
  intros Hin Hr. unfold update_where.
  apply in_map_iff. exists r. rewrite Hr. split; [reflexivity | exact Hin].
Qed.

Lemma in_update_where_hit (condition : calendar_record -> bool)
  (set : calendar_record -> calendar_record) (rows : list calendar_record)
  (r : calendar_record) :
  In r rows -> condition r = true -> In (set r) (update_where condition set rows).
Proof.
  intros Hin Hr. unfold update_where.
  apply in_map_iff. exists r. rewrite Hr. split; [reflexivity | exact Hin].
Qed.

Lemma map_event_id_update_where (condition : calendar_record -> bool)
  (set : calendar_record -> calendar_record) (rows : list calendar_record) :
  (forall r, event_id (set r) = event_id r) ->
  map event_id (update_where condition set rows) = map event_id rows.
Proof.
  intros Hset. unfold update_where. rewrite map_map.
  apply map_ext. intros r. destruct (condition r); [apply Hset | reflexivity].
Qed.

Lemma event_id_set_by_result (result : option api_result) (now : Z)
  (r : calendar_record) :
  event_id (set_by_result result now r) = event_id r.
Proof.
  unfold set_by_result. destruct (upload_succeeded result); reflexivity.
Qed.

Lemma set_by_result_marked (result : option api_result) (now : Z)
  (r : calendar_record) :
  marked_by_result result now r (set_by_result result now r).
Proof.
  unfold marked_by_result, set_by_result.
  destruct (upload_succeeded result);
    [apply set_uploaded_marked | apply set_failed_marked].
Qed.

Section MarkRows.

Variable o : outside.
Variable set : Z -> calendar_record -> calendar_record.
Hypothesis set_keeps_event_id : forall now r, event_id (set now r) = event_id r.

Lemma mark_rows_event_ids (event_ids : list string) :
  forall (calls : nat) (rows : list calendar_record),
    map event_id (mark_rows o set calls event_ids rows) = map event_id rows.
Proof.
  induction event_ids as [| eid rest IH]; intros calls rows; simpl.
  - reflexivity.
  - rewrite IH. apply map_event_id_update_where. intros r.
    apply set_keeps_event_id.
Qed.

Lemma mark_rows_other (event_ids : list string) :
  forall (calls : nat) (rows : list calendar_record) (r : calendar_record),
    In r rows -> ~ In (event_id r) event_ids ->
    In r (mark_rows o set calls event_ids rows).
Proof.
  induction event_ids as [| eid rest IH]; intros calls rows r Hin Hnot; simpl.
  - exact Hin.
  - apply IH.
    + apply in_update_where_other; [exact Hin |].
      unfold has_event_id. apply String.eqb_neq.
      intros Heq. apply Hnot. left. symmetry. exact Heq.
    + intros Hrest. apply Hnot. right. exact Hrest.
Qed.

Lemma mark_rows_hit (event_ids : list string) :
  forall (calls : nat) (rows : list calendar_record) (r : calendar_record)
         (i : nat),
    NoDup event_ids ->
    In r rows -> nth_error event_ids i = Some (event_id r) ->
    In (set (current_timestamp o (calls + i)) r)
       (mark_rows o set calls event_ids rows).
Proof.
  induction event_ids as [| eid rest IH]; intros calls rows r i Hnodup Hin Hnth.
  - destruct i; discriminate.
  - inversion Hnodup as [| ? ? Hfresh Hrest]; subst. simpl.
    destruct i as [| i]; simpl in Hnth.
    + injection Hnth as ->. rewrite Nat.add_0_r.
      apply mark_rows_other.
      * apply in_update_where_hit; [exact Hin |].
        unfold has_event_id. apply String.eqb_refl.
      * rewrite set_keeps_event_id. exact Hfresh.
    + replace (calls + S i)%nat with (S calls + i)%nat by lia.
      apply IH; [exact Hrest | | exact Hnth].
      apply in_update_where_other; [exact Hin |].
      unfold has_event_id. apply String.eqb_neq.
      intros Heq. apply Hfresh. rewrite <- Heq.
      eapply nth_error_In. exact Hnth.
Qed.

End MarkRows.

Lemma mark_as_uploaded_db (now : Z) (eid text : string) (d : db) :
  snd (mark_as_uploaded now eid text d)
  = set_calendar_records d
      (update_where (has_event_id eid) (set_uploaded now text) (calendar_records d)).
Proof.
  unfold mark_as_uploaded. rewrite rowcount_pos.
  destruct (existsb (has_event_id eid) (calendar_records d)) eqn:H; simpl.
  - reflexivity.
  - rewrite update_where_none by exact H.
    symmetry. apply set_calendar_records_same.
Qed.

(** The loop over the event identifiers of a batch: one tracker call each,
    nothing sent, the log table untouched. *)
Lemma mark_each_spec (o : outside)
  (mark : Z -> string -> string -> db -> bool * db)
  (set : Z -> calendar_record -> calendar_record) (text : string) :
  (forall now eid d,
      snd (mark now eid text d)
      = set_calendar_records d
          (update_where (has_event_id eid) (set now) (calendar_records d))) ->
  forall (event_ids : list string) (w : world),
    let w' := mark_each o mark event_ids text w in
    sent w' = sent w
    /\ tracker_calls w' = (tracker_calls w + List.length event_ids)%nat
    /\ upload_logs (tracker w') = upload_logs (tracker w)
    /\ calendar_records (tracker w')
       = mark_rows o set (tracker_calls w) event_ids (calendar_records (tracker w)).
Proof.
  intros Hmark event_ids. unfold mark_each.
  induction event_ids as [| eid rest IH]; intros w; simpl.
  - repeat split; lia.
  - specialize (IH (snd (tracker_call o (fun now => mark now eid text) w))).
    cbv zeta in IH.
    destruct IH as [Hsent [Hcalls [Hlogs Hrows]]].
    rewrite Hsent, Hcalls, Hlogs, Hrows.
    unfold tracker_call.
    destruct (mark (current_timestamp o (tracker_calls w)) eid text (tracker w))
      as [ok d'] eqn:Hcall.
    assert (Hd' : d' = snd (mark (current_timestamp o (tracker_calls w)) eid text
                              (tracker w))) by (rewrite Hcall; reflexivity).
    rewrite Hmark in Hd'. subst d'. simpl.
    repeat split; lia.
Qed.

(** ** The loop over the batches *)

(** One batch: one call of the uploader with the records of the batch, then
    one tracker call per record, all with the outcome of that call. *)
Lemma upload_one_batch_spec (o : outside) (batch : list calendar_record)
  (w : world) (n : counts) :
  let w' := fst (upload_one_batch o batch (w, n)) in
  let result := batch_result o (List.length (sent w)) batch in
  sent w' = sent w ++ [map to_upload_record batch]
  /\ tracker_calls w' = (tracker_calls w + List.length batch)%nat
  /\ upload_logs (tracker w') = upload_logs (tracker w)
  /\ calendar_records (tracker w')
     = mark_rows o (set_by_result result) (tracker_calls w) (map event_id batch)
         (calendar_records (tracker w)).
Proof.
  cbv zeta. unfold upload_one_batch, uploader_call, batch_result, set_by_result.
  destruct (upload_succeeded
              (batch_upload_records
                 (network o (List.length (sent w)) (map to_upload_record batch))
                 (map to_upload_record batch))) eqn:Hok.
  - cbn [fst].
    destruct (mark_each_spec o mark_as_uploaded
                (fun now => set_uploaded now success_text) success_text
                (fun now eid d => mark_as_uploaded_db now eid success_text d)
                (map event_id batch)
                {| tracker := tracker w; tracker_calls := tracker_calls w;
                   sent := sent w ++ [map to_upload_record batch] |})
      as [Hsent [Hcalls [Hlogs Hrows]]].
    rewrite Hsent, Hcalls, Hlogs, Hrows. rewrite length_map.
    repeat split.
  - cbn [fst].
    destruct (mark_each_spec o mark_as_failed
                (fun now =>
                   set_failed now
                     ("FAILED: " ++
                      extracted_error_msg
                        (batch_upload_records
                           (network o (List.length (sent w))
                              (map to_upload_record batch))
                           (map to_upload_record batch)))%string)
                (extracted_error_msg
                   (batch_upload_records
                      (network o (List.length (sent w))
                         (map to_upload_record batch))
                      (map to_upload_record batch)))
                (fun now eid d => eq_refl)
                (map event_id batch)
                {| tracker := tracker w; tracker_calls := tracker_calls w;
                   sent := sent w ++ [map to_upload_record batch] |})
      as [Hsent [Hcalls [Hlogs Hrows]]].
    rewrite Hsent, Hcalls, Hlogs, Hrows. rewrite length_map.
    repeat split.
Qed.

Lemma NoDup_app_parts {A : Type} (l1 l2 : list A) :
  NoDup (l1 ++ l2) ->
  NoDup l1 /\ NoDup l2 /\ (forall x, In x l1 -> ~ In x l2).
Proof.
  induction l1 as [| a l1 IH]; simpl; intros H.
  - split; [constructor | split; [exact H | intros x []]].
  - inversion H as [| ? ? Hfresh Hrest]; subst.
    destruct (IH Hrest) as [H1 [H2 H12]].
    split; [| split].
    + constructor; [| exact H1].
      intros Hin. apply Hfresh. apply in_or_app. left. exact Hin.
    + exact H2.
    + intros x [-> | Hin]; [| apply H12; exact Hin].
      intros Hin2. apply Hfresh. apply in_or_app. right. exact Hin2.
Qed.

Lemma NoDup_app_parts_inv {A : Type} (l1 l2 : list A) :
  NoDup l1 -> NoDup l2 -> (forall x, In x l1 -> ~ In x l2) -> NoDup (l1 ++ l2).
Proof.
  induction l1 as [| a l1 IH]; simpl; intros H1 H2 H12; [exact H2 |].
  inversion H1 as [| ? ? Hfresh Hrest]; subst.
  constructor.
  - intros Hin. apply in_app_or in Hin. destruct Hin as [Hin | Hin].
    + exact (Hfresh Hin).
    + exact (H12 a (or_introl eq_refl) Hin).
  - apply IH; [exact Hrest | exact H2 |].
    intros x Hx. apply H12. right. exact Hx.
Qed.

Lemma in_nth_error_map_event_id (batch : list calendar_record) (r : calendar_record) :
  In r batch -> exists i, nth_error (map event_id batch) i = Some (event_id r).
Proof.
  intros Hin. apply In_nth_error. apply in_map. exact Hin.
Qed.

(** The batches in turn, started in the world [w]:
    - the uploader is called once per batch, in order, with its records;
    - the log table is untouched and no row appears or disappears;
    - a row of no batch is as it was;
    - a row of batch number [k] is as the outcome of call number [k]
      marks it, at the time of some tracker call. *)
Lemma upload_batches_spec (o : outside) (batches : list (list calendar_record)) :
  forall (w : world) (n : counts),
    NoDup (map event_id (List.concat batches)) ->
    let w' := fst (fold_left (fun state batch => upload_one_batch o batch state)
                             batches (w, n)) in
    sent w' = sent w ++ map (map to_upload_record) batches
    /\ upload_logs (tracker w') = upload_logs (tracker w)
    /\ map event_id (calendar_records (tracker w'))
       = map event_id (calendar_records (tracker w))
    /\ (forall r, In r (calendar_records (tracker w)) ->
                  ~ In (event_id r) (map event_id (List.concat batches)) ->
                  In r (calendar_records (tracker w')))
    /\ (forall k batch r,
           nth_error batches k = Some batch -> In r batch ->
           In r (calendar_records (tracker w)) ->
           exists now,
             In (set_by_result (batch_result o (List.length (sent w) + k) batch) now r)
                (calendar_records (tracker w'))).
Proof.
  induction batches as [| batch batches IH]; intros w n Hnodup; cbv zeta.
  - simpl. rewrite app_nil_r. repeat split; auto.
    intros k batch r Hnth. destruct k; discriminate.
  - cbn [fold_left]. cbv beta.
    destruct (upload_one_batch o batch (w, n)) as [w1 n1] eqn:Hstep.
    pose proof (upload_one_batch_spec o batch w n) as Hone.
    cbv zeta in Hone. rewrite Hstep in Hone. cbn [fst] in Hone.
    destruct Hone as [Hsent1 [_ [Hlogs1 Hrows1]]].
    simpl List.concat in Hnodup. rewrite map_app in Hnodup.
    apply NoDup_app_parts in Hnodup. destruct Hnodup as [Hnd1 [Hnd2 Hdisjoint]].
    specialize (IH w1 n1 Hnd2). cbv zeta in IH.
    destruct IH as [Hsent [Hlogs [Hids [Hother Hhit]]]].
    split; [| split; [| split; [| split]]].
    + rewrite Hsent, Hsent1. simpl. rewrite <- app_assoc. reflexivity.
    + rewrite Hlogs, Hlogs1. reflexivity.
    + rewrite Hids, Hrows1. apply mark_rows_event_ids.
      intros now r. apply event_id_set_by_result.
    + intros r Hin Hnot. apply Hother.
      * rewrite Hrows1. apply mark_rows_other; [exact Hin |].
        intros Hin1. apply Hnot. simpl. rewrite map_app.
        apply in_or_app. left. exact Hin1.
      * intros Hin2. apply Hnot. simpl. rewrite map_app.
        apply in_or_app. right. exact Hin2.
    + intros k batch' r Hnth Hinb Hin.
      destruct k as [| k]; simpl in Hnth.
      * injection Hnth as <-.
        destruct (in_nth_error_map_event_id batch r Hinb) as [i Hi].
        exists (current_timestamp o (tracker_calls w + i)).
        rewrite Nat.add_0_r. apply Hother.
        -- rewrite Hrows1.
           apply (mark_rows_hit o _ (event_id_set_by_result _));
             [exact Hnd1 | exact Hin | exact Hi].
        -- rewrite event_id_set_by_result. apply Hdisjoint.
           apply in_map. exact Hinb.
      * destruct (Hhit k batch' r Hnth Hinb) as [now Hnow].
        -- rewrite Hrows1. apply mark_rows_other; [exact Hin |].
           intros Hin1. apply (Hdisjoint _ Hin1).
           apply in_map. apply in_concat. exists batch'.
           split; [eapply nth_error_In; exact Hnth | exact Hinb].
        -- exists now. rewrite Hsent1, length_app in Hnow. simpl in Hnow.
           replace (List.length (sent w) + S k)%nat
             with (List.length (sent w) + 1 + k)%nat by lia.
           exact Hnow.
Qed.

(** ** The upload cycle *)

Lemma filter_keeps_event_ids_unique (keep : calendar_record -> bool)
  (rows : list calendar_record) :
  NoDup (map event_id rows) -> NoDup (map event_id (filter keep rows)).
Proof.
  intros Hunique. induction rows as [| r rows IH]; simpl; [constructor |].
  inversion Hunique as [| ? ? Hfresh Hrest]; subst.
  destruct (keep r); simpl; [| apply IH; exact Hrest].
  constructor; [| apply IH; exact Hrest].
  intros Hin. apply Hfresh.
  apply in_map_iff in Hin. destruct Hin as [x [Hx Hin]].
  apply filter_In in Hin. apply in_map_iff. exists x. tauto.
Qed.

Lemma pending_event_ids_unique (d : db) :
  unique_event_ids d ->
  NoDup (map event_id (get_pending_records None None d)).
Proof.
  intros Hunique.
  eapply Permutation_NoDup.
  - apply Permutation_map. apply Permutation_sym.
    apply get_pending_records_all_perm.
  - apply filter_keeps_event_ids_unique. exact Hunique.
Qed.

Lemma find_unique (rows : list calendar_record) (r : calendar_record) :
  NoDup (map event_id rows) -> In r rows ->
  find (has_event_id (event_id r)) rows = Some r.
Proof.
  induction rows as [| x rows IH]; simpl; intros Hnodup Hin; [contradiction |].
  inversion Hnodup as [| ? ? Hfresh Hrest]; subst.
  unfold has_event_id at 1.
  destruct (String.eqb (event_id x) (event_id r)) eqn:Heq.
  - destruct Hin as [-> | Hin]; [reflexivity |].
    exfalso. apply Hfresh. apply String.eqb_eq in Heq. rewrite Heq.
    apply in_map. exact Hin.
  - destruct Hin as [-> | Hin]; [rewrite String.eqb_refl in Heq; discriminate |].
    apply IH; assumption.
Qed.

Lemma unique_event_ids_same_row (rows : list calendar_record) (a b : calendar_record) :
  NoDup (map event_id rows) -> In a rows -> In b rows ->
  event_id a = event_id b -> a = b.
Proof.
  intros Hnodup Ha Hb Heq.
  pose proof (find_unique rows a Hnodup Ha) as Hfa.
  pose proof (find_unique rows b Hnodup Hb) as Hfb.
  rewrite Heq in Hfa. congruence.
Qed.

Lemma fold_left_over_map {A B C : Type} (f : A -> C -> A) (g : B -> C)
  (l : list B) (a : A) :
  fold_left f (map g l) a = fold_left (fun acc x => f acc (g x)) l a.
Proof.
  revert a. induction l as [| x l IH]; intros a; simpl; [reflexivity | apply IH].
Qed.

(** The function in terms of the batches: nothing happens when nothing is
    pending; otherwise the batches are uploaded in turn. *)
Lemma _upload_pending_records_batches (o : outside) (config : schedule_config)
  (w : world) :
  0 < batch_size config ->
  snd (_upload_pending_records o config w)
  = fst (fold_left (fun state batch => upload_one_batch o batch state)
           (chunks (Z.to_nat (batch_size config))
                   (get_pending_records None None (tracker w)))
           (w, {| uploaded_count := 0; failed_count := 0 |})).
Proof.
  intros Hsize. unfold _upload_pending_records.
  destruct (get_pending_records None None (tracker w)) as [| r rest] eqn:Hpending.
  - reflexivity.
  - destruct (py_range_batches (r :: rest) (batch_size config) Hsize)
      as [starts [Hrange Hslices]].
    rewrite Hrange. rewrite <- Hslices.
    rewrite fold_left_over_map.
    destruct (fold_left _ starts _) as [w' n']. reflexivity.
Qed.

(** The call of a batch succeeds exactly when the request was answered with
    the status 200 and a body whose code is 0. *)
Lemma upload_succeeded_iff (o : outside) (n : nat) (batch : list calendar_record) :
  upload_succeeded (batch_result o n batch) = true
  <-> batch <> []
      /\ exists r, network o n (map to_upload_record batch) = Response 200 (Ok r)
                   /\ code r = Some 0.
Proof.
  unfold batch_result, upload_succeeded, batch_upload_records.
  destruct batch as [| first rest]; simpl.
  - split; [discriminate | intros [H _]; contradiction].
  - destruct (network o n (to_upload_record first :: map to_upload_record rest))
      as [| | status_code [r | e]].
    + split; [discriminate | intros [_ [r [H _]]]; discriminate].
    + split; [discriminate | intros [_ [r [H _]]]; discriminate].
    + destruct (status_code =? 200) eqn:Hstatus.
      * apply Z.eqb_eq in Hstatus. subst status_code.
        unfold dict_truthy. destruct (code r) as [c |] eqn:Hcode.
        -- simpl. split.
           ++ intros Hzero. apply Z.eqb_eq in Hzero. subst c.
              split; [discriminate |]. exists r. split; [reflexivity | exact Hcode].
           ++ intros [_ [r' [[= <-] Hcode']]]. rewrite Hcode in Hcode'.
              injection Hcode' as ->. reflexivity.
        -- rewrite andb_false_r. split; [discriminate |].
           intros [_ [r' [[= <-] Hcode']]]. congruence.
      * split; [discriminate |].
        intros [_ [r' [[= Hs _] _]]]. subst status_code. discriminate.
    + destruct (status_code =? 200); split; try discriminate;
        intros [_ [r [H _]]]; discriminate.
Qed.

(** What the cycle leaves behind, in terms of the batches. *)
Lemma _upload_pending_records_spec (o : outside) (config : schedule_config)
  (w : world) :
  0 < batch_size config ->
  unique_event_ids (tracker w) ->
  let pending_records := get_pending_records None None (tracker w) in
  let batches := chunks (Z.to_nat (batch_size config)) pending_records in
  let w' := snd (_upload_pending_records o config w) in
  List.concat batches = pending_records
  /\ sent w' = sent w ++ map (map to_upload_record) batches
  /\ upload_logs (tracker w') = upload_logs (tracker w)
  /\ (forall k batch record,
        nth_error batches k = Some batch -> In record batch ->
        exists now new,
          find (has_event_id (event_id record)) (calendar_records (tracker w'))
          = Some new
          /\ marked_by_result (batch_result o (List.length (sent w) + k) batch)
               now record new)
  /\ (forall r,
        In r (calendar_records (tracker w)) -> upload_status r <> pending ->
        In r (calendar_records (tracker w')))
  /\ map event_id (calendar_records (tracker w'))
     = map event_id (calendar_records (tracker w)).
Proof.
  intros Hsize Hunique pending_records batches w'.
  assert (Hnat : (0 < Z.to_nat (batch_size config))%nat) by lia.
  assert (Hconcat : List.concat batches = pending_records).
  { apply chunks_upto_concat; [exact Hnat | apply le_n]. }
  assert (Hnodup : NoDup (map event_id (List.concat batches))).
  { rewrite Hconcat. apply pending_event_ids_unique. exact Hunique. }
  pose proof (upload_batches_spec o batches w
                {| uploaded_count := 0; failed_count := 0 |} Hnodup) as Hloop.
  cbv zeta in Hloop.
  assert (Hw' : w' = fst (fold_left
                            (fun state batch => upload_one_batch o batch state)
                            batches (w, {| uploaded_count := 0; failed_count := 0 |})))
    by (apply _upload_pending_records_batches; exact Hsize).
  rewrite <- Hw' in Hloop.
  destruct Hloop as [Hsent [Hlogs [Hids [Hother Hhit]]]].
  split; [exact Hconcat |].
  split; [exact Hsent |].
  split; [exact Hlogs |].
  split.
  { intros k batch record Hnth Hin.
    assert (Hpending : In record pending_records).
    { rewrite <- Hconcat. apply in_concat. exists batch.
      split; [eapply nth_error_In; exact Hnth | exact Hin]. }
    apply in_get_pending_records_all in Hpending.
    destruct Hpending as [Hrow _].
    destruct (Hhit k batch record Hnth Hin Hrow) as [now Hnow].
    exists now, (set_by_result (batch_result o (List.length (sent w) + k) batch)
                   now record).
    split; [| apply set_by_result_marked].
    rewrite <- (event_id_set_by_result
                  (batch_result o (List.length (sent w) + k) batch) now record).
    apply find_unique; [| exact Hnow].
    rewrite Hids. exact Hunique. }
  split; [| exact Hids].
  intros r Hin Hstatus. apply Hother; [exact Hin |].
  rewrite Hconcat. intros Hid.
  apply in_map_iff in Hid. destruct Hid as [p [Heq Hp]].
  apply in_get_pending_records_all in Hp. destruct Hp as [Hprow Hpstatus].
  apply Hstatus.
  rewrite <- (unique_event_ids_same_row _ p r Hunique Hprow Hin Heq).
  exact Hpstatus.
Qed.

(** C1: the upload cycle works batch by batch. With a batch size above
    zero (50 in [SCHEDULE_CONFIG]) and a store that holds each [event_id]
    once, the records pending at the start are cut, in order, into
    consecutive batches of at most that size, each but the last of exactly
    that size; the uploader is called once per batch, in order, with the
    records of the batch; every record of a batch then has, whatever the
    other batches met, the status [uploaded] and the one success text when
    the call of its batch succeeded (the request was answered with status
    200 and a body of code 0), and the status [failed] and the error
    message of that call otherwise; its other columns are kept; rows that
    were not pending are untouched. *)
Theorem upload_is_all_or_nothing_per_batch :
  forall (o : outside) (config : schedule_config) (w : world),
    0 < batch_size config ->
    unique_event_ids (tracker w) ->
    let pending_records := get_pending_records None None (tracker w) in
    let batches := chunks (Z.to_nat (batch_size config)) pending_records in
    let w' := snd (_upload_pending_records o config w) in
    batch_size SCHEDULE_CONFIG = 50
    /\ List.concat batches = pending_records
    /\ Forall (fun batch =>
                batch <> [] /\ Z.of_nat (List.length batch) <= batch_size config)
             batches
    /\ (forall k batch,
          nth_error batches k = Some batch ->
          (S k < List.length batches)%nat ->
          Z.of_nat (List.length batch) = batch_size config)
    /\ sent w' = sent w ++ map (map to_upload_record) batches
    /\ (forall k batch record,
          nth_error batches k = Some batch -> In record batch ->
          exists now new,
            find (has_event_id (event_id record)) (calendar_records (tracker w'))
            = Some new
            /\ marked_by_result (batch_result o (List.length (sent w) + k) batch)
                 now record new)
    /\ (forall n batch,
          upload_succeeded (batch_result o n batch) = true
          <-> batch <> []
              /\ exists r,
                   network o n (map to_upload_record batch) = Response 200 (Ok r)
                   /\ code r = Some 0)
    /\ (forall r,
          In r (calendar_records (tracker w)) -> upload_status r <> pending ->
          In r (calendar_records (tracker w')))
    /\ map event_id (calendar_records (tracker w'))
       = map event_id (calendar_records (tracker w)).
Proof.
  intros o config w Hsize Hunique pending_records batches w'.
  assert (Hnat : (0 < Z.to_nat (batch_size config))%nat) by lia.
  destruct (_upload_pending_records_spec o config w Hsize Hunique)
    as [Hconcat [Hsent [_ [Hhit [Hother Hids]]]]].
  split; [reflexivity |].
  split; [exact Hconcat |].
  split.
  { eapply Forall_impl; [| apply chunks_upto_bounds; exact Hnat].
    intros batch [Hne Hle]. split; [exact Hne | lia]. }
  split.
  { intros k batch Hnth Hmore.
    rewrite (chunks_upto_full _ _ _ k batch Hnth Hmore). lia. }
  split; [exact Hsent |].
  split; [exact Hhit |].
  split; [intros n batch; apply upload_succeeded_iff |].
  split; [exact Hother | exact Hids].
Qed.

Lemma unique_event_ids_standup : unique_event_ids db_standup_pending.
Proof.
  unfold unique_event_ids. simpl. constructor; [intros [] | constructor].
Qed.

(** The cycle on the store that holds one pending event: one batch, sent
    in one call. *)
Lemma upload_is_all_or_nothing_per_batch_witness :
  sent (snd (_upload_pending_records network_up SCHEDULE_CONFIG world_standup_pending))
  = sent world_standup_pending
    ++ map (map to_upload_record)
         (chunks (Z.to_nat (batch_size SCHEDULE_CONFIG))
            (get_pending_records None None (tracker world_standup_pending))).
Proof.
  refine (proj1 (proj2 (proj2 (proj2 (proj2
    (upload_is_all_or_nothing_per_batch network_up SCHEDULE_CONFIG
       world_standup_pending _ unique_event_ids_standup)))))).
  reflexivity.
Defined.

(** The example of the specification: 120 pending records and batches of
    50. The uploader is called with 50, 50 and 20 records; its second call
    is refused, and those 50 records end [failed] with the message of the
    refusal while the other 70 end [uploaded]. *)
Example batches_of_120 :
  let w' := snd (_upload_pending_records network_second_call_refused SCHEDULE_CONFIG
                   (world_of_pending 120)) in
  map (@List.length upload_record) (sent w') = [50; 50; 20]%nat
  /\ map upload_status (calendar_records (tracker w'))
     = repeat uploaded 50 ++ repeat failed 50 ++ repeat uploaded 20
  /\ map upload_result (firstn 1 (skipn 50 (calendar_records (tracker w'))))
     = [Some "FAILED: WrongBaseToken"]
  /\ fst (_upload_pending_records network_second_call_refused SCHEDULE_CONFIG
            (world_of_pending 120))
     = Some {| uploaded_count := 70; failed_count := 50 |}.
Proof.
  vm_compute. repeat split; reflexivity.
Qed.

(** ** Selection of pending records and the retry path *)

Lemma get_pending_records_unlimited (person : option string) (d : db) :
  get_pending_records person None d
  = order_by_created_time
      (filter (fun r => is_pending r && selects person r) (calendar_records d)).
Proof.
  unfold get_pending_records, selects.
  destruct person as [name |].
  - destruct (str_truthy name); [reflexivity |].
    f_equal. apply filter_ext. intros r. rewrite andb_true_r. reflexivity.
  - f_equal. apply filter_ext. intros r. rewrite andb_true_r. reflexivity.
Qed.

Lemma get_pending_records_limited (person : option string) (limit : option Z) (d : db) :
  get_pending_records person limit d
  = match caps limit with
    | Some n => firstn n (get_pending_records person None d)
    | None => get_pending_records person None d
    end.
Proof.
  unfold caps. destruct limit as [n |]; [| reflexivity].
  unfold get_pending_records at 1.
  fold (get_pending_records person None d).
  destruct (n =? 0) eqn:Hzero.
  - apply Z.eqb_eq in Hzero. subst n. reflexivity.
  - apply Z.eqb_neq in Hzero. unfold sql_limit.
    destruct (n <? 0) eqn:Hneg.
    + apply Z.ltb_lt in Hneg.
      replace (0 <? n) with false by (symmetry; apply Z.ltb_ge; lia).
      reflexivity.
    + apply Z.ltb_ge in Hneg.
      replace (0 <? n) with true by (symmetry; apply Z.ltb_lt; lia).
      reflexivity.
Qed.

Lemma in_firstn {A : Type} (n : nat) (l : list A) (x : A) :
  In x (firstn n l) -> In x l.
Proof.
  revert l. induction n as [| n IH]; intros l; simpl; [contradiction |].
  destruct l as [| y l]; simpl; [contradiction |].
  intros [H | H]; [left; exact H | right; apply IH; exact H].
Qed.

Lemma StronglySorted_firstn {A : Type} (R : A -> A -> Prop) (n : nat) (l : list A) :
  StronglySorted R l -> StronglySorted R (firstn n l).
Proof.
  revert l. induction n as [| n IH]; intros l Hsorted; simpl.
  - constructor.
  - destruct l as [| x l]; [constructor |].
    inversion Hsorted as [| ? ? Hrest Hall]; subst.
    constructor; [apply IH; exact Hrest |].
    apply Forall_forall. intros y Hy.
    rewrite Forall_forall in Hall. apply Hall.
    eapply in_firstn. exact Hy.
Qed.

Lemma in_get_pending_records (person : option string) (limit : option Z) (d : db)
  (r : calendar_record) :
  In r (get_pending_records person limit d) ->
  In r (calendar_records d) /\ upload_status r = pending /\ selects person r = true.
Proof.
  intros Hin.
  assert (Hfull : In r (get_pending_records person None d)).
  { rewrite get_pending_records_limited in Hin.
    destruct (caps limit); [eapply in_firstn; exact Hin | exact Hin]. }
  rewrite get_pending_records_unlimited in Hfull.
  eapply Permutation_in in Hfull; [| apply order_by_created_time_perm].
  apply filter_In in Hfull. destruct Hfull as [Hrow Hsel].
  apply andb_true_iff in Hsel. destruct Hsel as [Hpending Hperson].
  apply is_pending_iff in Hpending. tauto.
Qed.

Lemma set_reset_pending (now : Z) (r : calendar_record) :
  reset_to_pending now r (set_reset now r).
Proof.
  unfold reset_to_pending, same_identity, same_content. simpl. tauto.
Qed.

Lemma reset_failed_records_unique (now : Z) (d : db) :
  unique_event_ids d -> unique_event_ids (snd (reset_failed_records now d)).
Proof.
  unfold unique_event_ids. simpl. intros H.
  rewrite map_event_id_update_where; [exact H | reflexivity].
Qed.

(** After the reset a row that was [failed] is among the pending ones. *)
Lemma reset_row_is_pending (now : Z) (d : db) (r : calendar_record) :
  In r (calendar_records d) -> upload_status r = failed ->
  In (set_reset now r)
     (get_pending_records None None (snd (reset_failed_records now d))).
Proof.
  intros Hin Hfailed. apply in_get_pending_records_all. split; [| reflexivity].
  simpl. apply in_update_where_hit; [exact Hin |].
  apply is_failed_iff. exact Hfailed.
Qed.

(** A record pending at the start of a cycle whose every call succeeds
    ends [uploaded]. *)
Lemma pending_record_uploaded (o : outside) (config : schedule_config) (w : world)
  (record : calendar_record) :
  0 < batch_size config ->
  unique_event_ids (tracker w) ->
  (forall n batch, batch <> [] -> upload_succeeded (batch_result o n batch) = true) ->
  In record (get_pending_records None None (tracker w)) ->
  exists now new,
    find (has_event_id (event_id record))
         (calendar_records (tracker (snd (_upload_pending_records o config w))))
    = Some new
    /\ marked uploaded now success_text record new.
Proof.
  intros Hsize Hunique Hup Hpending.
  destruct (_upload_pending_records_spec o config w Hsize Hunique)
    as [Hconcat [_ [_ [Hhit _]]]].
  rewrite <- Hconcat in Hpending. apply in_concat in Hpending.
  destruct Hpending as [batch [Hbatch Hin]].
  apply In_nth_error in Hbatch. destruct Hbatch as [k Hk].
  destruct (Hhit k batch record Hk Hin) as [now [new [Hfind Hmarked]]].
  exists now, new. split; [exact Hfind |].
  unfold marked_by_result in Hmarked. rewrite Hup in Hmarked; [exact Hmarked |].
  intros ->. exact Hin.
Qed.

(** C6: selection and retry.
    - [get_pending_records] returns rows of the table with the status
      [pending] that the person filter lets through, and nothing else: a
      [failed] (or [uploaded]) row is never returned.
    - Without a limit it returns every such row, once.
    - The result is ordered by [created_time], oldest first.
    - A positive limit cuts the result to its first rows; no limit, zero
      and a negative limit cut nothing.
    - [reset_failed_records] returns the number of [failed] rows and sets
      exactly those back to [pending] with no upload time and no result.
    - A row that was [failed] is then selected again, and a following
      cycle whose calls succeed leaves it [uploaded]. *)
Theorem pending_selection_and_retry :
  forall (person : option string) (limit : option Z) (d : db) (now : Z),
    (forall r, In r (get_pending_records person limit d) ->
               In r (calendar_records d) /\ upload_status r = pending
               /\ selects person r = true /\ upload_status r <> failed)
    /\ Permutation (get_pending_records person None d)
         (filter (fun r => is_pending r && selects person r) (calendar_records d))
    /\ StronglySorted by_created_time (get_pending_records person limit d)
    /\ get_pending_records person limit d
       = match caps limit with
         | Some n => firstn n (get_pending_records person None d)
         | None => get_pending_records person None d
         end
    /\ fst (reset_failed_records now d)
       = Z.of_nat (List.length (filter is_failed (calendar_records d)))
    /\ Forall2 (fun old new =>
                 if is_failed old then reset_to_pending now old new else new = old)
         (calendar_records d) (calendar_records (snd (reset_failed_records now d)))
    /\ upload_logs (snd (reset_failed_records now d)) = upload_logs d
    /\ (forall r, In r (calendar_records d) -> upload_status r = failed ->
          ~ In r (get_pending_records person limit d)
          /\ In (set_reset now r)
               (get_pending_records None None (snd (reset_failed_records now d))))
    /\ (forall (o : outside) (config : schedule_config) (w : world) r,
          tracker w = d ->
          0 < batch_size config ->
          unique_event_ids d ->
          (forall n batch, batch <> [] ->
                           upload_succeeded (batch_result o n batch) = true) ->
          In r (calendar_records d) -> upload_status r = failed ->
          let w1 := snd (tracker_call o reset_failed_records w) in
          exists time_of_reset time_of_upload new,
            find (has_event_id (event_id r))
                 (calendar_records (tracker (snd (_upload_pending_records o config w1))))
            = Some new
            /\ marked uploaded time_of_upload success_text
                 (set_reset time_of_reset r) new).
Proof.
  intros person limit d now.
  split; [| split; [| split; [| split; [| split; [| split; [| split; [| split]]]]]]].
  - intros r Hin. apply in_get_pending_records in Hin.
    destruct Hin as [Hrow [Hpending Hsel]].
    repeat split; try assumption. rewrite Hpending. discriminate.
  - rewrite get_pending_records_unlimited. apply order_by_created_time_perm.
  - rewrite get_pending_records_limited, get_pending_records_unlimited.
    destruct (caps limit);
      [apply StronglySorted_firstn |]; apply order_by_created_time_sorted.
  - apply get_pending_records_limited.
  - reflexivity.
  - simpl. eapply Forall2_impl; [| apply Forall2_update_where].
    intros old new ->. destruct (is_failed old);
      [apply set_reset_pending | reflexivity].
  - reflexivity.
  - intros r Hin Hfailed. split.
    + intros Hsel. apply in_get_pending_records in Hsel.
      destruct Hsel as [_ [Hpending _]]. congruence.
    + apply reset_row_is_pending; assumption.
  - intros o config w r Htracker Hsize Hunique Hup Hin Hfailed w1.
    subst d.
    assert (Hw1 : tracker w1
                  = snd (reset_failed_records (current_timestamp o (tracker_calls w))
                           (tracker w))) by reflexivity.
    destruct (pending_record_uploaded o config w1
                (set_reset (current_timestamp o (tracker_calls w)) r) Hsize)
      as [time_of_upload [new [Hfind Hmarked]]].
    + rewrite Hw1. apply reset_failed_records_unique. exact Hunique.
    + exact Hup.
    + rewrite Hw1. apply reset_row_is_pending; assumption.
    + exists (current_timestamp o (tracker_calls w)), time_of_upload, new.
      split; [exact Hfind | exact Hmarked].
Qed.

(** The retry path on an example: a record whose upload failed is not
    selected; after the reset it is; the next cycle, whose call succeeds,
    leaves it [uploaded]. *)
Example retry_after_reset :
  let w1 := snd (tracker_call network_up reset_failed_records world_standup_failed) in
  let w2 := snd (_upload_pending_records network_up SCHEDULE_CONFIG w1) in
  map upload_status (calendar_records (tracker world_standup_failed)) = [failed]
  /\ get_pending_records None None (tracker world_standup_failed) = []
  /\ fst (tracker_call network_up reset_failed_records world_standup_failed) = 1
  /\ map event_id (get_pending_records None None (tracker w1)) = ["evt_1"]
  /\ map upload_status (calendar_records (tracker w2)) = [uploaded]
  /\ map upload_result (calendar_records (tracker w2)) = [Some success_text].
Proof.
  vm_compute. repeat split; reflexivity.
Qed.

(** ** The upload log *)

Lemma upload_batches_logs (o : outside) (batches : list (list calendar_record)) :
  forall (w : world) (n : counts),
    upload_logs (tracker (fst (fold_left
                                 (fun state batch => upload_one_batch o batch state)
                                 batches (w, n))))
    = upload_logs (tracker w).
Proof.
  induction batches as [| batch batches IH]; intros w n; [reflexivity |].
  cbn [fold_left]. cbv beta.
  destruct (upload_one_batch o batch (w, n)) as [w1 n1] eqn:Hstep.
  rewrite IH.
  pose proof (upload_one_batch_spec o batch w n) as Hone.
  cbv zeta in Hone. rewrite Hstep in Hone. cbn [fst] in Hone.
  destruct Hone as [_ [_ [Hlogs _]]]. exact Hlogs.
Qed.

(** The upload cycle writes nothing to the log table, whatever the batch
    size and the store. *)
Lemma _upload_pending_records_logs (o : outside) (config : schedule_config)
  (w : world) :
  upload_logs (tracker (snd (_upload_pending_records o config w)))
  = upload_logs (tracker w).
Proof.
  unfold _upload_pending_records.
  destruct (get_pending_records None None (tracker w)) as [| r rest];
    [reflexivity |].
  destruct (py_range 0 (Z.of_nat (List.length (r :: rest))) (batch_size config))
    as [starts | e]; [| reflexivity].
  rewrite <- (fold_left_over_map
                (fun state batch => upload_one_batch o batch state)
                (fun i => slice (r :: rest) i (i + batch_size config))).
  pose proof (upload_batches_logs o
                (map (fun i => slice (r :: rest) i (i + batch_size config)) starts)
                w {| uploaded_count := 0; failed_count := 0 |}) as Hlogs.
  destruct (fold_left _ _ _) as [w' n']. exact Hlogs.
Qed.

Lemma add_or_update_record_logs (h : host) (now : Z) (event : event_data)
  (person file : string) (d : db) :
  upload_logs (snd (add_or_update_record h now event person file d)) = upload_logs d.
Proof.
  destruct (ev_event_id event) as [eid |] eqn:Hid.
  - destruct (str_truthy eid) eqn:Htruthy.
    + destruct (resolved_start_ok h event) as [new_start Hstart].
      destruct (resolved_end_ok h event) as [new_end Hend].
      rewrite (add_or_update_record_with_id h now event person file d eid
                 new_start new_end Hid Htruthy Hstart Hend).
      destruct (find (has_event_id eid) (calendar_records d)) as [existing |];
        [| reflexivity].
      destruct (String.eqb (record_hash existing) (_generate_record_hash h event));
        reflexivity.
    + assert (Hempty : eid = "") by (destruct eid; [reflexivity | discriminate]).
      subst eid.
      rewrite add_or_update_record_without_id by (right; exact Hid). reflexivity.
  - rewrite add_or_update_record_without_id by (left; exact Hid). reflexivity.
Qed.

Lemma load_events_logs (h : host) (o : outside) (person path : string)
  (events : list event_data) :
  forall (w : world) (added : Z),
    upload_logs (tracker (fst (fold_left
      (fun state event =>
         let '(w', added_count) := state in
         if negb (is_cancelled event) then
           let '(changed, w'') :=
             tracker_call o (fun now => add_or_update_record h now event person path) w' in
           (w'', if changed then added_count + 1 else added_count)
         else state)
      events (w, added))))
    = upload_logs (tracker w).
Proof.
  induction events as [| event events IH]; intros w added; [reflexivity |].
  cbn [fold_left]. cbv beta iota.
  destruct (negb (is_cancelled event)); [| apply IH].
  unfold tracker_call.
  destruct (add_or_update_record h (current_timestamp o (tracker_calls w)) event
              person path (tracker w)) as [changed d'] eqn:Hcall.
  rewrite IH. simpl.
  pose proof (add_or_update_record_logs h (current_timestamp o (tracker_calls w))
                event person path (tracker w)) as Hlogs.
  rewrite Hcall in Hlogs. exact Hlogs.
Qed.

Lemma _load_calendar_records_logs (h : host) (o : outside)
  (files : list calendar_file_data) :
  forall (w : world) (total : Z),
    upload_logs (tracker (fst (fold_left
      (fun state file =>
         let '(w', total_added) := state in
         match file_items file with
         | Some events =>
             let '(w'', added_count) :=
               load_events h o (path_stem h (file_path file)) (file_path file)
                 events w' in
             (w'', total_added + added_count)
         | None => state
         end)
      files (w, total))))
    = upload_logs (tracker w).
Proof.
  induction files as [| file files IH]; intros w total; [reflexivity |].
  cbn [fold_left]. cbv beta iota.
  destruct (file_items file) as [events |]; [| apply IH].
  pose proof (load_events_logs h o (path_stem h (file_path file)) (file_path file)
                events w 0) as Hlogs.
  unfold load_events.
  destruct (fold_left _ events (w, 0)) as [w1 added]. cbn [fst] in Hlogs.
  rewrite IH. exact Hlogs.
Qed.

Lemma execute_main_task_logs (h : host) (o : outside) (config : schedule_config)
  (answer : option (list calendar_answer)) (state : directory * world) :
  upload_logs (tracker (snd (execute_main_task h o config answer state)))
  = upload_logs (tracker (snd state)).
Proof.
  destruct state as [dir w]. unfold execute_main_task.
  destruct (fetch_calendar_data h answer dir) as [fetched dir1].
  destruct fetched; [| reflexivity].
  pose proof (_load_calendar_records_logs h o (glob_calendar_files h dir1) w 0)
    as Hload.
  unfold _load_calendar_records.
  destruct (fold_left _ (glob_calendar_files h dir1) (w, 0)) as [w1 total].
  cbn [fst] in Hload.
  pose proof (_upload_pending_records_logs o config w1) as Hupload.
  destruct (_upload_pending_records o config w1) as [n w2].
  cbn [snd] in *. congruence.
Qed.

Lemma run_cycles_logs (h : host) (o : outside) (config : schedule_config)
  (answers : list (option (list calendar_answer))) :
  upload_logs (tracker (snd (run_cycles h o config answers))) = [].
Proof.
  unfold run_cycles.
  assert (Hgen : forall state,
             upload_logs (tracker (snd (fold_left
               (fun state answer => execute_main_task h o config answer state)
               answers state)))
             = upload_logs (tracker (snd state))).
  { induction answers as [| answer answers IH]; intros state; [reflexivity |].
    cbn [fold_left]. rewrite IH. apply execute_main_task_logs. }
  rewrite Hgen. reflexivity.
Qed.

Lemma insert_logs_spec (now : Z) (batch_id : string) (entries : list upload_outcome) :
  forall (logs : list upload_log) (seq : Z),
    forallb loggable entries = true ->
    exists written,
      insert_logs now batch_id entries logs seq
      = Ok (logs ++ written, seq + Z.of_nat (List.length entries))
      /\ Forall2 (logs_entry now batch_id) entries written.
Proof.
  induction entries as [| entry entries IH]; intros logs seq Hall; simpl.
  - exists []. rewrite app_nil_r, Z.add_0_r. split; [reflexivity | constructor].
  - simpl in Hall. apply andb_true_iff in Hall. destruct Hall as [Hentry Hrest].
    unfold loggable in Hentry.
    destruct (out_event_id entry) as [eid |] eqn:Heid; [| discriminate].
    destruct (out_status entry) as [st |] eqn:Hst; [| discriminate].
    destruct (IH (logs ++ [{| log_id := seq + 1;
                              log_batch_id := batch_id;
                              log_event_id := eid;
                              log_upload_status := st;
                              log_upload_result := out_result entry;
                              log_upload_time := now;
                              log_error_message := out_error entry |}])
                 (seq + 1) Hrest) as [written [Hrun Hwritten]].
    eexists (_ :: written). split.
    + rewrite Hrun. rewrite <- app_assoc. simpl.
      do 2 f_equal. lia.
    + constructor; [| exact Hwritten].
      unfold logs_entry. simpl. rewrite Heid, Hst. tauto.
Qed.

Lemma insert_logs_rejects (now : Z) (batch_id : string) (entries : list upload_outcome) :
  forall (logs : list upload_log) (seq : Z),
    forallb loggable entries = false ->
    exists e, insert_logs now batch_id entries logs seq = Raise e.
Proof.
  induction entries as [| entry entries IH]; intros logs seq Hall; simpl.
  - discriminate.
  - simpl in Hall. unfold loggable in Hall at 1.
    destruct (out_event_id entry) as [eid |]; [| eexists; reflexivity].
    destruct (out_status entry) as [st |]; [| eexists; reflexivity].
    simpl in Hall. apply IH. exact Hall.
Qed.

(** C7 as the code has it: the upload cycle appends nothing to the log
    table, and neither does any sequence of full runs, whose log table
    stays empty: the orchestrator never calls [log_upload_batch]. The
    method itself, called with a batch identifier and entries that each
    carry an [event_id] and a status, returns [True] and appends one row
    per entry, in order, with that batch identifier and the entry's
    [event_id], status, result and error message, after the rows the table
    held; the records table is untouched. With an entry that lacks one of
    the two, it returns [False] and writes nothing. *)
Theorem upload_cycle_appends_no_log :
  forall (h : host) (o : outside) (config : schedule_config) (w : world)
         (answers : list (option (list calendar_answer)))
         (now : Z) (batch_id : string) (entries : list upload_outcome) (d : db),
    upload_logs (tracker (snd (_upload_pending_records o config w)))
    = upload_logs (tracker w)
    /\ upload_logs (tracker (snd (run_cycles h o config answers))) = []
    /\ (forallb loggable entries = true ->
        fst (log_upload_batch now batch_id entries d) = true
        /\ calendar_records (snd (log_upload_batch now batch_id entries d))
           = calendar_records d
        /\ exists written,
             upload_logs (snd (log_upload_batch now batch_id entries d))
             = upload_logs d ++ written
             /\ Forall2 (logs_entry now batch_id) entries written)
    /\ (forallb loggable entries = false ->
        log_upload_batch now batch_id entries d = (false, d)).
Proof.
  intros h o config w answers now batch_id entries d.
  split; [apply _upload_pending_records_logs |].
  split; [apply run_cycles_logs |].
  split.
  - intros Hall. unfold log_upload_batch.
    destruct (insert_logs_spec now batch_id entries (upload_logs d)
                (upload_logs_seq d) Hall) as [written [Hrun Hwritten]].
    rewrite Hrun. simpl.
    split; [reflexivity | split; [reflexivity |]].
    exists written. split; [reflexivity | exact Hwritten].
  - intros Hall. unfold log_upload_batch.
    destruct (insert_logs_rejects now batch_id entries (upload_logs d)
                (upload_logs_seq d) Hall) as [e Hrun].
    rewrite Hrun. reflexivity.
Qed.

(** C7 as stated fails: a cycle that uploads one record (one batch, one
    call, the record marked [uploaded]) leaves the log table empty: no
    entry was appended for the record. *)
Lemma upload_cycle_without_log_entry :
  let w' := snd (_upload_pending_records network_up SCHEDULE_CONFIG
                   world_standup_pending) in
  map event_id (get_pending_records None None (tracker world_standup_pending))
  = ["evt_1"]
  /\ List.length (sent w') = 1%nat
  /\ map upload_status (calendar_records (tracker w')) = [uploaded]
  /\ upload_logs (tracker w') = []
  /\ (forall entry, In entry (upload_logs (tracker w')) ->
                    log_event_id entry <> "evt_1").
Proof.
  vm_compute. repeat split; try reflexivity.
  intros entry [].
Qed.

(** ** Excluded events *)

Lemma filter_events_without_excluded (h : host) (filter_start : Z)
  (events : list event_data) :
  filter_events h filter_start (filter (fun event => negb (excluded event)) events)
  = filter_events h filter_start events.
Proof.
  induction events as [| event events IH]; [reflexivity |].
  cbn [filter]. unfold excluded at 1.
  destruct (is_cancelled event) eqn:Hcancelled; cbn [orb negb].
  - cbn [filter_events]. rewrite Hcancelled. exact IH.
  - destruct (has_blank_summary event) eqn:Hblank; cbn [negb].
    + cbn [filter_events]. rewrite Hcancelled, Hblank. exact IH.
    + cbn [filter_events]. rewrite Hcancelled, Hblank, IH. reflexivity.
Qed.

Lemma filter_events_keeps_no_excluded (h : host) (filter_start : Z)
  (events kept : list event_data) :
  filter_events h filter_start events = Ok kept ->
  Forall (fun event => excluded event = false) kept.
Proof.
  revert kept. induction events as [| event events IH]; intros kept;
    cbn [filter_events].
  - intros [= <-]. constructor.
  - destruct (is_cancelled event) eqn:Hcancelled; [apply IH |].
    destruct (has_blank_summary event) eqn:Hblank; [apply IH |].
    destruct (event_start_timestamp h event) as [start | e]; cbn [bind];
      [| discriminate].
    destruct (start <? filter_start); [apply IH |].
    destruct (filter_events h filter_start events) as [rest | e]; cbn [bind];
      [| discriminate].
    intros [= <-]. constructor; [| apply IH; reflexivity].
    unfold excluded. rewrite Hcancelled, Hblank. reflexivity.
Qed.

Lemma fold_left_same {A B : Type} (f g : A -> B -> A) (l : list B) (a : A) :
  (forall acc x, f acc x = g acc x) -> fold_left f l a = fold_left g l a.
Proof.
  intros Hfg. revert a.
  induction l as [| x l IH]; intros a; simpl; [reflexivity |].
  rewrite Hfg. apply IH.
Qed.

Lemma get_calendar_events_without_excluded (h : host) (answer : calendar_answer) :
  get_calendar_events h (without_excluded answer) = get_calendar_events h answer.
Proof.
  unfold get_calendar_events, without_excluded. simpl.
  destruct (ans_items answer) as [events |]; simpl; [| reflexivity].
  rewrite filter_events_without_excluded. reflexivity.
Qed.

Lemma save_calendar_without_excluded (h : host) (dir : directory)
  (answer : calendar_answer) :
  save_calendar h dir (without_excluded answer) = save_calendar h dir answer.
Proof.
  unfold save_calendar. rewrite get_calendar_events_without_excluded. reflexivity.
Qed.

Lemma fetch_calendar_data_without_excluded (h : host)
  (answer : option (list calendar_answer)) (dir : directory) :
  fetch_calendar_data h (option_map (map without_excluded) answer) dir
  = fetch_calendar_data h answer dir.
Proof.
  destruct answer as [calendar_list |]; [| reflexivity]. simpl.
  unfold save_calendar_results.
  destruct calendar_list as [| first rest]; [reflexivity |].
  change (map without_excluded (first :: rest))
    with (without_excluded first :: map without_excluded rest) at 1.
  cbv iota. f_equal.
  rewrite fold_left_over_map.
  apply fold_left_same. intros dir' answer'.
  apply save_calendar_without_excluded.
Qed.

Lemma execute_main_task_without_excluded (h : host) (o : outside)
  (config : schedule_config) (answer : option (list calendar_answer))
  (state : directory * world) :
  execute_main_task h o config (option_map (map without_excluded) answer) state
  = execute_main_task h o config answer state.
Proof.
  unfold execute_main_task. destruct state as [dir w].
  rewrite fetch_calendar_data_without_excluded. reflexivity.
Qed.

Lemma run_cycles_without_excluded (h : host) (o : outside) (config : schedule_config)
  (answers : list (option (list calendar_answer))) :
  run_cycles h o config (map (option_map (map without_excluded)) answers)
  = run_cycles h o config answers.
Proof.
  unfold run_cycles. rewrite fold_left_over_map.
  apply fold_left_same. intros state answer.
  apply execute_main_task_without_excluded.
Qed.

Lemma fold_left_filter_skipped {A B : Type} (f : A -> B -> A) (p : B -> bool)
  (l : list B) :
  (forall acc x, p x = false -> f acc x = acc) ->
  forall a, fold_left f (filter p l) a = fold_left f l a.
Proof.
  intros Hskip. induction l as [| x l IH]; intros a; simpl; [reflexivity |].
  destruct (p x) eqn:Hp; simpl.
  - apply IH.
  - rewrite (Hskip a x Hp). apply IH.
Qed.

(** The loader skips the cancelled events of a file. *)
Lemma load_events_without_cancelled (h : host) (o : outside) (person path : string)
  (events : list event_data) (w : world) :
  load_events h o person path
    (filter (fun event => negb (is_cancelled event)) events) w
  = load_events h o person path events w.
Proof.
  unfold load_events. apply fold_left_filter_skipped.
  intros [w' added] event Hskip. rewrite Hskip. reflexivity.
Qed.

Lemma _load_calendar_records_without_cancelled (h : host) (o : outside)
  (files : list calendar_file_data) (w : world) :
  _load_calendar_records h o (map without_cancelled files) w
  = _load_calendar_records h o files w.
Proof.
  unfold _load_calendar_records. rewrite fold_left_over_map.
  apply fold_left_same. intros [w' total] file.
  unfold without_cancelled. simpl.
  destruct (file_items file) as [events |]; simpl; [| reflexivity].
  rewrite load_events_without_cancelled. reflexivity.
Qed.

(** *** No row without a title *)

Lemma write_file_holds_no_excluded (path : string) (items : list event_data)
  (dir : directory) :
  Forall (fun event => excluded event = false) items ->
  Forall holds_no_excluded dir ->
  Forall holds_no_excluded (write_file path items dir).
Proof.
  intros Hitems. induction dir as [| file dir IH]; intros Hdir; simpl.
  - constructor; [| constructor].
    intros events [= <-]. exact Hitems.
  - inversion Hdir as [| ? ? Hfile Hrest]; subst.
    destruct (String.eqb (file_path file) path).
    + constructor; [| exact Hrest].
      intros events [= <-]. exact Hitems.
    + constructor; [exact Hfile | apply IH; exact Hrest].
Qed.

Lemma save_calendar_holds_no_excluded (h : host) (dir : directory)
  (answer : calendar_answer) :
  Forall holds_no_excluded dir ->
  Forall holds_no_excluded (save_calendar h dir answer).
Proof.
  intros Hdir. unfold save_calendar.
  destruct (str_truthy (get_default (ans_calendar_id answer) "")); [| exact Hdir].
  destruct (get_calendar_events h answer) as [items |] eqn:Hevents; [| exact Hdir].
  apply write_file_holds_no_excluded; [| exact Hdir].
  unfold get_calendar_events in Hevents.
  destruct (ans_items answer) as [events |]; [| discriminate].
  destruct (filter_events h (ans_filter_start_timestamp answer) events)
    as [kept | e] eqn:Hfilter; [| discriminate].
  injection Hevents as <-.
  eapply filter_events_keeps_no_excluded. exact Hfilter.
Qed.

Lemma fetch_calendar_data_holds_no_excluded (h : host)
  (answer : option (list calendar_answer)) (dir : directory) :
  Forall holds_no_excluded dir ->
  Forall holds_no_excluded (snd (fetch_calendar_data h answer dir)).
Proof.
  intros Hdir. destruct answer as [calendar_list |]; [| exact Hdir].
  simpl. unfold save_calendar_results.
  destruct calendar_list as [| first rest]; [exact Hdir |].
  cbn [snd]. generalize (first :: rest) as answers. clear first rest.
  intros answers. revert dir Hdir.
  induction answers as [| answer answers IH]; intros dir Hdir; simpl.
  - exact Hdir.
  - apply IH. apply save_calendar_holds_no_excluded. exact Hdir.
Qed.

Lemma Forall_update_where (P : calendar_record -> Prop)
  (condition : calendar_record -> bool) (set : calendar_record -> calendar_record)
  (rows : list calendar_record) :
  (forall r, P r -> P (set r)) ->
  Forall P rows -> Forall P (update_where condition set rows).
Proof.
  intros Hset Hrows. unfold update_where. apply Forall_map.
  eapply Forall_impl; [| exact Hrows].
  intros r Hr. destruct (condition r); [apply Hset; exact Hr | exact Hr].
Qed.

(** Ingesting an event that is not excluded keeps every row titled. *)
Lemma add_or_update_record_titled (h : host) (now : Z) (event : event_data)
  (person file : string) (d : db) :
  has_blank_summary event = false ->
  Forall (fun r => has_title r = true) (calendar_records d) ->
  Forall (fun r => has_title r = true)
         (calendar_records (snd (add_or_update_record h now event person file d))).
Proof.
  intros Hblank Hrows.
  assert (Htitle : str_truthy (strip (get_default (ev_summary event) "")) = true).
  { unfold has_blank_summary in Hblank. apply negb_false_iff. exact Hblank. }
  destruct (ev_event_id event) as [eid |] eqn:Hid.
  - destruct (str_truthy eid) eqn:Htruthy.
    + destruct (resolved_start_ok h event) as [new_start Hstart].
      destruct (resolved_end_ok h event) as [new_end Hend].
      rewrite (add_or_update_record_with_id h now event person file d eid
                 new_start new_end Hid Htruthy Hstart Hend).
      destruct (find (has_event_id eid) (calendar_records d)) as [existing |].
      * destruct (String.eqb (record_hash existing) (_generate_record_hash h event));
          [exact Hrows |].
        simpl. apply Forall_update_where; [| exact Hrows].
        intros r _. exact Htitle.
      * simpl. apply Forall_app. split; [exact Hrows |].
        constructor; [exact Htitle | constructor].
    + assert (Hempty : eid = "") by (destruct eid; [reflexivity | discriminate]).
      subst eid.
      rewrite add_or_update_record_without_id by (right; exact Hid). exact Hrows.
  - rewrite add_or_update_record_without_id by (left; exact Hid). exact Hrows.
Qed.

Lemma load_events_titled (h : host) (o : outside) (person path : string)
  (events : list event_data) :
  Forall (fun event => excluded event = false) events ->
  forall (w : world),
    Forall (fun r => has_title r = true) (calendar_records (tracker w)) ->
    Forall (fun r => has_title r = true)
           (calendar_records (tracker (fst (load_events h o person path events w)))).
Proof.
  unfold load_events. generalize 0 as added.
  induction events as [| event events IH]; intros added Hevents w Hrows;
    [exact Hrows |].
  inversion Hevents as [| ? ? Hevent Hrest]; subst.
  cbn [fold_left]. cbv beta iota.
  destruct (negb (is_cancelled event)); [| apply IH; assumption].
  unfold tracker_call.
  destruct (add_or_update_record h (current_timestamp o (tracker_calls w)) event
              person path (tracker w)) as [changed d'] eqn:Hcall.
  apply IH; [exact Hrest |]. simpl.
  pose proof (add_or_update_record_titled h (current_timestamp o (tracker_calls w))
                event person path (tracker w)) as Hkeep.
  rewrite Hcall in Hkeep. apply Hkeep; [| exact Hrows].
  unfold excluded in Hevent. apply orb_false_iff in Hevent. tauto.
Qed.

Lemma _load_calendar_records_titled (h : host) (o : outside)
  (files : list calendar_file_data) :
  Forall holds_no_excluded files ->
  forall (w : world),
    Forall (fun r => has_title r = true) (calendar_records (tracker w)) ->
    Forall (fun r => has_title r = true)
           (calendar_records (tracker (fst (_load_calendar_records h o files w)))).
Proof.
  unfold _load_calendar_records. generalize 0 as total.
  induction files as [| file files IH]; intros total Hfiles w Hrows; [exact Hrows |].
  inversion Hfiles as [| ? ? Hfile Hrest]; subst.
  cbn [fold_left]. cbv beta iota.
  destruct (file_items file) as [events |] eqn:Hitems; [| apply IH; assumption].
  pose proof (load_events_titled h o (path_stem h (file_path file)) (file_path file)
                events (Hfile events Hitems) w Hrows) as Hload.
  destruct (load_events h o (path_stem h (file_path file)) (file_path file) events w)
    as [w1 added].
  apply IH; [exact Hrest | exact Hload].
Qed.

Lemma mark_rows_Forall (P : calendar_record -> Prop) (o : outside)
  (set : Z -> calendar_record -> calendar_record) (event_ids : list string) :
  (forall now r, P r -> P (set now r)) ->
  forall (calls : nat) (rows : list calendar_record),
    Forall P rows -> Forall P (mark_rows o set calls event_ids rows).
Proof.
  intros Hset. induction event_ids as [| eid rest IH]; intros calls rows Hrows; simpl.
  - exact Hrows.
  - apply IH. apply Forall_update_where; [apply Hset | exact Hrows].
Qed.

Lemma has_title_set_by_result (result : option api_result) (now : Z)
  (r : calendar_record) :
  has_title (set_by_result result now r) = has_title r.
Proof.
  unfold set_by_result. destruct (upload_succeeded result); reflexivity.
Qed.

Lemma upload_batches_titled (o : outside) (batches : list (list calendar_record)) :
  forall (w : world) (n : counts),
    Forall (fun r => has_title r = true) (calendar_records (tracker w)) ->
    Forall (fun r => has_title r = true)
      (calendar_records (tracker (fst (fold_left
         (fun state batch => upload_one_batch o batch state) batches (w, n))))).
Proof.
  induction batches as [| batch batches IH]; intros w n Hrows; [exact Hrows |].
  cbn [fold_left]. cbv beta.
  destruct (upload_one_batch o batch (w, n)) as [w1 n1] eqn:Hstep.
  apply IH.
  pose proof (upload_one_batch_spec o batch w n) as Hone.
  cbv zeta in Hone. rewrite Hstep in Hone. cbn [fst] in Hone.
  destruct Hone as [_ [_ [_ Hrows1]]]. rewrite Hrows1.
  apply mark_rows_Forall; [| exact Hrows].
  intros now r Hr. rewrite has_title_set_by_result. exact Hr.
Qed.

Lemma _upload_pending_records_titled (o : outside) (config : schedule_config)
  (w : world) :
  Forall (fun r => has_title r = true) (calendar_records (tracker w)) ->
  Forall (fun r => has_title r = true)
         (calendar_records (tracker (snd (_upload_pending_records o config w)))).
Proof.
  intros Hrows. unfold _upload_pending_records.
  destruct (get_pending_records None None (tracker w)) as [| r rest];
    [exact Hrows |].
  destruct (py_range 0 (Z.of_nat (List.length (r :: rest))) (batch_size config))
    as [starts | e]; [| exact Hrows].
  rewrite <- (fold_left_over_map
                (fun state batch => upload_one_batch o batch state)
                (fun i => slice (r :: rest) i (i + batch_size config))).
  pose proof (upload_batches_titled o
                (map (fun i => slice (r :: rest) i (i + batch_size config)) starts)
                w {| uploaded_count := 0; failed_count := 0 |} Hrows) as Hloop.
  destruct (fold_left _ _ _) as [w' n']. exact Hloop.
Qed.

Lemma execute_main_task_titled (h : host) (o : outside) (config : schedule_config)
  (answer : option (list calendar_answer)) (state : directory * world) :
  Forall holds_no_excluded (fst state) ->
  Forall (fun r => has_title r = true) (calendar_records (tracker (snd state))) ->
  Forall holds_no_excluded (fst (execute_main_task h o config answer state))
  /\ Forall (fun r => has_title r = true)
       (calendar_records (tracker (snd (execute_main_task h o config answer state)))).
Proof.
  destruct state as [dir w]. cbn [fst snd]. intros Hdir Hrows.
  unfold execute_main_task.
  pose proof (fetch_calendar_data_holds_no_excluded h answer dir Hdir) as Hdir1.
  destruct (fetch_calendar_data h answer dir) as [fetched dir1]. cbn [snd] in Hdir1.
  destruct fetched; [| split; assumption].
  assert (Hglob : Forall holds_no_excluded (glob_calendar_files h dir1)).
  { unfold glob_calendar_files. apply Forall_forall. intros file Hin.
    apply filter_In in Hin. rewrite Forall_forall in Hdir1. apply Hdir1. tauto. }
  pose proof (_load_calendar_records_titled h o (glob_calendar_files h dir1)
                Hglob w Hrows) as Hload.
  destruct (_load_calendar_records h o (glob_calendar_files h dir1) w) as [w1 total].
  cbn [fst] in Hload.
  pose proof (_upload_pending_records_titled o config w1 Hload) as Hupload.
  destruct (_upload_pending_records o config w1) as [n w2].
  split; assumption.
Qed.

Lemma run_cycles_titled (h : host) (o : outside) (config : schedule_config)
  (answers : list (option (list calendar_answer))) :
  Forall holds_no_excluded (fst (run_cycles h o config answers))
  /\ Forall (fun r => has_title r = true)
       (calendar_records (tracker (snd (run_cycles h o config answers)))).
Proof.
  unfold run_cycles.
  assert (Hgen : forall state,
             Forall holds_no_excluded (fst state) ->
             Forall (fun r => has_title r = true)
                    (calendar_records (tracker (snd state))) ->
             Forall holds_no_excluded
               (fst (fold_left
                       (fun state answer => execute_main_task h o config answer state)
                       answers state))
             /\ Forall (fun r => has_title r = true)
                  (calendar_records (tracker (snd (fold_left
                     (fun state answer => execute_main_task h o config answer state)
                     answers state))))).
  { induction answers as [| answer answers IH]; intros state Hdir Hrows.
    - split; assumption.
    - cbn [fold_left].
      destruct (execute_main_task_titled h o config answer state Hdir Hrows)
        as [Hdir1 Hrows1].
      apply IH; assumption. }
  apply Hgen; constructor.
Qed.

(** C4: excluded events never produce a record. Over any sequence of runs
    of the orchestrator, started from an empty directory and an empty
    store:
    - the events of the calendar API that are cancelled, or whose title is
      empty or blank, leave no trace: the runs end in the same files and
      the same store as when the API had not returned these events;
    - no calendar file holds such an event and every row of the store has
      a title that is not blank: the fetcher drops both kinds before it
      writes a file;
    - the loader, on its own, skips the cancelled events of whatever file
      it reads. *)
Theorem excluded_events_produce_no_record :
  forall (h : host) (o : outside) (config : schedule_config)
         (answers : list (option (list calendar_answer)))
         (files : list calendar_file_data) (w : world),
    run_cycles h o config (map (option_map (map without_excluded)) answers)
    = run_cycles h o config answers
    /\ Forall holds_no_excluded (fst (run_cycles h o config answers))
    /\ Forall (fun r => has_title r = true)
         (calendar_records (tracker (snd (run_cycles h o config answers))))
    /\ _load_calendar_records h o (map without_cancelled files) w
       = _load_calendar_records h o files w.
Proof.
  intros h o config answers files w.
  split; [apply run_cycles_without_excluded |].
  destruct (run_cycles_titled h o config answers) as [Hdir Hrows].
  split; [exact Hdir |].
  split; [exact Hrows |].
  apply _load_calendar_records_without_cancelled.
Qed.

(** A run on an example: the API returns an event with a blank title and a
    titled one; only the titled one is written to the file and stored. *)
Example run_with_untitled_event :
  let state := run_cycles host_utc network_up SCHEDULE_CONFIG
                 [Some [answer_with_untitled]] in
  map file_items (fst state) = [Some [standup]]
  /\ map event_id (calendar_records (tracker (snd state))) = ["evt_1"]
  /\ map summary (calendar_records (tracker (snd state))) = ["Standup"].
Proof.
  vm_compute. repeat split; reflexivity.
Qed.

(** The loader and the store themselves do not look at the title: from a
    calendar file that holds an event with a blank title, however it got
    there, they make a row. *)
Example loader_stores_untitled_event :
  let w := fst (_load_calendar_records host_utc network_up [file_with_untitled]
                  initial_world) in
  map event_id (calendar_records (tracker w)) = ["evt_2"]
  /\ map summary (calendar_records (tracker w)) = ["   "]
  /\ map has_title (calendar_records (tracker w)) = [false].
Proof.
  vm_compute. repeat split; reflexivity.
Qed.

(** ** Further properties of the store and the cycle *)

Lemma find_none_not_in (eid : string) (rows : list calendar_record) :
  find (has_event_id eid) rows = None -> ~ In eid (map event_id rows).
Proof.
  induction rows as [| r rows IH]; simpl; intros Hfind; [tauto |].
  unfold has_event_id in Hfind at 1.
  destruct (String.eqb (event_id r) eid) eqn:Heq; [discriminate |].
  apply String.eqb_neq in Heq. intros [H | H]; [contradiction |].
  apply (IH Hfind). exact H.
Qed.

Lemma add_or_update_record_unique (h : host) (now : Z) (event : event_data)
  (person file : string) (d : db) :
  unique_event_ids d ->
  unique_event_ids (snd (add_or_update_record h now event person file d)).
Proof.
  intros Hunique.
  destruct (ev_event_id event) as [eid |] eqn:Hid.
  - destruct (str_truthy eid) eqn:Htruthy.
    + destruct (resolved_start_ok h event) as [new_start Hstart].
      destruct (resolved_end_ok h event) as [new_end Hend].
      rewrite (add_or_update_record_with_id h now event person file d eid
                 new_start new_end Hid Htruthy Hstart Hend).
      destruct (find (has_event_id eid) (calendar_records d)) as [existing |]
        eqn:Hfind.
      * destruct (String.eqb (record_hash existing) (_generate_record_hash h event));
          [exact Hunique |].
        unfold unique_event_ids. simpl.
        rewrite map_event_id_update_where; [exact Hunique | reflexivity].
      * unfold unique_event_ids. simpl. rewrite map_app. simpl.
        apply NoDup_app_parts_inv; [exact Hunique | |].
        -- constructor; [intros [] | constructor].
        -- intros x Hin [<- | []]. apply (find_none_not_in _ _ Hfind). exact Hin.
    + assert (Hempty : eid = "") by (destruct eid; [reflexivity | discriminate]).
      subst eid.
      rewrite add_or_update_record_without_id by (right; exact Hid). exact Hunique.
  - rewrite add_or_update_record_without_id by (left; exact Hid). exact Hunique.
Qed.

Lemma load_events_unique (h : host) (o : outside) (person path : string)
  (events : list event_data) :
  forall (w : world),
    unique_event_ids (tracker w) ->
    unique_event_ids (tracker (fst (load_events h o person path events w))).
Proof.
  unfold load_events. generalize 0 as added.
  induction events as [| event events IH]; intros added w Hunique; [exact Hunique |].
  cbn [fold_left]. cbv beta iota.
  destruct (negb (is_cancelled event)); [| apply IH; exact Hunique].
  unfold tracker_call.
  destruct (add_or_update_record h (current_timestamp o (tracker_calls w)) event
              person path (tracker w)) as [changed d'] eqn:Hcall.
  apply IH. simpl.
  pose proof (add_or_update_record_unique h (current_timestamp o (tracker_calls w))
                event person path (tracker w) Hunique) as Hkeep.
  rewrite Hcall in Hkeep. exact Hkeep.
Qed.

Lemma _load_calendar_records_unique (h : host) (o : outside)
  (files : list calendar_file_data) :
  forall (w : world),
    unique_event_ids (tracker w) ->
    unique_event_ids (tracker (fst (_load_calendar_records h o files w))).
Proof.
  unfold _load_calendar_records. generalize 0 as total.
  induction files as [| file files IH]; intros total w Hunique; [exact Hunique |].
  cbn [fold_left]. cbv beta iota.
  destruct (file_items file) as [events |]; [| apply IH; exact Hunique].
  pose proof (load_events_unique h o (path_stem h (file_path file)) (file_path file)
                events w Hunique) as Hload.
  destruct (load_events h o (path_stem h (file_path file)) (file_path file) events w)
    as [w1 added].
  apply IH. exact Hload.
Qed.

Lemma upload_batches_event_ids (o : outside) (batches : list (list calendar_record)) :
  forall (w : world) (n : counts),
    map event_id (calendar_records (tracker (fst (fold_left
      (fun state batch => upload_one_batch o batch state) batches (w, n)))))
    = map event_id (calendar_records (tracker w)).
Proof.
  induction batches as [| batch batches IH]; intros w n; [reflexivity |].
  cbn [fold_left]. cbv beta.
  destruct (upload_one_batch o batch (w, n)) as [w1 n1] eqn:Hstep.
  rewrite IH.
  pose proof (upload_one_batch_spec o batch w n) as Hone.
  cbv zeta in Hone. rewrite Hstep in Hone. cbn [fst] in Hone.
  destruct Hone as [_ [_ [_ Hrows1]]]. rewrite Hrows1.
  apply mark_rows_event_ids. intros now r. apply event_id_set_by_result.
Qed.

Lemma _upload_pending_records_event_ids (o : outside) (config : schedule_config)
  (w : world) :
  map event_id (calendar_records (tracker (snd (_upload_pending_records o config w))))
  = map event_id (calendar_records (tracker w)).
Proof.
  unfold _upload_pending_records.
  destruct (get_pending_records None None (tracker w)) as [| r rest];
    [reflexivity |].
  destruct (py_range 0 (Z.of_nat (List.length (r :: rest))) (batch_size config))
    as [starts | e]; [| reflexivity].
  rewrite <- (fold_left_over_map
                (fun state batch => upload_one_batch o batch state)
                (fun i => slice (r :: rest) i (i + batch_size config))).
  pose proof (upload_batches_event_ids o
                (map (fun i => slice (r :: rest) i (i + batch_size config)) starts)
                w {| uploaded_count := 0; failed_count := 0 |}) as Hloop.
  destruct (fold_left _ _ _) as [w' n']. exact Hloop.
Qed.

Lemma execute_main_task_unique (h : host) (o : outside) (config : schedule_config)
  (answer : option (list calendar_answer)) (state : directory * world) :
  unique_event_ids (tracker (snd state)) ->
  unique_event_ids (tracker (snd (execute_main_task h o config answer state))).
Proof.
  destruct state as [dir w]. cbn [snd]. intros Hunique.
  unfold execute_main_task.
  destruct (fetch_calendar_data h answer dir) as [fetched dir1].
  destruct fetched; [| exact Hunique].
  pose proof (_load_calendar_records_unique h o (glob_calendar_files h dir1)
                w Hunique) as Hload.
  destruct (_load_calendar_records h o (glob_calendar_files h dir1) w) as [w1 total].
  cbn [fst] in Hload.
  pose proof (_upload_pending_records_event_ids o config w1) as Hids.
  destruct (_upload_pending_records o config w1) as [n w2].
  cbn [snd] in *. unfold unique_event_ids. rewrite Hids. exact Hload.
Qed.

(** Uniqueness: whatever the calendar API answers over any number of runs,
    no two rows of the store share an [event_id]; and ingesting an event
    into a store with that property keeps it, so an event whose
    [event_id] is already stored never makes a second row. *)
Theorem event_ids_stay_unique :
  forall (h : host) (o : outside) (config : schedule_config)
         (answers : list (option (list calendar_answer)))
         (now : Z) (event : event_data) (person file : string) (d : db),
    unique_event_ids (tracker (snd (run_cycles h o config answers)))
    /\ (unique_event_ids d ->
        unique_event_ids (snd (add_or_update_record h now event person file d))).
Proof.
  intros h o config answers now event person file d. split.
  - unfold run_cycles.
    assert (Hgen : forall state,
               unique_event_ids (tracker (snd state)) ->
               unique_event_ids (tracker (snd (fold_left
                 (fun state answer => execute_main_task h o config answer state)
                 answers state)))).
    { induction answers as [| answer answers IH]; intros state Hunique.
      - exact Hunique.
      - cbn [fold_left]. apply IH. apply execute_main_task_unique. exact Hunique. }
    apply Hgen. constructor.
  - apply add_or_update_record_unique.
Qed.

Lemma upload_batches_counts (o : outside) (batches : list (list calendar_record)) :
  forall (w : world) (n : counts),
    let n' := snd (fold_left (fun state batch => upload_one_batch o batch state)
                             batches (w, n)) in
    uploaded_count n' + failed_count n'
    = uploaded_count n + failed_count n
      + Z.of_nat (List.length (List.concat batches)).
Proof.
  induction batches as [| batch batches IH]; intros w n; cbv zeta.
  - simpl. lia.
  - cbn [fold_left]. cbv beta.
    destruct (upload_one_batch o batch (w, n)) as [w1 n1] eqn:Hstep.
    specialize (IH w1 n1). cbv zeta in IH. rewrite IH.
    simpl List.concat. rewrite length_app, Nat2Z.inj_add.
    unfold upload_one_batch, uploader_call in Hstep.
    destruct (upload_succeeded _) in Hstep; injection Hstep as _ <-;
      simpl; rewrite length_map; lia.
Qed.

(** The totals the cycle reports: with a batch size above zero, every
    record that was pending at the start is counted once, as uploaded or as
    failed; no totals are reported only when nothing was pending. *)
Theorem cycle_counts_every_pending_record :
  forall (o : outside) (config : schedule_config) (w : world),
    0 < batch_size config ->
    match fst (_upload_pending_records o config w) with
    | Some n =>
        uploaded_count n + failed_count n
        = Z.of_nat (List.length (get_pending_records None None (tracker w)))
    | None => get_pending_records None None (tracker w) = []
    end.
Proof.
  intros o config w Hsize. unfold _upload_pending_records.
  destruct (get_pending_records None None (tracker w)) as [| r rest] eqn:Hpending;
    [reflexivity |].
  destruct (py_range_batches (r :: rest) (batch_size config) Hsize)
    as [starts [Hrange Hslices]].
  rewrite Hrange.
  rewrite <- (fold_left_over_map
                (fun state batch => upload_one_batch o batch state)
                (fun i => slice (r :: rest) i (i + batch_size config))).
  rewrite Hslices.
  pose proof (upload_batches_counts o (chunks (Z.to_nat (batch_size config)) (r :: rest))
                w {| uploaded_count := 0; failed_count := 0 |}) as Hcounts.
  cbv zeta in Hcounts.
  destruct (fold_left _ _ _) as [w' n']. cbn [fst snd] in *.
  rewrite Hcounts. simpl uploaded_count. simpl failed_count.
  unfold chunks. rewrite chunks_upto_concat; [lia | lia | apply le_n].
Qed.

(** The totals on the store that holds one pending event. *)
Lemma cycle_counts_every_pending_record_witness :
  fst (_upload_pending_records network_up SCHEDULE_CONFIG world_standup_pending)
  = Some {| uploaded_count := 1; failed_count := 0 |}
  /\ match fst (_upload_pending_records network_up SCHEDULE_CONFIG
                  world_standup_pending) with
     | Some n =>
         uploaded_count n + failed_count n
         = Z.of_nat (List.length
                       (get_pending_records None None (tracker world_standup_pending)))
     | None => get_pending_records None None (tracker world_standup_pending) = []
     end.
Proof.
  split; [reflexivity |].
  apply (cycle_counts_every_pending_record network_up SCHEDULE_CONFIG
           world_standup_pending).
  reflexivity.
Defined.

(** [mark_as_failed] takes a row of any status to [failed]: it returns
    [True] exactly when a row with the [event_id] exists; every such row
    then has the status [failed], the time of the call as [upload_time] and
    [updated_time], and the error message behind the prefix ["FAILED: "] as
    [upload_result]; other rows and the log table are as before. *)
Theorem mark_as_failed_any_status :
  forall (now : Z) (eid error_message : string) (d : db),
    let out := mark_as_failed now eid error_message d in
    (fst out = true <-> exists r, In r (calendar_records d) /\ event_id r = eid)
    /\ rows_changed_for eid
         (marked failed now ("FAILED: " ++ error_message)%string)
         (calendar_records d) (calendar_records (snd out))
    /\ upload_logs (snd out) = upload_logs d.
Proof.
  intros now eid error_message d out. subst out.
  split; [| split].
  - rewrite <- existsb_has_event_id. unfold mark_as_failed. cbn [fst].
    rewrite rowcount_pos. tauto.
  - apply rows_changed_for_update. intros r. apply set_failed_marked.
  - reflexivity.
Qed.

(** The uploader's conversion of an event leaves out, in this order, a
    cancelled event, an event whose title is empty or blank, and an event
    whose start does not resolve; any other event becomes a record with
    its title, its start, its end (the start when the end does not resolve
    or is zero) and the person. *)
Theorem convert_event_to_record_exclusions :
  forall (h : host) (event : event_data) (person : string),
    (ev_status event = Some "cancelled" ->
     convert_event_to_record h event person = None)
    /\ (has_blank_summary event = true ->
        convert_event_to_record h event person = None)
    /\ (parse_timestamp_to_ms h (get_default (ev_start_time event) (JObj []))
        = Ok None ->
        convert_event_to_record h event person = None)
    /\ (forall (start : Z) (finish : option Z),
          ev_status event <> Some "cancelled" ->
          has_blank_summary event = false ->
          parse_timestamp_to_ms h (get_default (ev_start_time event) (JObj []))
          = Ok (Some start) ->
          parse_timestamp_to_ms h (get_default (ev_end_time event) (JObj []))
          = Ok finish ->
          convert_event_to_record h event person
          = Some {| Summary := get_default (ev_summary event) "";
                    Start_Time := Some start;
                    End_Time := or_else finish (Some start);
                    Person := person |}).
Proof.
  intros h event person.
  unfold convert_event_to_record, convert_event_to_record_body, has_blank_summary.
  split; [| split; [| split]].
  - intros ->. reflexivity.
  - intros Hblank.
    destruct (String.eqb (get_default (ev_status event) "") "cancelled");
      [reflexivity |].
    rewrite Hblank. reflexivity.
  - intros Hstart.
    destruct (String.eqb (get_default (ev_status event) "") "cancelled");
      [reflexivity |].
    destruct (negb (str_truthy (strip (get_default (ev_summary event) ""))));
      [reflexivity |].
    rewrite Hstart. cbn [bind].
    destruct (parse_timestamp_to_ms h (get_default (ev_end_time event) (JObj [])));
      reflexivity.
  - intros start finish Hstatus Hblank Hstart Hend.
    assert (Hnot : String.eqb (get_default (ev_status event) "") "cancelled" = false).
    { apply String.eqb_neq. intros Heq. apply Hstatus.
      destruct (ev_status event) as [s |]; simpl in Heq;
        [rewrite Heq; reflexivity | discriminate]. }
    rewrite Hnot, Hblank, Hstart, Hend. reflexivity.
Qed.

(** The conversion on the examples: a titled event is converted, with the
    start as its end when the end is missing; an event with a blank title,
    a cancelled one and one without a start are left out. *)
Example convert_event_to_record_examples :
  convert_event_to_record host_utc standup "Ann"
  = Some {| Summary := "Standup"; Start_Time := Some 1700000000000;
            End_Time := Some 1700000000000; Person := "Ann" |}
  /\ convert_event_to_record host_utc untitled "Ann" = None
  /\ convert_event_to_record host_utc
       {| ev_event_id := Some "evt_3"; ev_summary := Some "Review";
          ev_status := Some "cancelled"; ev_description := None;
          ev_start_time := Some time_with_timestamp; ev_end_time := None |} "Ann"
     = None
  /\ convert_event_to_record host_utc
       {| ev_event_id := Some "evt_4"; ev_summary := Some "Review";
          ev_status := Some "confirmed"; ev_description := None;
          ev_start_time := Some time_with_neither; ev_end_time := None |} "Ann"
     = None
  /\ convert_event_to_record host_utc
       {| ev_event_id := Some "evt_5"; ev_summary := Some "Review";
          ev_status := None; ev_description := None;
          ev_start_time := Some time_with_timestamp; ev_end_time := None |} "Ann"
     = Some {| Summary := "Review"; Start_Time := Some 1700000000000;
               End_Time := Some 1700000000000; Person := "Ann" |}.
Proof.
  repeat split; reflexivity.
Qed.

(** ** Statistics and administrative operations *)

Lemma insert_sorted_perm (name : string) (names : list string) :
  Permutation (insert_sorted name names) (name :: names).
Proof.
  induction names as [| x names IH]; simpl.
  - apply Permutation_refl.
  - destruct (String.compare name x); try apply Permutation_refl.
    eapply Permutation_trans; [apply perm_skip; exact IH | apply perm_swap].
Qed.

Lemma insert_name_spec (name : string) (names : list string) :
  NoDup names ->
  NoDup (insert_name name names)
  /\ (forall x, In x (insert_name name names) <-> x = name \/ In x names).
Proof.
  intros Hnodup. unfold insert_name.
  destruct (existsb (String.eqb name) names) eqn:Hmem.
  - split; [exact Hnodup |].
    apply existsb_exists in Hmem. destruct Hmem as [y [Hy Heq]].
    apply String.eqb_eq in Heq. subst y.
    intros x. split; [tauto | intros [-> | H]; assumption].
  - assert (Hfresh : ~ In name names).
    { intros Hin. apply Bool.not_true_iff_false in Hmem. apply Hmem.
      apply existsb_exists. exists name. split; [exact Hin | apply String.eqb_refl]. }
    split.
    + eapply Permutation_NoDup;
        [apply Permutation_sym; apply insert_sorted_perm |].
      constructor; assumption.
    + intros x. split; intros H.
      * apply (Permutation_in _ (insert_sorted_perm name names)) in H.
        destruct H as [<- | H]; [left; reflexivity | right; exact H].
      * apply (Permutation_in _ (Permutation_sym (insert_sorted_perm name names))).
        destruct H as [-> | H]; [left; reflexivity | right; exact H].
Qed.

Lemma person_names_spec (rows : list calendar_record) :
  NoDup (person_names rows)
  /\ (forall x, In x (person_names rows) <-> exists r, In r rows /\ person_name r = x).
Proof.
  unfold person_names. induction rows as [| r rows [IHnodup IHin]]; simpl.
  - split; [constructor |]. intros x. split; [intros [] | intros [r [[] _]]].
  - destruct (insert_name_spec (person_name r) _ IHnodup) as [Hnodup Hin].
    split; [exact Hnodup |].
    intros x. rewrite Hin, IHin. split.
    + intros [-> | [r' [Hr' Hx]]]; [exists r; auto | exists r'; auto].
    + intros [r' [[<- | Hr'] Hx]]; [left; auto | right; exists r'; auto].
Qed.

Lemma count_where_cons (condition : calendar_record -> bool) (r : calendar_record)
  (rows : list calendar_record) :
  count_where condition (r :: rows)
  = (if condition r then 1 else 0) + count_where condition rows.
Proof.
  unfold count_where. simpl. destruct (condition r); simpl List.length; lia.
Qed.

(** Over names that hold the name of a row once, one group takes the row. *)
Lemma sum_of_one_group (P : bool) (r : calendar_record) (names : list string) :
  NoDup names -> In (person_name r) names ->
  sum_of (map (fun name => if of_person name r && P then 1 else 0) names)
  = if P then 1 else 0.
Proof.
  unfold of_person.
  induction names as [| x names IH]; simpl; intros Hnodup Hin; [contradiction |].
  inversion Hnodup as [| ? ? Hfresh Hrest]; subst.
  destruct Hin as [-> | Hin].
  - rewrite String.eqb_refl. simpl.
    assert (Hzero : sum_of (map (fun name =>
                       if String.eqb (person_name r) name && P then 1 else 0) names)
                    = 0).
    { clear IH Hrest Hnodup.
      induction names as [| y names IHn]; simpl; [reflexivity |].
      destruct (String.eqb (person_name r) y) eqn:Heq.
      - apply String.eqb_eq in Heq. exfalso. apply Hfresh. left. symmetry. exact Heq.
      - simpl. apply IHn. intros H. apply Hfresh. right. exact H. }
    rewrite Hzero. lia.
  - destruct (String.eqb (person_name r) x) eqn:Heq.
    + apply String.eqb_eq in Heq. exfalso. apply Hfresh. rewrite <- Heq. exact Hin.
    + simpl. apply IH; assumption.
Qed.

Lemma sum_of_map_add {A : Type} (f g : A -> Z) (l : list A) :
  sum_of (map (fun x => f x + g x) l) = sum_of (map f l) + sum_of (map g l).
Proof.
  induction l as [| x l IH]; simpl; lia.
Qed.

(** The groups share out the rows: summed over the persons, the counts of
    the rows of a person that a condition keeps give the count of all the
    rows it keeps. *)
Lemma sum_over_persons (P : calendar_record -> bool) (names : list string)
  (rows : list calendar_record) :
  NoDup names ->
  (forall r, In r rows -> In (person_name r) names) ->
  sum_of (map (fun name => count_where (fun r => of_person name r && P r) rows) names)
  = count_where P rows.
Proof.
  intros Hnodup. induction rows as [| r rows IH]; intros Hall.
  - unfold count_where. simpl. clear Hnodup Hall.
    induction names as [| x names IHn]; simpl; [reflexivity | exact IHn].
  - rewrite count_where_cons.
    rewrite (map_ext _ (fun name =>
               (if of_person name r && P r then 1 else 0)
               + count_where (fun r0 => of_person name r0 && P r0) rows))
      by (intros name; apply count_where_cons).
    rewrite sum_of_map_add.
    rewrite sum_of_one_group by (try exact Hnodup; apply Hall; left; reflexivity).
    rewrite IH by (intros r' Hr'; apply Hall; right; exact Hr').
    reflexivity.
Qed.

Lemma insert_by_total_perm (g : person_stat) (groups : list person_stat) :
  Permutation (insert_by_total g groups) (g :: groups).
Proof.
  induction groups as [| x groups IH]; simpl.
  - apply Permutation_refl.
  - destruct (stat_total x <=? stat_total g).
    + apply Permutation_refl.
    + eapply Permutation_trans; [apply perm_skip; exact IH | apply perm_swap].
Qed.

Lemma order_by_total_desc_perm (groups : list person_stat) :
  Permutation (order_by_total_desc groups) groups.
Proof.
  unfold order_by_total_desc. induction groups as [| g groups IH]; simpl.
  - apply Permutation_refl.
  - eapply Permutation_trans; [apply insert_by_total_perm |].
    apply perm_skip. exact IH.
Qed.

Lemma insert_by_total_sorted (g : person_stat) (groups : list person_stat) :
  StronglySorted by_total_desc groups ->
  StronglySorted by_total_desc (insert_by_total g groups).
Proof.
  induction groups as [| x groups IH]; simpl; intros Hsorted.
  - constructor; constructor.
  - destruct (stat_total x <=? stat_total g) eqn:Hle.
    + apply Z.leb_le in Hle. constructor; [exact Hsorted |].
      inversion Hsorted as [| ? ? Hrest Hall]; subst.
      constructor; [exact Hle |].
      eapply Forall_impl; [| exact Hall].
      unfold by_total_desc. intros; lia.
    + apply Z.leb_gt in Hle.
      inversion Hsorted as [| ? ? Hrest Hall]; subst.
      constructor; [apply IH; exact Hrest |].
      eapply Permutation_Forall;
        [apply Permutation_sym; apply insert_by_total_perm |].
      constructor; [unfold by_total_desc; lia | exact Hall].
Qed.

Lemma sum_of_perm (l l' : list Z) : Permutation l l' -> sum_of l = sum_of l'.
Proof.
  intros H. induction H; simpl; lia.
Qed.

Lemma sum_of_person_stats (column : person_stat -> Z) (P : calendar_record -> bool)
  (d : db) :
  (forall name,
      column (person_group (calendar_records d) name)
      = count_where (fun r => of_person name r && P r) (calendar_records d)) ->
  sum_of (map column (snd (get_upload_statistics d)))
  = count_where P (calendar_records d).
Proof.
  intros Hcolumn. unfold get_upload_statistics. cbn [snd].
  rewrite (sum_of_perm _ _ (Permutation_map column (order_by_total_desc_perm _))).
  rewrite map_map.
  rewrite (map_ext _ _ Hcolumn).
  destruct (person_names_spec (calendar_records d)) as [Hnodup Hin].
  apply sum_over_persons; [exact Hnodup |].
  intros r Hr. apply Hin. exists r. auto.
Qed.

Lemma count_by_status (rows : list calendar_record) :
  count_where is_pending rows + count_where is_uploaded rows
  + count_where is_failed rows
  = Z.of_nat (List.length rows).
Proof.
  induction rows as [| r rows IH]; [reflexivity |].
  rewrite !count_where_cons.
  change (List.length (r :: rows)) with (S (List.length rows)).
  rewrite Nat2Z.inj_succ. rewrite <- IH.
  unfold is_pending, is_uploaded, is_failed.
  destruct (upload_status r); cbn [status_eqb]; lia.
Qed.

Lemma count_where_all (rows : list calendar_record) :
  count_where (fun _ => true) rows = Z.of_nat (List.length rows).
Proof.
  unfold count_where. f_equal. f_equal.
  induction rows as [| r rows IH]; simpl; [reflexivity | rewrite IH; reflexivity].
Qed.

(** Statistics: the totals are the numbers of rows of each status and add
    up to the number of rows; over an empty table the three sums are
    absent ([None]) and not zero. The persons are listed once each, by
    falling total, and their totals and their counts per status add up to
    the totals of the table. *)
Theorem statistics_add_up :
  forall (d : db),
    let totals := fst (get_upload_statistics d) in
    let persons := snd (get_upload_statistics d) in
    total_records totals = Z.of_nat (List.length (calendar_records d))
    /\ (calendar_records d = [] ->
        pending_count totals = None /\ stats_uploaded_count totals = None
        /\ stats_failed_count totals = None)
    /\ (calendar_records d <> [] ->
        pending_count totals = Some (count_where is_pending (calendar_records d))
        /\ stats_uploaded_count totals
           = Some (count_where is_uploaded (calendar_records d))
        /\ stats_failed_count totals
           = Some (count_where is_failed (calendar_records d)))
    /\ count_where is_pending (calendar_records d)
       + count_where is_uploaded (calendar_records d)
       + count_where is_failed (calendar_records d)
       = total_records totals
    /\ NoDup (map stat_person_name persons)
    /\ StronglySorted by_total_desc persons
    /\ sum_of (map stat_total persons) = total_records totals
    /\ sum_of (map stat_pending persons) = count_where is_pending (calendar_records d)
    /\ sum_of (map stat_uploaded persons)
       = count_where is_uploaded (calendar_records d)
    /\ sum_of (map stat_failed persons) = count_where is_failed (calendar_records d).
Proof.
  intros d totals persons. subst totals persons.
  split; [reflexivity |].
  split; [intros Hempty; simpl; rewrite Hempty; auto |].
  split.
  { intros Hrows. simpl. destruct (calendar_records d); [contradiction | auto]. }
  split; [apply count_by_status |].
  split.
  { unfold get_upload_statistics. cbn [snd].
    eapply Permutation_NoDup.
    - apply Permutation_map. apply Permutation_sym. apply order_by_total_desc_perm.
    - rewrite map_map. simpl. rewrite map_id.
      apply person_names_spec. }
  split.
  { unfold get_upload_statistics, order_by_total_desc. cbn [snd].
    induction (map (person_group (calendar_records d))
                   (person_names (calendar_records d))) as [| g groups IH]; simpl.
    - constructor.
    - apply insert_by_total_sorted. exact IH. }
  split.
  { rewrite (sum_of_person_stats stat_total (fun _ => true)).
    - apply count_where_all.
    - intros name. simpl. unfold count_where. f_equal. f_equal.
      apply filter_ext. intros r. rewrite andb_true_r. reflexivity. }
  split; [apply sum_of_person_stats; reflexivity |].
  split; apply sum_of_person_stats; reflexivity.
Qed.

(** The statistics of the example store, as the engine lists them. *)
Example statistics_of_four_persons :
  fst (get_upload_statistics db_of_four_persons)
  = {| total_records := 6; pending_count := Some 3;
       stats_uploaded_count := Some 2; stats_failed_count := Some 1 |}
  /\ map (fun g => (stat_person_name g, stat_total g))
         (snd (get_upload_statistics db_of_four_persons))
     = [("bob", 2); ("zed", 2); ("amy", 1); ("cat", 1)]
  /\ fst (get_upload_statistics empty_db)
     = {| total_records := 0; pending_count := None;
          stats_uploaded_count := None; stats_failed_count := None |}.
Proof.
  repeat split; reflexivity.
Qed.

(** The administrative operations. [reset_all_records_to_pending] returns
    the number of rows that were [uploaded] or [failed] and sets exactly
    those back to [pending], after which every row is [pending];
    [reset_failed_records] leaves an [uploaded] row as it is;
    [clear_all_records] empties both tables and returns the number of log
    rows it deleted. *)
Theorem administrative_operations :
  forall (now : Z) (d : db),
    fst (reset_all_records_to_pending now d)
    = count_where (fun r => is_uploaded r || is_failed r) (calendar_records d)
    /\ Forall2 (fun old new =>
                 if is_uploaded old || is_failed old
                 then reset_to_pending now old new else new = old)
         (calendar_records d)
         (calendar_records (snd (reset_all_records_to_pending now d)))
    /\ Forall (fun r => upload_status r = pending)
         (calendar_records (snd (reset_all_records_to_pending now d)))
    /\ (forall r, In r (calendar_records d) -> upload_status r = uploaded ->
                  In r (calendar_records (snd (reset_failed_records now d))))
    /\ calendar_records (snd (clear_all_records d)) = []
    /\ upload_logs (snd (clear_all_records d)) = []
    /\ fst (clear_all_records d) = Z.of_nat (List.length (upload_logs d)).
Proof.
  intros now d.
  split; [reflexivity |].
  split.
  { simpl. eapply Forall2_impl; [| apply Forall2_update_where].
    intros old new ->. destruct (is_uploaded old || is_failed old);
      [apply set_reset_pending | reflexivity]. }
  split.
  { simpl. unfold update_where. apply Forall_map. apply Forall_forall.
    intros r _. unfold is_uploaded, is_failed.
    destruct (upload_status r) eqn:Hstatus; simpl; auto. }
  split.
  { intros r Hin Hstatus. simpl. apply in_update_where_other; [exact Hin |].
    unfold is_failed. rewrite Hstatus. reflexivity. }
  repeat split.
Qed.

(* ================================================================== *)
(** * The two upload paths and what a call of the store means *)

(** ** Time extraction in the store and in the transport *)

Lemma parse_timestamp_to_ms_as_extract (h : host) (time_data : json) :
  parse_timestamp_to_ms h time_data = _extract_timestamp h time_data.
Proof.
  unfold parse_timestamp_to_ms, _extract_timestamp, parse_timestamp_to_ms_body,
    extract_timestamp_body.
  destruct time_data as [| b | n | f | s | items | d]; simpl;
    repeat match goal with
           | |- context [if ?c then _ else _] => destruct c; simpl
           | |- context [match dict_lookup ?k ?d with _ => _ end] =>
               destruct (dict_lookup k d); simpl
           end;
    reflexivity.
Qed.

(** The tracker and the direct uploader read a time value alike: on every
    value, a dictionary or not, [parse_timestamp_to_ms] returns what
    [_extract_timestamp] returns, so the start and the end the uploader
    puts in a record are the ones the store resolves. The key ["timezone"]
    the uploader looks up changes nothing. *)
Theorem time_extraction_agrees :
  forall (h : host) (time_data : json) (event : event_data),
    parse_timestamp_to_ms h time_data = _extract_timestamp h time_data
    /\ parse_timestamp_to_ms h (get_default (ev_start_time event) (JObj []))
       = resolved_start h event
    /\ parse_timestamp_to_ms h (get_default (ev_end_time event) (JObj []))
       = resolved_end h event.
Proof.
  intros h time_data event. repeat split; apply parse_timestamp_to_ms_as_extract.
Qed.

Lemma to_upload_record_summary (row : calendar_record) :
  Summary (to_upload_record row) = summary row.
Proof.
  unfold to_upload_record. simpl.
  destruct (summary row); reflexivity.
Qed.

(** What [convert_event_to_record] returns when it returns a record. *)
Lemma convert_event_to_record_some (h : host) (event : event_data)
  (person : string) (record : upload_record) :
  convert_event_to_record h event person = Some record ->
  exists start finish,
    parse_timestamp_to_ms h (get_default (ev_start_time event) (JObj []))
    = Ok (Some start)
    /\ parse_timestamp_to_ms h (get_default (ev_end_time event) (JObj []))
       = Ok finish
    /\ record = {| Summary := get_default (ev_summary event) "";
                   Start_Time := Some start;
                   End_Time := or_else finish (Some start);
                   Person := person |}.
Proof.
  unfold convert_event_to_record, convert_event_to_record_body.
  destruct (String.eqb (get_default (ev_status event) "") "cancelled");
    [discriminate |].
  destruct (negb (str_truthy (strip (get_default (ev_summary event) ""))));
    [discriminate |].
  destruct (try_except_none_ok
              (parse_timestamp_to_ms_body h (get_default (ev_start_time event) (JObj []))))
    as [start Hstart].
  destruct (try_except_none_ok
              (parse_timestamp_to_ms_body h (get_default (ev_end_time event) (JObj []))))
    as [finish Hend].
  fold (parse_timestamp_to_ms h (get_default (ev_start_time event) (JObj []))) in Hstart.
  fold (parse_timestamp_to_ms h (get_default (ev_end_time event) (JObj []))) in Hend.
  rewrite Hstart, Hend. simpl.
  destruct start as [start |]; [| discriminate].
  intros [= <-]. exists start, finish. repeat split.
Qed.

(** The two upload paths build the same record. For an event the direct
    uploader converts, the tracker path (the event stored by
    [add_or_update_record] as a new row, the row turned into a record by
    the upload cycle) sends the record [convert_event_to_record] builds. *)
Theorem upload_paths_build_same_record :
  forall (h : host) (now : Z) (event : event_data) (person file : string) (d : db)
         (eid : string) (record : upload_record),
    ev_event_id event = Some eid ->
    str_truthy eid = true ->
    find (has_event_id eid) (calendar_records d) = None ->
    convert_event_to_record h event person = Some record ->
    exists row,
      find (has_event_id eid)
           (calendar_records (snd (add_or_update_record h now event person file d)))
      = Some row
      /\ upload_status row = pending
      /\ to_upload_record row = record.
Proof.
  intros h now event person file d eid record Hid Htruthy Hnew Hconvert.
  destruct (convert_event_to_record_some h event person record Hconvert)
    as [start [finish [Hstart [Hend ->]]]].
  rewrite parse_timestamp_to_ms_as_extract in Hstart, Hend.
  rewrite (add_or_update_record_with_id h now event person file d eid
             (Some start) finish Hid Htruthy Hstart Hend).
  rewrite Hnew. cbn [snd calendar_records].
  eexists. split; [| split].
  - apply find_app_none; [exact Hnew |].
    unfold has_event_id. simpl. apply String.eqb_refl.
  - reflexivity.
  - unfold to_upload_record. simpl.
    destruct (get_default (ev_summary event) ""); reflexivity.
Qed.

(** The two paths on the example event. *)
Lemma upload_paths_build_same_record_witness :
  exists row,
    find (has_event_id "evt_1")
         (calendar_records
            (snd (add_or_update_record host_utc 100 standup "Ann" "ann.txt" empty_db)))
    = Some row
    /\ upload_status row = pending
    /\ to_upload_record row
       = {| Summary := "Standup"; Start_Time := Some 1700000000000;
            End_Time := Some 1700000000000; Person := "Ann" |}.
Proof.
  apply (upload_paths_build_same_record host_utc 100 standup "Ann" "ann.txt"
           empty_db "evt_1"); reflexivity.
Defined.

(** ** What the value of [add_or_update_record] tells *)

(** The value [add_or_update_record] returns tells whether the store
    changed. [False]: the database is as it was. [True]: the event has an
    identifier, the store holds one row for it that is among the records
    [get_pending_records] returns, and that row carries the title of the
    event (whatever it is), its resolved times, the file name and the
    fingerprint; for an identifier that was not stored the row is new, at
    the end of the table, under the next rowid, with the person given and
    the time of the call as its creation time; for one that was stored the
    row keeps its rowid, its person and its creation time, and its
    fingerprint was another. *)
Theorem add_or_update_record_result_meaning :
  forall (h : host) (now : Z) (event : event_data) (person file : string) (d : db),
    let out := add_or_update_record h now event person file d in
    (fst out = false -> snd out = d)
    /\ (fst out = true ->
        exists eid row,
          ev_event_id event = Some eid
          /\ str_truthy eid = true
          /\ find (has_event_id eid) (calendar_records (snd out)) = Some row
          /\ In row (get_pending_records None None (snd out))
          /\ summary row = get_default (ev_summary event) ""
          /\ resolved_start h event = Ok (start_time row)
          /\ resolved_end h event = Ok (end_time row)
          /\ calendar_file row = file
          /\ record_hash row = _generate_record_hash h event
          /\ updated_time row = now
          /\ upload_time row = None
          /\ upload_result row = None
          /\ match find (has_event_id eid) (calendar_records d) with
             | None =>
                 calendar_records (snd out) = calendar_records d ++ [row]
                 /\ id row = calendar_records_seq d + 1
                 /\ calendar_records_seq (snd out) = calendar_records_seq d + 1
                 /\ person_name row = person
                 /\ created_time row = now
             | Some existing =>
                 record_hash existing <> _generate_record_hash h event
                 /\ same_identity existing row
                 /\ calendar_records_seq (snd out) = calendar_records_seq d
                 /\ List.length (calendar_records (snd out))
                    = List.length (calendar_records d)
             end).
Proof.
  intros h now event person file d out. subst out.
  destruct (ev_event_id event) as [eid |] eqn:Hid.
  2: { rewrite add_or_update_record_without_id by (left; exact Hid).
       split; [reflexivity | discriminate]. }
  destruct (str_truthy eid) eqn:Htruthy.
  2: { assert (Hempty : eid = "") by (destruct eid; [reflexivity | discriminate]).
       subst eid.
       rewrite add_or_update_record_without_id by (right; exact Hid).
       split; [reflexivity | discriminate]. }
  destruct (resolved_start_ok h event) as [new_start Hstart].
  destruct (resolved_end_ok h event) as [new_end Hend].
  rewrite (add_or_update_record_with_id h now event person file d eid
             new_start new_end Hid Htruthy Hstart Hend).
  destruct (find (has_event_id eid) (calendar_records d)) as [existing |] eqn:Hfind.
  - destruct (String.eqb (record_hash existing) (_generate_record_hash h event))
      eqn:Hhash.
    + split; [reflexivity | discriminate].
    + split; [discriminate |]. intros _.
      assert (Hrow : find (has_event_id eid)
                       (update_where (has_event_id eid)
                          (set_changed now (get_default (ev_summary event) "")
                             new_start new_end file (_generate_record_hash h event))
                          (calendar_records d))
                     = Some (set_changed now (get_default (ev_summary event) "")
                               new_start new_end file (_generate_record_hash h event)
                               existing)).
      { rewrite find_update_where by (intros; apply has_event_id_set_changed).
        rewrite Hfind. reflexivity. }
      exists eid. eexists. cbn [snd fst calendar_records set_calendar_records].
      split; [first [exact Hid | reflexivity] |].
      split; [first [exact Htruthy | reflexivity] |].
      split; [exact Hrow |].
      split.
      { apply in_get_pending_records_all. split; [| reflexivity].
        apply find_some in Hrow. exact (proj1 Hrow). }
      rewrite Hfind. simpl. unfold same_identity. simpl.
      repeat split; try assumption.
      * apply String.eqb_neq. exact Hhash.
      * unfold update_where. apply length_map.
  - split; [discriminate |]. intros _.
    exists eid. eexists. cbn [snd fst calendar_records].
    split; [first [exact Hid | reflexivity] |].
      split; [first [exact Htruthy | reflexivity] |].
    assert (Hrow : forall r, has_event_id eid r = true ->
                     find (has_event_id eid) (calendar_records d ++ [r]) = Some r).
    { intros r Hr. apply find_app_none; assumption. }
    split; [apply Hrow; unfold has_event_id; simpl; apply String.eqb_refl |].
    split.
    { apply in_get_pending_records_all. split; [| reflexivity].
      simpl. apply in_or_app. right. left. reflexivity. }
    rewrite Hfind. simpl. repeat split; assumption.
Qed.

(* ================================================================== *)
(** * What a run keeps *)

(** ** Rows are kept *)

Lemma same_identity_refl (r : calendar_record) : same_identity r r.
Proof.
  unfold same_identity. tauto.
Qed.

Lemma same_identity_trans (a b c : calendar_record) :
  same_identity a b -> same_identity b c -> same_identity a c.
Proof.
  unfold same_identity. intros [H1 [H2 [H3 H4]]] [H5 [H6 [H7 H8]]].
  repeat split; congruence.
Qed.

Lemma Forall2_same_identity_refl (rows : list calendar_record) :
  Forall2 same_identity rows rows.
Proof.
  induction rows; constructor; [apply same_identity_refl | assumption].
Qed.

Lemma Forall2_same_identity_trans (a : list calendar_record) :
  forall b c : list calendar_record,
    Forall2 same_identity a b -> Forall2 same_identity b c ->
    Forall2 same_identity a c.
Proof.
  induction a as [| x a IH]; intros b c Hab Hbc.
  - inversion Hab; subst. inversion Hbc; subst. constructor.
  - inversion Hab as [| ? y ? b' Hxy Hab']; subst.
    inversion Hbc as [| ? z ? c' Hyz Hbc']; subst.
    constructor; [eapply same_identity_trans; eassumption | eapply IH; eassumption].
Qed.

Lemma rows_kept_refl (rows : list calendar_record) : rows_kept rows rows.
Proof.
  exists rows, []. split; [symmetry; apply app_nil_r |].
  apply Forall2_same_identity_refl.
Qed.

Lemma rows_kept_trans (a b c : list calendar_record) :
  rows_kept a b -> rows_kept b c -> rows_kept a c.
Proof.
  intros [kb [ab [-> Hab]]] [kc [ac [-> Hbc]]].
  apply Forall2_app_inv_l in Hbc.
  destruct Hbc as [kc1 [kc2 [Hk1 [Hk2 ->]]]].
  exists kc1, (kc2 ++ ac). split; [symmetry; apply app_assoc |].
  eapply Forall2_same_identity_trans; eassumption.
Qed.

Lemma rows_kept_appended (rows added : list calendar_record) :
  rows_kept rows (rows ++ added).
Proof.
  exists rows, added. split; [reflexivity | apply Forall2_same_identity_refl].
Qed.

Lemma rows_kept_update_where (condition : calendar_record -> bool)
  (set : calendar_record -> calendar_record) (rows : list calendar_record) :
  (forall r, same_identity r (set r)) ->
  rows_kept rows (update_where condition set rows).
Proof.
  intros Hset. exists (update_where condition set rows), [].
  split; [symmetry; apply app_nil_r |].
  eapply Forall2_impl; [| apply Forall2_update_where].
  intros old new ->. destruct (condition old);
    [apply Hset | apply same_identity_refl].
Qed.

Lemma rows_kept_in (old_rows new_rows : list calendar_record) (r : calendar_record) :
  rows_kept old_rows new_rows -> In r old_rows ->
  exists r', In r' new_rows /\ same_identity r r'.
Proof.
  intros [kept [added [-> Hkept]]] Hin.
  induction Hkept as [| x y old kept' Hxy Hrest IH]; [contradiction |].
  destruct Hin as [-> | Hin].
  - exists y. split; [left; reflexivity | exact Hxy].
  - destruct (IH Hin) as [r' [Hr' Hsame]].
    exists r'. split; [right; exact Hr' | exact Hsame].
Qed.

Lemma add_or_update_record_kept (h : host) (now : Z) (event : event_data)
  (person file : string) (d : db) :
  rows_kept (calendar_records d)
            (calendar_records (snd (add_or_update_record h now event person file d))).
Proof.
  destruct (ev_event_id event) as [eid |] eqn:Hid.
  - destruct (str_truthy eid) eqn:Htruthy.
    + destruct (resolved_start_ok h event) as [new_start Hstart].
      destruct (resolved_end_ok h event) as [new_end Hend].
      rewrite (add_or_update_record_with_id h now event person file d eid
                 new_start new_end Hid Htruthy Hstart Hend).
      destruct (find (has_event_id eid) (calendar_records d)) as [existing |].
      * destruct (String.eqb (record_hash existing) (_generate_record_hash h event));
          [apply rows_kept_refl |].
        simpl. apply rows_kept_update_where. intros r.
        unfold same_identity. simpl. tauto.
      * simpl. apply rows_kept_appended.
    + assert (Hempty : eid = "") by (destruct eid; [reflexivity | discriminate]).
      subst eid.
      rewrite add_or_update_record_without_id by (right; exact Hid).
      apply rows_kept_refl.
  - rewrite add_or_update_record_without_id by (left; exact Hid).
    apply rows_kept_refl.
Qed.

(** The loader as the sequence of its calls. *)
Lemma load_events_steps (h : host) (o : outside) (person path : string)
  (events : list event_data) (w : world) :
  fst (load_events h o person path events w)
  = fold_left (load_step h o)
      (map (fun event => (person, path, event))
           (filter (fun event => negb (is_cancelled event)) events))
      w.
Proof.
  unfold load_events. generalize 0 as added. revert w.
  induction events as [| event events IH]; intros w added; [reflexivity |].
  cbn [fold_left filter]. cbv beta iota.
  destruct (negb (is_cancelled event)).
  - cbn [map fold_left]. unfold load_step at 2.
    destruct (tracker_call o
                (fun now => add_or_update_record h now event person path) w)
      as [changed w1].
    cbn [snd]. apply IH.
  - apply IH.
Qed.

Lemma _load_calendar_records_steps (h : host) (o : outside)
  (files : list calendar_file_data) (w : world) :
  fst (_load_calendar_records h o files w)
  = fold_left (load_step h o) (load_steps h files) w.
Proof.
  unfold _load_calendar_records, load_steps. generalize 0 as total. revert w.
  induction files as [| file files IH]; intros w total; [reflexivity |].
  cbn [fold_left flat_map]. cbv beta iota.
  rewrite fold_left_app.
  destruct (file_items file) as [events |].
  - rewrite <- load_events_steps.
    destruct (load_events h o (path_stem h (file_path file)) (file_path file)
                events w) as [w1 added].
    cbn [fst]. apply IH.
  - cbn [fold_left]. apply IH.
Qed.

Lemma load_step_kept (h : host) (o : outside) (w : world)
  (step : string * string * event_data) :
  rows_kept (calendar_records (tracker w))
            (calendar_records (tracker (load_step h o w step)))
  /\ sent (load_step h o w step) = sent w.
Proof.
  destruct step as [[person path] event]. unfold load_step, tracker_call.
  pose proof (add_or_update_record_kept h (current_timestamp o (tracker_calls w))
                event person path (tracker w)) as Hkept.
  destruct (add_or_update_record h (current_timestamp o (tracker_calls w)) event
              person path (tracker w)) as [changed d'].
  split; [exact Hkept | reflexivity].
Qed.

Lemma load_steps_kept (h : host) (o : outside)
  (steps : list (string * string * event_data)) :
  forall w : world,
    rows_kept (calendar_records (tracker w))
              (calendar_records (tracker (fold_left (load_step h o) steps w)))
    /\ sent (fold_left (load_step h o) steps w) = sent w.
Proof.
  induction steps as [| step steps IH]; intros w.
  - split; [apply rows_kept_refl | reflexivity].
  - cbn [fold_left].
    destruct (load_step_kept h o w step) as [Hkept Hsent].
    destruct (IH (load_step h o w step)) as [Hkept' Hsent'].
    split; [eapply rows_kept_trans; eassumption | congruence].
Qed.

Lemma same_identity_set_by_result (result : option api_result) (now : Z)
  (r : calendar_record) :
  same_identity r (set_by_result result now r).
Proof.
  unfold set_by_result, same_identity.
  destruct (upload_succeeded result); simpl; tauto.
Qed.

Lemma mark_rows_kept (o : outside) (set : Z -> calendar_record -> calendar_record)
  (event_ids : list string) :
  (forall now r, same_identity r (set now r)) ->
  forall (calls : nat) (rows : list calendar_record),
    rows_kept rows (mark_rows o set calls event_ids rows).
Proof.
  intros Hset.
  induction event_ids as [| eid rest IH]; intros calls rows; simpl.
  - apply rows_kept_refl.
  - eapply rows_kept_trans; [| apply IH].
    apply rows_kept_update_where. intros r. apply Hset.
Qed.

Lemma upload_batches_kept (o : outside) (batches : list (list calendar_record)) :
  forall (w : world) (n : counts),
    rows_kept (calendar_records (tracker w))
      (calendar_records (tracker (fst (fold_left
         (fun state batch => upload_one_batch o batch state) batches (w, n))))).
Proof.
  induction batches as [| batch batches IH]; intros w n; [apply rows_kept_refl |].
  cbn [fold_left]. cbv beta.
  destruct (upload_one_batch o batch (w, n)) as [w1 n1] eqn:Hstep.
  eapply rows_kept_trans; [| apply IH].
  pose proof (upload_one_batch_spec o batch w n) as Hone.
  cbv zeta in Hone. rewrite Hstep in Hone. cbn [fst] in Hone.
  destruct Hone as [_ [_ [_ Hrows1]]]. rewrite Hrows1.
  apply mark_rows_kept. intros now r. apply same_identity_set_by_result.
Qed.

Lemma _upload_pending_records_kept (o : outside) (config : schedule_config)
  (w : world) :
  rows_kept (calendar_records (tracker w))
    (calendar_records (tracker (snd (_upload_pending_records o config w)))).
Proof.
  unfold _upload_pending_records.
  destruct (get_pending_records None None (tracker w)) as [| r rest];
    [apply rows_kept_refl |].
  destruct (py_range 0 (Z.of_nat (List.length (r :: rest))) (batch_size config))
    as [starts | e]; [| apply rows_kept_refl].
  rewrite <- (fold_left_over_map
                (fun state batch => upload_one_batch o batch state)
                (fun i => slice (r :: rest) i (i + batch_size config))).
  pose proof (upload_batches_kept o
                (map (fun i => slice (r :: rest) i (i + batch_size config)) starts)
                w {| uploaded_count := 0; failed_count := 0 |}) as Hloop.
  destruct (fold_left _ _ _) as [w' n']. exact Hloop.
Qed.

Lemma execute_main_task_kept (h : host) (o : outside) (config : schedule_config)
  (answer : option (list calendar_answer)) (state : directory * world) :
  rows_kept (calendar_records (tracker (snd state)))
    (calendar_records (tracker (snd (execute_main_task h o config answer state)))).
Proof.
  destruct state as [dir w]. cbn [snd]. unfold execute_main_task.
  destruct (fetch_calendar_data h answer dir) as [fetched dir1].
  destruct fetched; [| apply rows_kept_refl].
  pose proof (_load_calendar_records_steps h o (glob_calendar_files h dir1) w)
    as Hsteps.
  destruct (_load_calendar_records h o (glob_calendar_files h dir1) w) as [w1 total].
  cbn [fst] in Hsteps.
  pose proof (_upload_pending_records_kept o config w1) as Hupload.
  destruct (_upload_pending_records o config w1) as [n w2].
  cbn [snd] in *.
  eapply rows_kept_trans; [| exact Hupload].
  rewrite Hsteps. apply load_steps_kept.
Qed.

(** Over any number of runs of the orchestrator, from any state, no row of
    the store is deleted or moved, and no row changes its rowid, its
    [event_id], its [person_name] or its [created_time]: the table after
    the runs is the table before them, row by row with those columns as
    they were, followed by the rows added. A stored event that later comes
    in the calendar file of another person so stays with the person it was
    stored under first. *)
Theorem rows_keep_identity :
  forall (h : host) (o : outside) (config : schedule_config)
         (answers : list (option (list calendar_answer)))
         (state : directory * world),
    let state' := fold_left (fun state answer =>
                               execute_main_task h o config answer state)
                            answers state in
    rows_kept (calendar_records (tracker (snd state)))
              (calendar_records (tracker (snd state')))
    /\ (forall r, In r (calendar_records (tracker (snd state))) ->
          exists r', In r' (calendar_records (tracker (snd state')))
                     /\ id r' = id r /\ event_id r' = event_id r
                     /\ person_name r' = person_name r
                     /\ created_time r' = created_time r)
    /\ (List.length (calendar_records (tracker (snd state)))
        <= List.length (calendar_records (tracker (snd state'))))%nat.
Proof.
  intros h o config answers state state'. subst state'.
  assert (Hkept : rows_kept (calendar_records (tracker (snd state)))
            (calendar_records (tracker (snd (fold_left
               (fun state answer => execute_main_task h o config answer state)
               answers state))))).
  { revert state. induction answers as [| answer answers IH]; intros state.
    - apply rows_kept_refl.
    - cbn [fold_left]. eapply rows_kept_trans; [| apply IH].
      apply execute_main_task_kept. }
  split; [exact Hkept | split].
  - intros r Hin. destruct (rows_kept_in _ _ r Hkept Hin) as [r' [Hr' Hsame]].
    exists r'. split; [exact Hr' | exact Hsame].
  - destruct Hkept as [kept [added [-> Hkept]]].
    rewrite length_app. apply Forall2_length in Hkept. lia.
Qed.

(** ** After a cycle *)

Lemma filter_is_pending_none (rows : list calendar_record) :
  Forall (fun r => upload_status r <> pending) rows -> filter is_pending rows = [].
Proof.
  induction 1 as [| r rows Hr Hrows IH]; simpl; [reflexivity |].
  destruct (is_pending r) eqn:Hp; [| exact IH].
  apply is_pending_iff in Hp. contradiction.
Qed.

Lemma marked_by_result_not_pending (result : option api_result) (now : Z)
  (old new : calendar_record) :
  marked_by_result result now old new -> upload_status new <> pending.
Proof.
  unfold marked_by_result, marked.
  destruct (upload_succeeded result); intros [Hstatus _]; rewrite Hstatus;
    discriminate.
Qed.

(** With a batch size above zero and one row per [event_id], no row is
    pending after a cycle. *)
Lemma _upload_pending_records_none_pending (o : outside) (config : schedule_config)
  (w : world) :
  0 < batch_size config ->
  unique_event_ids (tracker w) ->
  Forall (fun r => upload_status r <> pending)
         (calendar_records (tracker (snd (_upload_pending_records o config w)))).
Proof.
  intros Hsize Hunique.
  destruct (_upload_pending_records_spec o config w Hsize Hunique)
    as [Hconcat [_ [_ [Hhit [Hother Hids]]]]].
  assert (Hunique' : NoDup (map event_id
            (calendar_records (tracker (snd (_upload_pending_records o config w)))))).
  { rewrite Hids. exact Hunique. }
  apply Forall_forall. intros r' Hr'.
  assert (Hid : In (event_id r') (map event_id (calendar_records (tracker w)))).
  { rewrite <- Hids. apply in_map. exact Hr'. }
  apply in_map_iff in Hid. destruct Hid as [r [Heq Hr]].
  destruct (status_eqb (upload_status r) pending) eqn:Hstatus.
  - apply status_eqb_eq in Hstatus.
    assert (Hpending : In r (get_pending_records None None (tracker w))).
    { apply in_get_pending_records_all. split; assumption. }
    rewrite <- Hconcat in Hpending. apply in_concat in Hpending.
    destruct Hpending as [batch [Hbatch Hin]].
    apply In_nth_error in Hbatch. destruct Hbatch as [k Hk].
    destruct (Hhit k batch r Hk Hin) as [now [new [Hfind Hmarked]]].
    rewrite Heq in Hfind.
    rewrite (find_unique _ r' Hunique' Hr') in Hfind. injection Hfind as <-.
    eapply marked_by_result_not_pending. exact Hmarked.
  - assert (Hnot : upload_status r <> pending).
    { intros H. apply status_eqb_eq in H. congruence. }
    pose proof (Hother r Hr Hnot) as Hkept.
    rewrite (unique_event_ids_same_row _ r' r Hunique' Hr' Hkept (eq_sym Heq)).
    exact Hnot.
Qed.

Lemma _upload_pending_records_nothing_pending (o : outside) (config : schedule_config)
  (w : world) :
  get_pending_records None None (tracker w) = [] ->
  _upload_pending_records o config w = (None, w).
Proof.
  intros Hnone. unfold _upload_pending_records. rewrite Hnone. reflexivity.
Qed.

(** A cycle leaves nothing pending. With a batch size above zero and a
    store that holds each [event_id] once, after [_upload_pending_records]
    every row is [uploaded] or [failed], [get_pending_records] returns the
    empty list, and a second cycle run at once calls the uploader for
    nothing and changes nothing: a record whose upload failed is not sent
    again until it is reset or its event changes. *)
Theorem cycle_leaves_nothing_pending :
  forall (o : outside) (config : schedule_config) (w : world),
    0 < batch_size config ->
    unique_event_ids (tracker w) ->
    let w' := snd (_upload_pending_records o config w) in
    Forall (fun r => upload_status r = uploaded \/ upload_status r = failed)
           (calendar_records (tracker w'))
    /\ get_pending_records None None (tracker w') = []
    /\ _upload_pending_records o config w' = (None, w').
Proof.
  intros o config w Hsize Hunique w'. subst w'.
  pose proof (_upload_pending_records_none_pending o config w Hsize Hunique) as Hnone.
  assert (Hempty : get_pending_records None None
                     (tracker (snd (_upload_pending_records o config w))) = []).
  { rewrite get_pending_records_all.
    rewrite (filter_is_pending_none _ Hnone). reflexivity. }
  split; [| split].
  - eapply Forall_impl; [| exact Hnone].
    intros r Hr.
    destruct (upload_status r) eqn:E; [congruence | left; reflexivity | right; reflexivity].
  - exact Hempty.
  - apply _upload_pending_records_nothing_pending. exact Hempty.
Qed.

(** The cycle on the store that holds one pending event. *)
Lemma cycle_leaves_nothing_pending_witness :
  let w' := snd (_upload_pending_records network_up SCHEDULE_CONFIG
                   world_standup_pending) in
  Forall (fun r => upload_status r = uploaded \/ upload_status r = failed)
         (calendar_records (tracker w'))
  /\ get_pending_records None None (tracker w') = []
  /\ _upload_pending_records network_up SCHEDULE_CONFIG w' = (None, w').
Proof.
  apply (cycle_leaves_nothing_pending network_up SCHEDULE_CONFIG
           world_standup_pending).
  - reflexivity.
  - apply unique_event_ids_standup.
Defined.

(** A batch size that is not above zero stops every upload. With the batch
    size 0 the cycle ends on the [ValueError] of [range] and reports
    nothing; with a batch size below zero the loop over the batches is
    empty and the cycle reports 0 uploaded and 0 failed. Either way the
    uploader is not called and the store is as it was: what is pending
    stays pending. *)
Theorem nonpositive_batch_size_uploads_nothing :
  forall (o : outside) (config : schedule_config) (w : world),
    batch_size config <= 0 ->
    snd (_upload_pending_records o config w) = w
    /\ (batch_size config = 0 -> fst (_upload_pending_records o config w) = None)
    /\ (batch_size config < 0 ->
        get_pending_records None None (tracker w) <> [] ->
        fst (_upload_pending_records o config w)
        = Some {| uploaded_count := 0; failed_count := 0 |}).
Proof.
  intros o config w Hsize. unfold _upload_pending_records.
  destruct (get_pending_records None None (tracker w)) as [| r rest].
  - repeat split; try reflexivity. intros _ H. contradiction.
  - unfold py_range.
    destruct (batch_size config =? 0) eqn:Hzero.
    + apply Z.eqb_eq in Hzero. repeat split; try reflexivity. lia.
    + apply Z.eqb_neq in Hzero.
      replace (0 <? batch_size config) with false
        by (symmetry; apply Z.ltb_ge; lia).
      replace (Z.to_nat (0 - Z.of_nat (List.length (r :: rest)))) with O by lia.
      simpl. repeat split; try reflexivity. intros H. contradiction.
Qed.

(** The cycle with the batch size 0 on the store that holds one pending
    event. *)
Lemma nonpositive_batch_size_uploads_nothing_witness :
  get_pending_records None None (tracker world_standup_pending) <> []
  /\ snd (_upload_pending_records network_up config_without_batches
            world_standup_pending) = world_standup_pending.
Proof.
  split; [discriminate |].
  apply (nonpositive_batch_size_uploads_nothing network_up config_without_batches
           world_standup_pending).
  discriminate.
Defined.

(** ** Files that did not change *)

Lemma has_identifier_some (event : event_data) :
  has_identifier event = true ->
  exists eid, ev_event_id event = Some eid /\ str_truthy eid = true
              /\ event_id_of event = eid.
Proof.
  unfold has_identifier, event_id_of.
  destruct (ev_event_id event) as [eid |]; [| discriminate].
  intros H. exists eid. repeat split. exact H.
Qed.

Lemma has_identifier_none (event : event_data) :
  has_identifier event = false ->
  ev_event_id event = None \/ ev_event_id event = Some "".
Proof.
  unfold has_identifier.
  destruct (ev_event_id event) as [eid |]; [| left; reflexivity].
  destruct eid; [right; reflexivity | discriminate].
Qed.

Lemma filter_filter_events (p q : event_data -> bool) (events : list event_data) :
  filter q (filter p events) = filter (fun event => p event && q event) events.
Proof.
  induction events as [| event events IH]; simpl; [reflexivity |].
  destruct (p event); simpl; [| exact IH].
  destruct (q event); rewrite IH; reflexivity.
Qed.

(** The events with an identifier among the calls of the loader. *)
Lemma loaded_events_steps (h : host) (files : list calendar_file_data) :
  filter has_identifier (map snd (load_steps h files)) = loaded_events files.
Proof.
  unfold load_steps, loaded_events.
  induction files as [| file files IH]; [reflexivity |].
  cbn [flat_map]. rewrite map_app, filter_app, IH. f_equal.
  destruct (file_items file) as [events |]; [| reflexivity].
  rewrite map_map. cbn [snd]. rewrite map_id. apply filter_filter_events.
Qed.

Lemma find_has_event_id_other (eid eid' : string)
  (set : calendar_record -> calendar_record) (rows : list calendar_record) :
  eid' <> eid ->
  (forall r, event_id (set r) = event_id r) ->
  find (has_event_id eid') (update_where (has_event_id eid) set rows)
  = find (has_event_id eid') rows.
Proof.
  intros Hother Hset. unfold update_where.
  induction rows as [| r rows IH]; simpl; [reflexivity |].
  rewrite IH.
  assert (H : has_event_id eid' (if has_event_id eid r then set r else r)
              = has_event_id eid' r).
  { destruct (has_event_id eid r); [| reflexivity].
    unfold has_event_id. rewrite Hset. reflexivity. }
  rewrite H.
  destruct (has_event_id eid' r) eqn:Hr'; [| reflexivity].
  destruct (has_event_id eid r) eqn:Hr; [| reflexivity].
  exfalso. unfold has_event_id in Hr, Hr'.
  apply String.eqb_eq in Hr. apply String.eqb_eq in Hr'. congruence.
Qed.

Lemma find_app_some (condition : calendar_record -> bool)
  (rows added : list calendar_record) (r : calendar_record) :
  find condition rows = Some r -> find condition (rows ++ added) = Some r.
Proof.
  induction rows as [| x rows IH]; simpl; [discriminate |].
  destruct (condition x); [auto | exact IH].
Qed.

(** A call for one event leaves the events of other identifiers as the
    table holds them. *)
Lemma add_or_update_record_holds_other (h : host) (now : Z) (event : event_data)
  (person file : string) (d : db) (other : event_data) :
  event_id_of other <> event_id_of event ->
  holds_unchanged h (calendar_records d) other ->
  holds_unchanged h
    (calendar_records (snd (add_or_update_record h now event person file d))) other.
Proof.
  intros Hother Hholds.
  destruct (has_identifier event) eqn:Hident.
  - destruct (has_identifier_some event Hident) as [eid [Hid [Htruthy Heid]]].
    rewrite Heid in Hother.
    destruct (resolved_start_ok h event) as [new_start Hstart].
    destruct (resolved_end_ok h event) as [new_end Hend].
    rewrite (add_or_update_record_with_id h now event person file d eid
               new_start new_end Hid Htruthy Hstart Hend).
    destruct (find (has_event_id eid) (calendar_records d)) as [existing |].
    + destruct (String.eqb (record_hash existing) (_generate_record_hash h event));
        [exact Hholds |].
      unfold holds_unchanged in *. cbn [snd calendar_records set_calendar_records].
      rewrite find_has_event_id_other; [exact Hholds | exact Hother | reflexivity].
    + unfold holds_unchanged in *. cbn [snd calendar_records].
      destruct Hholds as [r [Hfind Hhash]]. exists r.
      split; [apply find_app_some; exact Hfind | exact Hhash].
  - rewrite add_or_update_record_without_id
      by (apply has_identifier_none; exact Hident).
    exact Hholds.
Qed.

Lemma add_or_update_record_holds (h : host) (now : Z) (event : event_data)
  (person file : string) (d : db) :
  has_identifier event = true ->
  holds_unchanged h
    (calendar_records (snd (add_or_update_record h now event person file d))) event.
Proof.
  intros Hident.
  destruct (has_identifier_some event Hident) as [eid [Hid [Htruthy Heid]]].
  unfold holds_unchanged. rewrite Heid.
  apply add_or_update_record_stores_hash; assumption.
Qed.

Lemma tracker_load_step (h : host) (o : outside) (w : world) (person path : string)
  (event : event_data) :
  tracker (load_step h o w (person, path, event))
  = snd (add_or_update_record h (current_timestamp o (tracker_calls w)) event
           person path (tracker w)).
Proof.
  unfold load_step, tracker_call.
  destruct (add_or_update_record h (current_timestamp o (tracker_calls w)) event
              person path (tracker w)) as [changed d'].
  reflexivity.
Qed.

(** After the calls of the loader the table holds, under its fingerprint,
    every event passed with an identifier, when no two of them share one. *)
Lemma load_steps_hold (h : host) (o : outside)
  (steps : list (string * string * event_data)) :
  forall (done : list event_data) (w : world),
    Forall (holds_unchanged h (calendar_records (tracker w))) done ->
    NoDup (map event_id_of (done ++ filter has_identifier (map snd steps))) ->
    Forall (holds_unchanged h
              (calendar_records (tracker (fold_left (load_step h o) steps w))))
           (done ++ filter has_identifier (map snd steps)).
Proof.
  induction steps as [| [[person path] event] steps IH]; intros done w Hdone Hnodup.
  - simpl. rewrite app_nil_r. exact Hdone.
  - cbn [fold_left map snd filter] in *.
    destruct (has_identifier event) eqn:Hident.
    + replace (done ++ event :: filter has_identifier (map snd steps))
        with ((done ++ [event]) ++ filter has_identifier (map snd steps)) in *
        by (rewrite <- app_assoc; reflexivity).
      apply IH; [| exact Hnodup].
      rewrite tracker_load_step.
      apply Forall_app. split.
      * rewrite map_app, map_app in Hnodup.
        apply NoDup_app_parts in Hnodup. destruct Hnodup as [Hnd _].
        apply NoDup_app_parts in Hnd. destruct Hnd as [_ [_ Hdisjoint]].
        apply Forall_forall. intros other Hin.
        apply add_or_update_record_holds_other.
        -- intros Heq. apply (Hdisjoint (event_id_of other)).
           ++ apply in_map. exact Hin.
           ++ simpl. left. symmetry. exact Heq.
        -- rewrite Forall_forall in Hdone. apply Hdone. exact Hin.
      * constructor; [| constructor].
        apply add_or_update_record_holds. exact Hident.
    + apply IH; [| exact Hnodup].
      rewrite tracker_load_step.
      rewrite add_or_update_record_without_id
        by (apply has_identifier_none; exact Hident).
      exact Hdone.
Qed.

(** Calls of the loader for events the table holds unchanged change
    nothing but the number of calls made. *)
Lemma load_steps_unchanged (h : host) (o : outside)
  (steps : list (string * string * event_data)) :
  forall w : world,
    Forall (holds_unchanged h (calendar_records (tracker w)))
           (filter has_identifier (map snd steps)) ->
    tracker (fold_left (load_step h o) steps w) = tracker w
    /\ sent (fold_left (load_step h o) steps w) = sent w.
Proof.
  induction steps as [| [[person path] event] steps IH]; intros w Hholds.
  - split; reflexivity.
  - cbn [fold_left map snd filter] in *.
    assert (Hstep : tracker (load_step h o w (person, path, event)) = tracker w).
    { rewrite tracker_load_step.
      destruct (has_identifier event) eqn:Hident.
      - destruct (has_identifier_some event Hident) as [eid [Hid [Htruthy Heid]]].
        inversion Hholds as [| ? ? [r [Hfind Hhash]] _]; subst.
        rewrite (add_or_update_record_unchanged h _ event person path (tracker w)
                   _ r Hid Htruthy Hfind Hhash).
        reflexivity.
      - rewrite add_or_update_record_without_id
          by (apply has_identifier_none; exact Hident).
        reflexivity. }
    destruct (IH (load_step h o w (person, path, event))) as [Htracker Hsent].
    + rewrite Hstep.
      destruct (has_identifier event); [inversion Hholds; assumption | exact Hholds].
    + split; [congruence |].
      rewrite Hsent. apply (proj2 (load_step_kept h o w (person, path, event))).
Qed.

(** The event and its fingerprint stay with a row through the marks of a
    cycle. *)
Lemma find_has_event_id_map (eid : string) (f : calendar_record -> calendar_record)
  (rows : list calendar_record) :
  (forall r, event_id (f r) = event_id r) ->
  find (has_event_id eid) (map f rows) = option_map f (find (has_event_id eid) rows).
Proof.
  intros Hf. induction rows as [| r rows IH]; simpl; [reflexivity |].
  assert (H : has_event_id eid (f r) = has_event_id eid r)
    by (unfold has_event_id; rewrite Hf; reflexivity).
  rewrite H. destruct (has_event_id eid r); [reflexivity | exact IH].
Qed.

Lemma holds_unchanged_update_where (h : host) (condition : calendar_record -> bool)
  (set : calendar_record -> calendar_record) (rows : list calendar_record)
  (event : event_data) :
  (forall r, event_id (set r) = event_id r) ->
  (forall r, record_hash (set r) = record_hash r) ->
  holds_unchanged h rows event ->
  holds_unchanged h (update_where condition set rows) event.
Proof.
  intros Hid Hhash [r [Hfind Hr]]. unfold holds_unchanged, update_where.
  rewrite find_has_event_id_map, Hfind.
  - simpl. eexists. split; [reflexivity |].
    destruct (condition r); [rewrite Hhash |]; exact Hr.
  - intros x. destruct (condition x); [apply Hid | reflexivity].
Qed.

Lemma record_hash_set_by_result (result : option api_result) (now : Z)
  (r : calendar_record) :
  record_hash (set_by_result result now r) = record_hash r.
Proof.
  unfold set_by_result. destruct (upload_succeeded result); reflexivity.
Qed.

Lemma mark_rows_hold (h : host) (o : outside) (result : option api_result)
  (event_ids : list string) (event : event_data) :
  forall (calls : nat) (rows : list calendar_record),
    holds_unchanged h rows event ->
    holds_unchanged h (mark_rows o (set_by_result result) calls event_ids rows) event.
Proof.
  induction event_ids as [| eid rest IH]; intros calls rows Hholds; simpl.
  - exact Hholds.
  - apply IH. apply holds_unchanged_update_where; [| | exact Hholds]; intros r.
    + apply event_id_set_by_result.
    + apply record_hash_set_by_result.
Qed.

Lemma upload_batches_hold (h : host) (o : outside)
  (batches : list (list calendar_record)) (event : event_data) :
  forall (w : world) (n : counts),
    holds_unchanged h (calendar_records (tracker w)) event ->
    holds_unchanged h
      (calendar_records (tracker (fst (fold_left
         (fun state batch => upload_one_batch o batch state) batches (w, n)))))
      event.
Proof.
  induction batches as [| batch batches IH]; intros w n Hholds; [exact Hholds |].
  cbn [fold_left]. cbv beta.
  destruct (upload_one_batch o batch (w, n)) as [w1 n1] eqn:Hstep.
  apply IH.
  pose proof (upload_one_batch_spec o batch w n) as Hone.
  cbv zeta in Hone. rewrite Hstep in Hone. cbn [fst] in Hone.
  destruct Hone as [_ [_ [_ Hrows1]]]. rewrite Hrows1.
  apply mark_rows_hold. exact Hholds.
Qed.

Lemma _upload_pending_records_hold (h : host) (o : outside) (config : schedule_config)
  (w : world) (event : event_data) :
  holds_unchanged h (calendar_records (tracker w)) event ->
  holds_unchanged h
    (calendar_records (tracker (snd (_upload_pending_records o config w)))) event.
Proof.
  intros Hholds. unfold _upload_pending_records.
  destruct (get_pending_records None None (tracker w)) as [| r rest];
    [exact Hholds |].
  destruct (py_range 0 (Z.of_nat (List.length (r :: rest))) (batch_size config))
    as [starts | e]; [| exact Hholds].
  rewrite <- (fold_left_over_map
                (fun state batch => upload_one_batch o batch state)
                (fun i => slice (r :: rest) i (i + batch_size config))).
  pose proof (upload_batches_hold h o
                (map (fun i => slice (r :: rest) i (i + batch_size config)) starts)
                event w {| uploaded_count := 0; failed_count := 0 |} Hholds) as Hloop.
  destruct (fold_left _ _ _) as [w' n']. exact Hloop.
Qed.

Lemma nothing_pending_after_cycle (o : outside) (config : schedule_config)
  (w : world) :
  0 < batch_size config ->
  unique_event_ids (tracker w) ->
  get_pending_records None None (tracker (snd (_upload_pending_records o config w)))
  = []
  /\ _upload_pending_records o config (snd (_upload_pending_records o config w))
     = (None, snd (_upload_pending_records o config w)).
Proof.
  intros Hsize Hunique.
  pose proof (_upload_pending_records_none_pending o config w Hsize Hunique) as Hnone.
  assert (Hempty : get_pending_records None None
                     (tracker (snd (_upload_pending_records o config w))) = []).
  { rewrite get_pending_records_all.
    rewrite (filter_is_pending_none _ Hnone). reflexivity. }
  split; [exact Hempty |].
  apply _upload_pending_records_nothing_pending. exact Hempty.
Qed.

(** Unchanged calendar files are not uploaded again. Let the scheduler
    load the files and upload what is pending, with a batch size above
    zero, on a store that holds each [event_id] once, the events loaded
    having each an identifier of their own. Then the store holds every
    loaded event under its fingerprint, and when the scheduler loads and
    uploads the same files once more, the store stays as the first pass
    left it and the uploader is not called: nothing is sent twice, and a
    record whose upload failed is not sent again either. *)
Theorem unchanged_files_are_not_uploaded_again :
  forall (h : host) (o : outside) (config : schedule_config)
         (files : list calendar_file_data) (w : world),
    0 < batch_size config ->
    unique_event_ids (tracker w) ->
    NoDup (map event_id_of (loaded_events files)) ->
    let w1 := load_and_upload h o config files w in
    let w2 := load_and_upload h o config files w1 in
    Forall (holds_unchanged h (calendar_records (tracker w1))) (loaded_events files)
    /\ tracker w2 = tracker w1
    /\ sent w2 = sent w1.
Proof.
  intros h o config files w Hsize Hunique Hnodup w1 w2.
  subst w2 w1. unfold load_and_upload.
  rewrite !_load_calendar_records_steps.
  set (loaded := fold_left (load_step h o) (load_steps h files) w).
  assert (Hloaded : Forall (holds_unchanged h (calendar_records (tracker loaded)))
                           (loaded_events files)).
  { rewrite <- (loaded_events_steps h files).
    apply (load_steps_hold h o (load_steps h files) [] w); [constructor |].
    simpl. rewrite loaded_events_steps. exact Hnodup. }
  assert (Hunique1 : unique_event_ids (tracker loaded)).
  { subst loaded. rewrite <- _load_calendar_records_steps.
    apply _load_calendar_records_unique. exact Hunique. }
  set (w1 := snd (_upload_pending_records o config loaded)).
  assert (Hheld : Forall (holds_unchanged h (calendar_records (tracker w1)))
                         (loaded_events files)).
  { eapply Forall_impl; [| exact Hloaded].
    intros event. apply _upload_pending_records_hold. }
  destruct (nothing_pending_after_cycle o config loaded Hsize Hunique1)
    as [Hempty Hagain].
  fold w1 in Hempty, Hagain.
  destruct (load_steps_unchanged h o (load_steps h files) w1) as [Htracker Hsent].
  { rewrite loaded_events_steps. exact Hheld. }
  split; [exact Hheld |].
  rewrite _upload_pending_records_nothing_pending
    by (rewrite Htracker; exact Hempty).
  cbn [snd]. split; assumption.
Qed.

Lemma unique_event_ids_empty : unique_event_ids empty_db.
Proof.
  constructor.
Qed.

(** Two passes over the file that holds the example event: the event is
    sent once. *)
Lemma unchanged_files_are_not_uploaded_again_witness :
  let w1 := load_and_upload host_utc network_up SCHEDULE_CONFIG [file_with_standup]
              initial_world in
  let w2 := load_and_upload host_utc network_up SCHEDULE_CONFIG [file_with_standup]
              w1 in
  List.length (sent w1) = 1%nat
  /\ tracker w2 = tracker w1
  /\ sent w2 = sent w1.
Proof.
  split; [reflexivity |].
  refine (proj2 (unchanged_files_are_not_uploaded_again host_utc network_up
                   SCHEDULE_CONFIG [file_with_standup] initial_world _ _ _)).
  - reflexivity.
  - apply unique_event_ids_empty.
  - simpl. constructor; [intros [] | constructor].
Defined.

(** Every event of a calendar file that is not cancelled and has an
    identifier has a row after the files are loaded, whatever its title:
    the loader and the store do not look at the title, only the fetcher's
    filter keeps events without one out of the files. When no two of the
    events loaded share an identifier, the row carries the fingerprint of
    the event. *)
Theorem loader_stores_every_identified_event :
  forall (h : host) (o : outside) (files : list calendar_file_data) (w : world)
         (event : event_data),
    In event (loaded_events files) ->
    let w' := fst (_load_calendar_records h o files w) in
    (exists row, In row (calendar_records (tracker w'))
                 /\ event_id row = event_id_of event)
    /\ (NoDup (map event_id_of (loaded_events files)) ->
        holds_unchanged h (calendar_records (tracker w')) event).
Proof.
  intros h o files w event Hin w'. subst w'.
  rewrite _load_calendar_records_steps. split.
  - rewrite <- (loaded_events_steps h files) in Hin.
    revert w Hin.
    induction (load_steps h files) as [| [[person path] first] steps IH];
      intros w Hin; [contradiction |].
    cbn [fold_left map snd filter] in *.
    destruct (has_identifier first) eqn:Hident; [destruct Hin as [-> | Hin] |].
    + pose proof (add_or_update_record_holds h
                    (current_timestamp o (tracker_calls w)) event person path
                    (tracker w) Hident) as [r [Hfind _]].
      rewrite <- tracker_load_step in Hfind.
      apply find_some in Hfind. destruct Hfind as [Hrow Hid].
      apply String.eqb_eq in Hid.
      destruct (rows_kept_in _ _ r
                  (proj1 (load_steps_kept h o steps
                            (load_step h o w (person, path, event)))) Hrow)
        as [r' [Hr' [_ [Hsame _]]]].
      exists r'. split; [exact Hr' | congruence].
    + apply IH. exact Hin.
    + apply IH. exact Hin.
  - intros Hnodup.
    pose proof (load_steps_hold h o (load_steps h files) [] w (Forall_nil _)) as Hall.
    simpl in Hall. rewrite loaded_events_steps in Hall.
    rewrite Forall_forall in Hall. apply Hall; assumption.
Qed.

(** The event with a blank title of the example file gets its row. *)
Lemma loader_stores_every_identified_event_witness :
  has_blank_summary untitled = true
  /\ exists row,
       In row (calendar_records
                 (tracker (fst (_load_calendar_records host_utc network_up
                                  [file_with_untitled] initial_world))))
       /\ event_id row = "evt_2".
Proof.
  split; [reflexivity |].
  apply (loader_stores_every_identified_event host_utc network_up
           [file_with_untitled] initial_world untitled).
  simpl. left. reflexivity.
Defined.

(* ================================================================== *)
(** * The filter of the fetcher *)

Lemma count_events_cons (p : event_data -> bool) (event : event_data)
  (events : list event_data) :
  count_events p (event :: events)
  = (if p event then 1 else 0) + count_events p events.
Proof.
  unfold count_events. simpl. destruct (p event); simpl List.length; lia.
Qed.

(** The events the filter returns are those of the answer it keeps, in
    their order. *)
Lemma filter_events_exact (h : host) (filter_start : Z) (events : list event_data) :
  forall kept : list event_data,
    filter_events h filter_start events = Ok kept ->
    kept = filter (kept_by_filter h filter_start) events.
Proof.
  induction events as [| event events IH]; intros kept Hkept.
  - injection Hkept as <-. reflexivity.
  - cbn [filter_events filter] in *. unfold kept_by_filter at 1, excluded.
    destruct (is_cancelled event); [apply IH; exact Hkept |].
    destruct (has_blank_summary event); [apply IH; exact Hkept |].
    destruct (event_start_timestamp h event) as [event_start | e];
      [| discriminate].
    cbn [bind orb negb andb] in *.
    destruct (event_start <? filter_start); cbn [negb].
    + apply IH. exact Hkept.
    + destruct (filter_events h filter_start events) as [kept' | e];
        [| discriminate].
      injection Hkept as <-. f_equal. apply IH. reflexivity.
Qed.

(** The loop with its counters returns the list [filter_events] returns
    and counts the events it leaves out, each under the first of the three
    reasons that applies. *)
Lemma filter_loop_counts (h : host) (filter_start : Z) (events : list event_data) :
  forall s : filter_state,
    filter_loop h filter_start events s
    = (kept <- filter_events h filter_start events ;;
       Ok {| filtered_events := filtered_events s ++ kept;
             cancelled_count :=
               cancelled_count s + count_events is_cancelled events;
             empty_summary_count :=
               empty_summary_count s
               + count_events (fun event => negb (is_cancelled event)
                                            && has_blank_summary event) events;
             out_of_range_count :=
               out_of_range_count s
               + count_events (fun event => negb (excluded event)
                                            && starts_before h filter_start event)
                              events |})%py.
Proof.
  induction events as [| event events IH]; intros s.
  - destruct s. unfold count_events. simpl.
    rewrite app_nil_r, !Z.add_0_r. reflexivity.
  - cbn [filter_loop filter_events]. rewrite !count_events_cons. cbv beta.
    assert (Hthird : negb (excluded event) && starts_before h filter_start event
                     = negb (is_cancelled event || has_blank_summary event)
                       && match event_start_timestamp h event with
                          | Ok event_start => event_start <? filter_start
                          | Raise _ => false
                          end) by reflexivity.
    rewrite Hthird. clear Hthird.
    destruct (is_cancelled event); cbn [negb andb orb].
    { rewrite IH. cbn [filtered_events cancelled_count empty_summary_count
                         out_of_range_count].
      destruct (filter_events h filter_start events); cbn [bind];
        [| reflexivity].
      f_equal. f_equal; lia. }
    destruct (has_blank_summary event); cbn [negb andb orb].
    { rewrite IH. cbn [filtered_events cancelled_count empty_summary_count
                         out_of_range_count].
      destruct (filter_events h filter_start events); cbn [bind];
        [| reflexivity].
      f_equal. f_equal; lia. }
    destruct (event_start_timestamp h event) as [event_start | e];
      cbn [bind]; [| reflexivity].
    destruct (event_start <? filter_start).
    + rewrite IH. cbn [filtered_events cancelled_count empty_summary_count
                         out_of_range_count].
      destruct (filter_events h filter_start events); cbn [bind];
        [| reflexivity].
      f_equal. f_equal; lia.
    + rewrite IH. cbn [filtered_events cancelled_count empty_summary_count
                         out_of_range_count].
      destruct (filter_events h filter_start events); cbn [bind];
        [| reflexivity].
      f_equal. f_equal; try lia.
      rewrite <- app_assoc. reflexivity.
Qed.

(** Every event of an answer the filter takes is kept or counted under one
    reason. *)
Lemma filter_partition (h : host) (filter_start : Z) (events : list event_data) :
  forall kept : list event_data,
    filter_events h filter_start events = Ok kept ->
    Z.of_nat (List.length events)
    = Z.of_nat (List.length kept)
      + count_events is_cancelled events
      + count_events (fun event => negb (is_cancelled event)
                                   && has_blank_summary event) events
      + count_events (fun event => negb (excluded event)
                                   && starts_before h filter_start event) events.
Proof.
  induction events as [| event events IH]; intros kept Hkept.
  - injection Hkept as <-. reflexivity.
  - cbn [filter_events] in Hkept. rewrite !count_events_cons.
    unfold excluded, starts_before.
    change (List.length (event :: events)) with (S (List.length events)).
    destruct (is_cancelled event); cbn [negb andb orb].
    { specialize (IH kept Hkept). unfold excluded, starts_before in IH. lia. }
    destruct (has_blank_summary event); cbn [negb andb orb].
    { specialize (IH kept Hkept). unfold excluded, starts_before in IH. lia. }
    destruct (event_start_timestamp h event) as [event_start | e];
      [| discriminate].
    cbn [bind] in Hkept.
    destruct (event_start <? filter_start).
    + specialize (IH kept Hkept). unfold excluded, starts_before in IH. lia.
    + destruct (filter_events h filter_start events) as [kept' | e];
        [| discriminate].
      injection Hkept as <-.
      specialize (IH kept' eq_refl). unfold excluded, starts_before in IH.
      change (List.length (event :: kept')) with (S (List.length kept')). lia.
Qed.

(** The counts [get_calendar_events] reports. When it returns its
    dictionary, the events in it are those [get_calendar_events] is
    modelled to return, namely the events of the answer, in their order,
    that are not cancelled, have a title that is not blank and a start
    that is not before the current month; [total_count] is their number
    and [original_count] the number of events answered; the three other
    counts are the numbers of events left out as cancelled, as untitled
    (when not cancelled) and as starting before the current month (when
    neither), and the four add up to [original_count]. *)
Theorem filter_counts_add_up :
  forall (h : host) (answer : calendar_answer) (data : events_data),
    get_calendar_events_data h answer = Some data ->
    exists events,
      ans_items answer = Some events
      /\ get_calendar_events h answer = Some (data_items data)
      /\ data_items data
         = filter (kept_by_filter h (ans_filter_start_timestamp answer)) events
      /\ data_total_count data = Z.of_nat (List.length (data_items data))
      /\ data_original_count data = Z.of_nat (List.length events)
      /\ data_cancelled_count data = count_events is_cancelled events
      /\ data_empty_summary_count data
         = count_events (fun event => negb (is_cancelled event)
                                      && has_blank_summary event) events
      /\ data_out_of_range_count data
         = count_events
             (fun event =>
                negb (excluded event)
                && starts_before h (ans_filter_start_timestamp answer) event)
             events
      /\ data_original_count data
         = data_total_count data + data_cancelled_count data
           + data_empty_summary_count data + data_out_of_range_count data.
Proof.
  intros h answer data. unfold get_calendar_events_data, get_calendar_events.
  destruct (ans_items answer) as [events |]; [| discriminate].
  rewrite filter_loop_counts.
  destruct (filter_events h (ans_filter_start_timestamp answer) events)
    as [kept |] eqn:Hkept; cbn [bind]; [| discriminate].
  intros [= <-]. cbn.
  exists events. split; [reflexivity |]. split; [reflexivity |].
  split; [apply filter_events_exact; exact Hkept |].
  repeat (split; [reflexivity |]).
  apply filter_partition. exact Hkept.
Qed.

(** An answer with an event of each kind. *)
Lemma filter_counts_add_up_witness :
  exists data,
    get_calendar_events_data host_utc answer_with_untitled = Some data
    /\ data_original_count data = 2
    /\ data_total_count data = 1
    /\ data_empty_summary_count data = 1
    /\ data_original_count data
       = data_total_count data + data_cancelled_count data
         + data_empty_summary_count data + data_out_of_range_count data.
Proof.
  eexists. split; [reflexivity |].
  split; [reflexivity |]. split; [reflexivity |]. split; [reflexivity |].
  destruct (filter_counts_add_up host_utc answer_with_untitled _ eq_refl)
    as [events [_ [_ [_ [_ [_ [_ [_ [_ Hsum]]]]]]]]].
  exact Hsum.
Defined.

Lemma int_of_str_zero (h : host) : int_of_str h "0" = Ok 0.
Proof.
  reflexivity.
Qed.

Lemma event_start_timestamp_without (h : host) (event : event_data) :
  lacks_timestamp event = true -> event_start_timestamp h event = Ok 0.
Proof.
  unfold lacks_timestamp, event_start_timestamp.
  destruct (ev_start_time event) as [[| b | n | f | s | items | d] |];
    try discriminate; simpl.
  - destruct (dict_lookup "timestamp" d); [discriminate |].
    intros _. apply int_of_str_zero.
  - intros _. apply int_of_str_zero.
Qed.

(** An event whose start time has no key ["timestamp"] (an event with no
    start time, or with a date only as an all-day event has) is never
    among the events the fetcher keeps, and so never reaches a calendar
    file, once the current month starts after 1970-01-01: the filter reads
    its start as the number 0. [_extract_timestamp] would resolve the
    date, but no such event gets that far through the fetcher. *)
Theorem events_without_timestamp_are_dropped :
  forall (h : host) (answer : calendar_answer) (event : event_data)
         (kept : list event_data),
    0 < ans_filter_start_timestamp answer ->
    lacks_timestamp event = true ->
    get_calendar_events h answer = Some kept ->
    ~ In event kept.
Proof.
  intros h answer event kept Hstart Hlacks. unfold get_calendar_events.
  destruct (ans_items answer) as [events |]; [| discriminate].
  destruct (filter_events h (ans_filter_start_timestamp answer) events)
    as [kept' |] eqn:Hkept; [| discriminate].
  intros [= <-] Hin.
  rewrite (filter_events_exact _ _ _ _ Hkept) in Hin.
  apply filter_In in Hin. destruct Hin as [_ Hk].
  unfold kept_by_filter in Hk.
  rewrite (event_start_timestamp_without h event Hlacks) in Hk.
  apply andb_true_iff in Hk. destruct Hk as [_ Hk].
  apply negb_true_iff, Z.ltb_ge in Hk. lia.
Qed.

(** An all-day event in the answer of the API: the file gets the other
    event only. *)
Lemma events_without_timestamp_are_dropped_witness :
  get_calendar_events host_utc
    {| ans_calendar_id := Some "cal_1"; ans_summary := Some "Ann";
       ans_items := Some [all_day_event; standup];
       ans_filter_start_timestamp := 1698796800 |}
  = Some [standup]
  /\ ~ In all_day_event [standup].
Proof.
  split; [reflexivity |].
  apply (events_without_timestamp_are_dropped host_utc
           {| ans_calendar_id := Some "cal_1"; ans_summary := Some "Ann";
              ans_items := Some [all_day_event; standup];
              ans_filter_start_timestamp := 1698796800 |} all_day_event);
    reflexivity.
Defined.

Lemma filter_events_raises (h : host) (filter_start : Z) (events : list event_data)
  (event : event_data) (e : exn) :
  In event events ->
  excluded event = false ->
  event_start_timestamp h event = Raise e ->
  exists e', filter_events h filter_start events = Raise e'.
Proof.
  intros Hin Hexcluded Hraise.
  induction events as [| first events IH]; [contradiction |].
  cbn [filter_events].
  destruct Hin as [-> | Hin].
  - unfold excluded in Hexcluded. apply orb_false_iff in Hexcluded.
    destruct Hexcluded as [Hc Hb]. rewrite Hc, Hb, Hraise.
    exists e. reflexivity.
  - destruct (IH Hin) as [e' He'].
    destruct (is_cancelled first); [exists e'; exact He' |].
    destruct (has_blank_summary first); [exists e'; exact He' |].
    destruct (event_start_timestamp h first) as [event_start | e1];
      [| exists e1; reflexivity].
    cbn [bind].
    destruct (event_start <? filter_start); [exists e'; exact He' |].
    rewrite He'. exists e'. reflexivity.
Qed.

(** One event with a start the filter cannot read costs the whole
    calendar. When an event of the answer that is neither cancelled nor
    untitled has a start time [int] turns down, [get_calendar_events]
    returns [None] whatever the other events are, and
    [save_calendar_results] writes no file for that calendar: the
    directory keeps the file of an earlier run, if there is one. *)
Theorem unreadable_start_drops_calendar :
  forall (h : host) (answer : calendar_answer) (events : list event_data)
         (event : event_data) (e : exn) (dir : directory),
    ans_items answer = Some events ->
    In event events ->
    excluded event = false ->
    event_start_timestamp h event = Raise e ->
    get_calendar_events h answer = None
    /\ get_calendar_events_data h answer = None
    /\ save_calendar h dir answer = dir.
Proof.
  intros h answer events event e dir Hitems Hin Hexcluded Hraise.
  destruct (filter_events_raises h (ans_filter_start_timestamp answer) events
              event e Hin Hexcluded Hraise) as [e' He'].
  assert (Hnone : get_calendar_events h answer = None).
  { unfold get_calendar_events. rewrite Hitems, He'. reflexivity. }
  split; [exact Hnone | split].
  - unfold get_calendar_events_data. rewrite Hitems, filter_loop_counts, He'.
    reflexivity.
  - unfold save_calendar. rewrite Hnone.
    destruct (str_truthy (get_default (ans_calendar_id answer) "")); reflexivity.
Qed.

(** The answer that holds an event starting ["soon"]: the example event
    beside it is lost with it. *)
Lemma unreadable_start_drops_calendar_witness :
  get_calendar_events host_utc answer_with_unreadable_start = None
  /\ get_calendar_events_data host_utc answer_with_unreadable_start = None
  /\ save_calendar host_utc [file_with_standup] answer_with_unreadable_start
     = [file_with_standup].
Proof.
  apply (unreadable_start_drops_calendar host_utc answer_with_unreadable_start
           [standup; event_starting_soon] event_starting_soon ValueError).
  - reflexivity.
  - simpl. right. left. reflexivity.
  - reflexivity.
  - reflexivity.
Defined.

(* ================================================================== *)
(** * File names *)

Lemma substring_0_0 (s : string) : substring 0 0 s = "".
Proof.
  destruct s; reflexivity.
Qed.

Lemma substring_0_S (n : nat) (c : ascii) (s : string) :
  substring 0 (S n) (String c s) = String c (substring 0 n s).
Proof.
  reflexivity.
Qed.

Lemma length_substring_0 (n : nat) :
  forall s : string, String.length (substring 0 n s) = Nat.min n (String.length s).
Proof.
  induction n as [| n IH]; intros s.
  - rewrite substring_0_0. reflexivity.
  - destruct s as [| c s]; [reflexivity |].
    rewrite substring_0_S. simpl. rewrite IH. reflexivity.
Qed.

Lemma substring_0_all (n : nat) :
  forall s : string, (String.length s <= n)%nat -> substring 0 n s = s.
Proof.
  induction n as [| n IH]; intros s Hlen.
  - destruct s; [reflexivity | simpl in Hlen; lia].
  - destruct s as [| c s]; [reflexivity |].
    rewrite substring_0_S. rewrite IH; [reflexivity | simpl in Hlen; lia].
Qed.

Lemma substring_0_append (n : nat) :
  forall s t : string,
    (n <= String.length s)%nat -> substring 0 n (s ++ t) = substring 0 n s.
Proof.
  induction n as [| n IH]; intros s t Hlen.
  - rewrite !substring_0_0. reflexivity.
  - destruct s as [| c s]; [simpl in Hlen; lia |].
    simpl append. rewrite !substring_0_S. rewrite IH; [reflexivity |].
    simpl in Hlen. lia.
Qed.

Lemma length_replace_reserved (s : string) :
  String.length (replace_reserved s) = String.length s.
Proof.
  induction s as [| c s IH]; simpl; [reflexivity | rewrite IH; reflexivity].
Qed.

Lemma length_string_append (s t : string) :
  String.length (s ++ t) = (String.length s + String.length t)%nat.
Proof.
  induction s as [| c s IH]; simpl; [reflexivity | rewrite IH; reflexivity].
Qed.

Lemma replace_reserved_append (s t : string) :
  replace_reserved (s ++ t) = (replace_reserved s ++ replace_reserved t)%string.
Proof.
  induction s as [| c s IH]; simpl; [reflexivity | rewrite IH; reflexivity].
Qed.

Lemma replace_reserved_clean (s : string) :
  Forall (fun c => is_reserved c = false) (characters (replace_reserved s)).
Proof.
  induction s as [| c s IH]; simpl; constructor; [| exact IH].
  destruct (is_reserved c) eqn:Hc; [reflexivity | exact Hc].
Qed.

Lemma replace_reserved_of_clean (s : string) :
  Forall (fun c => is_reserved c = false) (characters s) -> replace_reserved s = s.
Proof.
  induction s as [| c s IH]; simpl; intros Hclean; [reflexivity |].
  inversion Hclean as [| ? ? Hc Hrest]; subst.
  rewrite Hc, (IH Hrest). reflexivity.
Qed.

Lemma substring_0_clean (n : nat) :
  forall s : string,
    Forall (fun c => is_reserved c = false) (characters s) ->
    Forall (fun c => is_reserved c = false) (characters (substring 0 n s)).
Proof.
  induction n as [| n IH]; intros s Hclean.
  - rewrite substring_0_0. constructor.
  - destruct s as [| c s]; [constructor |].
    rewrite substring_0_S. inversion Hclean as [| ? ? Hc Hrest]; subst.
    simpl. constructor; [exact Hc | apply IH; exact Hrest].
Qed.

Lemma sanitize_filename_clean (filename : string) :
  Forall (fun c => is_reserved c = false) (characters (sanitize_filename filename)).
Proof.
  unfold sanitize_filename. apply substring_0_clean. apply replace_reserved_clean.
Qed.

Lemma length_sanitize_filename (filename : string) :
  String.length (sanitize_filename filename)
  = Nat.min 100 (String.length filename).
Proof.
  unfold sanitize_filename.
  rewrite length_substring_0, length_replace_reserved. reflexivity.
Qed.

(** [sanitize_filename] gives a name of at most 100 characters (the
    length of the name given when that is at most 100) in which none of
    the nine reserved characters (less-than, greater-than, colon, double
    quote, slash, backslash, bar, question mark, asterisk) occurs; a name
    that is that short and has none of them is returned as it is, so the
    function applied twice
    gives what it gives applied once. The cut comes after the extension is
    added: for a calendar name of at most 96 characters the file name is
    the cleaned name followed by [.txt]; for one of 100 characters or more
    the file name is the first 100 characters of the cleaned name, with no
    [.txt] added. *)
Theorem sanitize_filename_properties :
  forall (filename : string),
    (String.length (sanitize_filename filename) <= 100)%nat
    /\ String.length (sanitize_filename filename)
       = Nat.min 100 (String.length filename)
    /\ Forall (fun c => is_reserved c = false)
              (characters (sanitize_filename filename))
    /\ sanitize_filename (sanitize_filename filename) = sanitize_filename filename
    /\ (Forall (fun c => is_reserved c = false) (characters filename) ->
        (String.length filename <= 100)%nat ->
        sanitize_filename filename = filename)
    /\ ((String.length filename <= 96)%nat ->
        sanitize_filename (filename ++ ".txt")
        = (replace_reserved filename ++ ".txt")%string)
    /\ ((100 <= String.length filename)%nat ->
        sanitize_filename (filename ++ ".txt") = sanitize_filename filename).
Proof.
  intros filename.
  assert (Hclean_short : forall s,
             Forall (fun c => is_reserved c = false) (characters s) ->
             (String.length s <= 100)%nat -> sanitize_filename s = s).
  { intros s Hclean Hlen. unfold sanitize_filename.
    rewrite (replace_reserved_of_clean s Hclean).
    apply substring_0_all. exact Hlen. }
  split; [rewrite length_sanitize_filename; lia |].
  split; [apply length_sanitize_filename |].
  split; [apply sanitize_filename_clean |].
  split.
  { apply Hclean_short; [apply sanitize_filename_clean |].
    rewrite length_sanitize_filename. lia. }
  split; [apply Hclean_short |].
  split.
  - intros Hlen. unfold sanitize_filename.
    rewrite replace_reserved_append. apply substring_0_all.
    rewrite length_string_append, length_replace_reserved. simpl. lia.
  - intros Hlen. unfold sanitize_filename.
    rewrite replace_reserved_append. apply substring_0_append.
    rewrite length_replace_reserved. exact Hlen.
Qed.

(** Names on which the function does something. *)
Example sanitize_filename_examples :
  sanitize_filename "Team/A: plans?.txt" = "Team_A_ plans_.txt"
  /\ sanitize_filename "Ann.txt" = "Ann.txt"
  /\ String.length
       (sanitize_filename
          (String.concat "" (repeat "0123456789" 10) ++ ".txt")) = 100%nat
  /\ sanitize_filename (String.concat "" (repeat "0123456789" 10) ++ ".txt")
     = String.concat "" (repeat "0123456789" 10).
Proof.
  repeat split; reflexivity.
Qed.

(** ** Calendars that share a file *)

Lemma write_file_twice (path : string) (first second : list event_data)
  (dir : directory) :
  write_file path second (write_file path first dir) = write_file path second dir.
Proof.
  induction dir as [| file dir IH]; simpl.
  - rewrite String.eqb_refl. reflexivity.
  - destruct (String.eqb (file_path file) path) eqn:Hpath; simpl.
    + rewrite String.eqb_refl. reflexivity.
    + rewrite Hpath, IH. reflexivity.
Qed.

Lemma write_file_written (path : string) (items : list event_data) (dir : directory) :
  In {| file_path := path; file_items := Some items |} (write_file path items dir).
Proof.
  induction dir as [| file dir IH]; simpl.
  - left. reflexivity.
  - destruct (String.eqb (file_path file) path); [left; reflexivity |].
    right. exact IH.
Qed.

(** Calendars that come to the same file name share the file, and the one
    saved later wins. When two calendars of the list (both with a
    [calendar_id], both with events the fetcher could get) have names that
    [sanitize_filename] takes to the same name (the same name, names that
    differ in reserved characters only, names that agree on their first
    100 characters, or two calendars without a name, both saved as
    [Unknown.txt]), then saving the first and then the second leaves the
    directory as saving the second alone does: the file holds the events
    of the second, and the events of the first reach neither the file nor,
    through it, the store. *)
Theorem calendars_of_one_file_name :
  forall (h : host) (dir : directory) (first second : calendar_answer)
         (items1 items2 : list event_data),
    str_truthy (get_default (ans_calendar_id first) "") = true ->
    str_truthy (get_default (ans_calendar_id second) "") = true ->
    sanitize_filename (get_default (ans_summary first) "Unknown" ++ ".txt")
    = sanitize_filename (get_default (ans_summary second) "Unknown" ++ ".txt") ->
    get_calendar_events h first = Some items1 ->
    get_calendar_events h second = Some items2 ->
    save_calendar h (save_calendar h dir first) second = save_calendar h dir second
    /\ In {| file_path :=
               path_join h personal_calendars
                 (sanitize_filename
                    (get_default (ans_summary second) "Unknown" ++ ".txt"));
             file_items := Some items2 |}
          (save_calendar h (save_calendar h dir first) second).
Proof.
  intros h dir first second items1 items2 Hid1 Hid2 Hname Hitems1 Hitems2.
  unfold save_calendar. rewrite Hid1, Hid2, Hitems1, Hitems2, Hname.
  rewrite write_file_twice.
  split; [reflexivity |].
  apply write_file_written.
Qed.

(** Two calendars whose names differ in a reserved character: the file
    holds the events of the second. *)
Lemma calendars_of_one_file_name_witness :
  sanitize_filename "Team/A.txt" = sanitize_filename "Team:A.txt"
  /\ save_calendar host_utc (save_calendar host_utc [] first_calendar) second_calendar
     = [{| file_path := "data/personal_calendars/Team_A.txt";
           file_items := Some [standup_renamed] |}].
Proof.
  split; [reflexivity |].
  rewrite (proj1 (calendars_of_one_file_name host_utc [] first_calendar
                    second_calendar [standup] [standup_renamed]
                    eq_refl eq_refl eq_refl eq_refl eq_refl)).
  reflexivity.
Defined.

(* ================================================================== *)
(** * The range of time the fetcher asks for *)

Lemma days_before_year_next (y : Z) :
  days_before_year (y + 1) = days_before_year y + (if is_leap y then 366 else 365).
Proof.
  unfold days_before_year, is_leap. cbv zeta.
  replace (y + 1 - 1) with y by lia.
  destruct (y mod 4 =? 0) eqn:H4; destruct (y mod 100 =? 0) eqn:H100;
    destruct (y mod 400 =? 0) eqn:H400; cbn [negb andb orb];
    repeat match goal with
           | H : (_ =? _) = true |- _ => apply Z.eqb_eq in H
           | H : (_ =? _) = false |- _ => apply Z.eqb_neq in H
           end;
    Z.div_mod_to_equations; lia.
Qed.

Lemma days_in_month_bounds (y m : Z) :
  28 <= days_in_month y m <= 31.
Proof.
  unfold days_in_month.
  destruct (m =? 2); [destruct (is_leap y); lia |].
  destruct ((m =? 4) || (m =? 6) || (m =? 9) || (m =? 11)); lia.
Qed.

(** The first day of the next month comes when the days of the month are
    over. *)
Lemma ymd2ord_next_month (y m : Z) :
  1 <= m <= 12 ->
  ymd2ord (fst (month_after (y, m))) (snd (month_after (y, m))) 1
  = ymd2ord y m 1 + days_in_month y m.
Proof.
  intros Hm.
  assert (Hcases : m = 1 \/ m = 2 \/ m = 3 \/ m = 4 \/ m = 5 \/ m = 6 \/ m = 7
                   \/ m = 8 \/ m = 9 \/ m = 10 \/ m = 11 \/ m = 12) by lia.
  unfold ymd2ord.
  repeat (destruct Hcases as [-> | Hcases]); [.. | subst m];
    cbn [month_after fst snd Z.eqb Pos.eqb];
    unfold days_before_month, days_in_month;
    try rewrite days_before_year_next;
    simpl; destruct (is_leap y); simpl; lia.
Qed.

Lemma first_second_next_month (y m : Z) :
  1 <= m <= 12 ->
  first_second (month_after (y, m))
  = first_second (y, m) + 86400 * days_in_month y m.
Proof.
  intros Hm. unfold first_second, naive_seconds. cbn [year month day fst snd].
  rewrite (ymd2ord_next_month y m Hm). lia.
Qed.

Lemma month_after_bounds (y m : Z) :
  1 <= m <= 12 -> 1 <= snd (month_after (y, m)) <= 12.
Proof.
  intros Hm. unfold month_after.
  destruct (m =? 12) eqn:H12; cbn [snd]; [lia |].
  apply Z.eqb_neq in H12. lia.
Qed.

Lemma last_second_of_month (y m : Z) :
  1 <= m <= 12 ->
  naive_seconds {| year := y; month := m; day := days_in_month y m |} + 86400
  = first_second (month_after (y, m)).
Proof.
  intros Hm. rewrite (first_second_next_month y m Hm).
  unfold first_second, naive_seconds, ymd2ord. cbn [year month day fst snd]. lia.
Qed.

(** The month and the year the code computes are those of the second
    month after the current one. *)
Lemma target_month_year (y m : Z) :
  1 <= m <= 12 ->
  (if 12 <? m + 2 then (m + 2 - 12, y + 1) else (m + 2, y))
  = (snd (month_after (month_after (y, m))), fst (month_after (month_after (y, m)))).
Proof.
  intros Hm. unfold month_after.
  destruct (m =? 12) eqn:H12.
  - apply Z.eqb_eq in H12. subst m. reflexivity.
  - apply Z.eqb_neq in H12.
    destruct (m + 1 =? 12) eqn:H11.
    + apply Z.eqb_eq in H11. assert (m = 11) by lia. subst m. reflexivity.
    + apply Z.eqb_neq in H11.
      replace (12 <? m + 2) with false by (symmetry; apply Z.ltb_ge; lia).
      cbn [fst snd]. f_equal. lia.
Qed.

Lemma valid_date_bounds (y m d : Z) :
  valid_date y m d = true ->
  1 <= y <= 9999 /\ 1 <= m <= 12 /\ 1 <= d <= days_in_month y m.
Proof.
  unfold valid_date. rewrite !andb_true_iff, !Z.leb_le. tauto.
Qed.

Lemma valid_date_last_day (y m : Z) :
  1 <= y <= 9999 -> 1 <= m <= 12 -> valid_date y m (days_in_month y m) = true.
Proof.
  intros Hy Hm. unfold valid_date. rewrite !andb_true_iff, !Z.leb_le.
  pose proof (days_in_month_bounds y m). lia.
Qed.

Lemma query_end_date_target (current_date : datetime) :
  1 <= month current_date <= 12 ->
  query_end_date current_date
  = let third := month_after (month_after (year current_date, month current_date)) in
    if valid_date (fst third) (snd third) (days_in_month (fst third) (snd third))
    then Ok {| year := fst third; month := snd third;
               day := days_in_month (fst third) (snd third) |}
    else Raise ValueError.
Proof.
  intros Hm. unfold query_end_date. cbv zeta.
  rewrite (target_month_year (year current_date) (month current_date) Hm).
  reflexivity.
Qed.

(** Three months on. *)
Lemma three_months (y m : Z) :
  1 <= m <= 12 ->
  let next_month := month_after (y, m) in
  let third_month := month_after next_month in
  first_second (month_after third_month) - first_second (y, m)
  = 86400 * (days_in_month y m
             + days_in_month (fst next_month) (snd next_month)
             + days_in_month (fst third_month) (snd third_month)).
Proof.
  intros Hm next_month third_month. subst third_month next_month.
  pose proof (month_after_bounds y m Hm) as Hm2.
  pose proof (first_second_next_month y m Hm) as H1.
  destruct (month_after (y, m)) as [y2 m2]. cbn [fst snd] in *.
  pose proof (month_after_bounds y2 m2 Hm2) as Hm3.
  pose proof (first_second_next_month y2 m2 Hm2) as H2.
  destruct (month_after (y2, m2)) as [y3 m3]. cbn [fst snd] in *.
  pose proof (first_second_next_month y3 m3 Hm3) as H3.
  lia.
Qed.

Lemma third_month_year (y m : Z) :
  1 <= m <= 12 ->
  fst (month_after (month_after (y, m))) = (if 10 <? m then y + 1 else y)
  /\ 1 <= snd (month_after (month_after (y, m))) <= 12.
Proof.
  intros Hm.
  pose proof (month_after_bounds y m Hm) as Hm2.
  split.
  - unfold month_after.
    destruct (m =? 12) eqn:H12.
    + apply Z.eqb_eq in H12. rewrite H12. reflexivity.
    + apply Z.eqb_neq in H12.
      destruct (m + 1 =? 12) eqn:H11.
      * apply Z.eqb_eq in H11.
        replace (10 <? m) with true by (symmetry; apply Z.ltb_lt; lia).
        reflexivity.
      * apply Z.eqb_neq in H11.
        replace (10 <? m) with false by (symmetry; apply Z.ltb_ge; lia).
        reflexivity.
  - destruct (month_after (y, m)) as [y2 m2]. cbn [snd] in Hm2.
    apply month_after_bounds. exact Hm2.
Qed.

(** The range of time asked for covers three calendar months. For the
    current date [get_calendar_events] computes as the end of the range the
    last day of the second month after the current one, over the end of
    the year too and whatever the lengths of the months are; the range runs
    from the first second of the current month to the last second before
    the third month after it begins (both read in the local time zone),
    which is the number of days of the three months, times 86400, in
    wall-clock seconds. In November and December of the year 9999 the end
    date does not exist and the request is not made. *)
Theorem query_window_covers_three_months :
  forall (h : host) (current_date : datetime),
    valid_date (year current_date) (month current_date) (day current_date) = true ->
    let this_month := (year current_date, month current_date) in
    let next_month := month_after this_month in
    let third_month := month_after next_month in
    (year current_date < 9999 \/ month current_date <= 10 ->
     exists end_date,
       query_end_date current_date = Ok end_date
       /\ (year end_date, month end_date) = third_month
       /\ day end_date = days_in_month (year end_date) (month end_date)
       /\ naive_seconds end_date + 86399 + 1 = first_second (month_after third_month)
       /\ first_second (month_after third_month) - first_second this_month
          = 86400 * (days_in_month (fst this_month) (snd this_month)
                     + days_in_month (fst next_month) (snd next_month)
                     + days_in_month (fst third_month) (snd third_month))
       /\ query_range h current_date
          = (start_timestamp <- local_timestamp h (first_second this_month) ;;
             end_timestamp <-
               local_timestamp h (first_second (month_after third_month) - 1) ;;
             Ok (start_timestamp, end_timestamp))%py)
    /\ (year current_date = 9999 -> 11 <= month current_date ->
        query_end_date current_date = Raise ValueError
        /\ query_range h current_date = Raise ValueError).
Proof.
  intros h current_date Hvalid this_month next_month third_month.
  apply valid_date_bounds in Hvalid. destruct Hvalid as [Hy [Hm _]].
  pose proof (query_end_date_target current_date Hm) as Hend.
  pose proof (three_months (year current_date) (month current_date) Hm) as Hthree.
  pose proof (third_month_year (year current_date) (month current_date) Hm)
    as [Hyears Hm3].
  cbv zeta in Hend, Hthree.
  subst third_month next_month this_month.
  destruct (month_after (year current_date, month current_date)) as [y2 m2].
  destruct (month_after (y2, m2)) as [y3 m3].
  cbn [fst snd] in *.
  split.
  - intros Hrange.
    assert (Hy3 : 1 <= y3 <= 9999).
    { rewrite Hyears. destruct (10 <? month current_date) eqn:Hlate; [| lia].
      apply Z.ltb_lt in Hlate. lia. }
    rewrite (valid_date_last_day _ _ Hy3 Hm3) in Hend.
    eexists. split; [exact Hend |]. cbn [year month day].
    split; [reflexivity |].
    split; [reflexivity |].
    pose proof (last_second_of_month y3 m3 Hm3) as Hlast.
    split; [lia |].
    split; [exact Hthree |].
    unfold query_range. rewrite Hend. cbn [bind].
    unfold timestamp.
    replace (naive_seconds
               {| year := y3; month := m3; day := days_in_month y3 m3 |} + 86399)
      with (first_second (month_after (y3, m3)) - 1) by lia.
    reflexivity.
  - intros H9999 Hlate.
    assert (Hinvalid : valid_date y3 m3 (days_in_month y3 m3) = false).
    { unfold valid_date. rewrite Hyears.
      replace (10 <? month current_date) with true
        by (symmetry; apply Z.ltb_lt; lia).
      rewrite H9999. reflexivity. }
    rewrite Hinvalid in Hend.
    split; [exact Hend |]. unfold query_range. rewrite Hend. reflexivity.
Qed.

(** The range asked for on 2024-11-07: November, December and January, to
    2025-01-31 23:59:59; 92 days. *)
Lemma query_window_covers_three_months_witness :
  query_end_date {| year := 2024; month := 11; day := 7 |}
  = Ok {| year := 2025; month := 1; day := 31 |}
  /\ query_range host_utc {| year := 2024; month := 11; day := 7 |}
     = Ok (1730419200, 1738367999)
  /\ exists end_date,
       query_end_date {| year := 2024; month := 11; day := 7 |} = Ok end_date
       /\ (year end_date, month end_date) = (2025, 1)
       /\ day end_date = days_in_month (year end_date) (month end_date)
       /\ naive_seconds end_date + 86399 + 1 = first_second (2025, 2)
       /\ first_second (2025, 2) - first_second (2024, 11) = 86400 * (30 + 31 + 31)
       /\ query_range host_utc {| year := 2024; month := 11; day := 7 |}
          = (start_timestamp <- local_timestamp host_utc (first_second (2024, 11)) ;;
             end_timestamp <- local_timestamp host_utc (first_second (2025, 2) - 1) ;;
             Ok (start_timestamp, end_timestamp))%py.
Proof.
  split; [reflexivity |]. split; [reflexivity |].
  apply (proj1 (query_window_covers_three_months host_utc
                  {| year := 2024; month := 11; day := 7 |} eq_refl)).
  left. reflexivity.
Defined.

(* ================================================================== *)
(** * The direct upload of a calendar file *)

Lemma convert_events_spec (h : host) (person : string) (limit : option Z)
  (events : list event_data) :
  forall (i : Z) (records : list upload_record) (skipped : Z),
    0 <= i ->
    fst (convert_events h person limit i events records skipped)
    = records
      ++ converted h person
           match limit with
           | Some n => if n =? 0 then events else firstn (Z.to_nat (n - i)) events
           | None => events
           end.
Proof.
  induction events as [| event events IH]; intros i records skipped Hi.
  - simpl. destruct limit as [n |]; [destruct (n =? 0) |];
      try rewrite firstn_nil; simpl; rewrite app_nil_r; reflexivity.
  - cbn [convert_events]. unfold limit_reached.
    destruct limit as [n |].
    + destruct (n =? 0) eqn:Hzero; cbn [negb andb].
      * cbn [converted flat_map].
        destruct (convert_event_to_record h event person) as [record |];
          rewrite IH by lia; rewrite ?Hzero; fold (converted h person events);
          [rewrite <- app_assoc |]; reflexivity.
      * destruct (n <=? i) eqn:Hreached.
        -- apply Z.leb_le in Hreached.
           replace (Z.to_nat (n - i)) with O by lia.
           simpl. rewrite app_nil_r. reflexivity.
        -- apply Z.leb_gt in Hreached.
           replace (Z.to_nat (n - i)) with (S (Z.to_nat (n - (i + 1)))) by lia.
           cbn [firstn converted flat_map].
           destruct (convert_event_to_record h event person) as [record |];
             rewrite IH by lia; rewrite ?Hzero;
             fold (converted h person (firstn (Z.to_nat (n - (i + 1))) events));
             [rewrite <- app_assoc |]; reflexivity.
    + cbn [converted flat_map].
      destruct (convert_event_to_record h event person) as [record |];
        rewrite IH by lia; fold (converted h person events);
        [rewrite <- app_assoc |]; reflexivity.
Qed.

Lemma convert_events_examined (h : host) (person : string) (limit : option Z)
  (events : list event_data) :
  fst (convert_events h person limit 0 events [] 0)
  = converted h person (examined limit events).
Proof.
  rewrite convert_events_spec by lia. cbn [app].
  unfold examined. destruct limit as [n |]; [| reflexivity].
  rewrite Z.sub_0_r. reflexivity.
Qed.

Lemma length_converted (h : host) (person : string) (events : list event_data) :
  (List.length (converted h person events) <= List.length events)%nat.
Proof.
  unfold converted. induction events as [| event events IH]; [apply le_n |].
  cbn [flat_map]. rewrite length_app.
  change (List.length (event :: events)) with (S (List.length events)).
  destruct (convert_event_to_record h event person); cbn [List.length]; lia.
Qed.

Lemma converted_records (h : host) (person : string) (events : list event_data)
  (record : upload_record) :
  In record (converted h person events) ->
  exists event,
    In event events
    /\ convert_event_to_record h event person = Some record.
Proof.
  unfold converted. intros Hin. apply in_flat_map in Hin.
  destruct Hin as [event [Hevent Hrecord]]. exists event. split; [exact Hevent |].
  destruct (convert_event_to_record h event person) as [r |]; [| contradiction].
  destruct Hrecord as [-> | []]. reflexivity.
Qed.

(** The direct upload of one calendar file. [upload_calendar_file] makes
    at most one call of [batch_upload_records], with all the records at
    once however many they are, and none when there is no record. The
    records are those of the events it gets to, in their order, that
    [convert_event_to_record] does not leave out. The limit counts events
    read, not records sent: without a limit and with the limit 0 it gets
    to every event, with a limit [n] above 0 to the first [n] events, left
    out or not, and with a limit below 0 to none. It returns [True] exactly
    when there is a record, the call succeeded (status 200 and code 0) and
    the answer holds the list of the records created. Every record sent
    has the person of the call, or the stem of the file name when none is
    given, a title that is not blank, a start and an end. *)
Theorem upload_calendar_file_sends_one_list :
  forall (h : host) (outcome : post_outcome) (created : result Z)
         (file : calendar_file_data) (person_name : option string)
         (limit : option Z),
    let events := read_calendar_json file in
    let person := person_of h file person_name in
    let records := converted h person (examined limit events) in
    let out := upload_calendar_file h outcome created file person_name limit in
    snd out = match records with [] => [] | _ :: _ => [records] end
    /\ (fst out = true <->
        records <> []
        /\ upload_succeeded (batch_upload_records outcome records) = true
        /\ exists n, created = Ok n)
    /\ (limit = None \/ limit = Some 0 -> examined limit events = events)
    /\ (forall n, limit = Some n -> 0 < n ->
          examined limit events = firstn (Z.to_nat n) events)
    /\ (forall n, limit = Some n -> n < 0 ->
          examined limit events = [] /\ out = (false, []))
    /\ (List.length records <= List.length (examined limit events))%nat
    /\ (forall record, In record records ->
          Person record = person
          /\ str_truthy (strip (Summary record)) = true
          /\ Start_Time record <> None
          /\ End_Time record <> None).
Proof.
  intros h outcome created file person_name limit events person records out.
  assert (Hout : out
                 = match records with
                   | [] => (false, [])
                   | _ :: _ =>
                       (if upload_succeeded (batch_upload_records outcome records)
                        then match created with Ok _ => true | Raise _ => false end
                        else false,
                        [records])
                   end).
  { subst out records events. unfold upload_calendar_file.
    replace (match person_name with
             | Some name => name
             | None => path_stem h (file_path file)
             end) with person
      by (subst person; unfold person_of; destruct person_name; reflexivity).
    pose proof (convert_events_examined h person limit (read_calendar_json file))
      as Hloop.
    destruct (read_calendar_json file) as [| event rest].
    - replace (examined limit (@nil event_data)) with (@nil event_data);
        [reflexivity |].
      unfold examined. destruct limit as [n |]; [destruct (n =? 0) |];
        try rewrite firstn_nil; reflexivity.
    - destruct (convert_events h person limit 0 (event :: rest) [] 0)
        as [records' skipped].
      cbn [fst] in Hloop. rewrite <- Hloop. reflexivity. }
  split; [| split; [| split; [| split; [| split; [| split]]]]].
  - rewrite Hout. destruct records; reflexivity.
  - rewrite Hout. destruct records as [| record rest].
    + cbn [fst]. split; [discriminate | intros [H _]; contradiction].
    + cbn [fst].
      destruct (upload_succeeded (batch_upload_records outcome (record :: rest))).
      * destruct created as [n | e].
        -- split; [| reflexivity]. intros _.
           split; [discriminate | split; [reflexivity | exists n; reflexivity]].
        -- split; [discriminate | intros [_ [_ [n Hn]]]; discriminate].
      * split; [discriminate | intros [_ [H _]]; discriminate].
  - intros [-> | ->]; reflexivity.
  - intros n -> Hn. unfold examined.
    replace (n =? 0) with false by (symmetry; apply Z.eqb_neq; lia). reflexivity.
  - intros n -> Hn.
    assert (Hnone : examined (Some n) events = []).
    { unfold examined.
      replace (n =? 0) with false by (symmetry; apply Z.eqb_neq; lia).
      replace (Z.to_nat n) with O by lia. reflexivity. }
    split; [exact Hnone |].
    rewrite Hout. subst records. rewrite Hnone. reflexivity.
  - subst records. apply length_converted.
  - intros record Hin. subst records.
    destruct (converted_records h person _ record Hin) as [event [_ Hconvert]].
    unfold convert_event_to_record, convert_event_to_record_body in Hconvert.
    destruct (String.eqb (get_default (ev_status event) "") "cancelled");
      [discriminate |].
    destruct (negb (str_truthy (strip (get_default (ev_summary event) ""))))
      eqn:Hblank; [discriminate |].
    destruct (parse_timestamp_to_ms h (get_default (ev_start_time event) (JObj [])))
      as [[start |] | e]; simpl in Hconvert; try discriminate.
    + destruct (parse_timestamp_to_ms h (get_default (ev_end_time event) (JObj [])))
        as [finish | e]; simpl in Hconvert; [| discriminate].
      injection Hconvert as <-. cbn.
      split; [reflexivity |].
      split; [apply negb_false_iff; exact Hblank |].
      split; [discriminate |].
      unfold or_else. destruct finish as [n |]; [destruct (n =? 0) |]; discriminate.
    + destruct (parse_timestamp_to_ms h (get_default (ev_end_time event) (JObj [])));
        simpl in Hconvert; discriminate.
Qed.

(** Three events, the second untitled, under the limit 2: one record is
    sent. *)
Example upload_calendar_file_under_limit :
  upload_calendar_file host_utc accepted (Ok 1) file_of_three (Some "Ann") (Some 2)
  = (true, [[{| Summary := "Standup"; Start_Time := Some 1700000000000;
                End_Time := Some 1700000000000; Person := "Ann" |}]])
  /\ List.length
       (snd (upload_calendar_file host_utc accepted (Ok 3) file_of_three
               (Some "Ann") None)) = 1%nat
  /\ map (@List.length upload_record)
       (snd (upload_calendar_file host_utc accepted (Ok 3) file_of_three
               (Some "Ann") (Some 0))) = [2%nat]
  /\ upload_calendar_file host_utc accepted (Ok 0) file_of_three (Some "Ann")
       (Some (-1)) = (false, [])
  /\ upload_calendar_file host_utc accepted (Raise AttributeError) file_of_three
       (Some "Ann") None
     = (false, [converted host_utc "Ann" [standup; untitled; standup_renamed]]).
Proof.
  repeat split; reflexivity.
Qed.

(* ================================================================== *)
(** * The access token from the authorisation to the fetcher *)

Lemma dict_lookup_dict_set_other (key other : string) (value : json)
  (d : list (string * json)) :
  other <> key ->
  dict_lookup other (dict_set key value d) = dict_lookup other d.
Proof.
  intros Hother. induction d as [| [k v] d IH]; simpl.
  - replace (String.eqb other key) with false
      by (symmetry; apply String.eqb_neq; exact Hother).
    reflexivity.
  - destruct (String.eqb key k) eqn:Hk; simpl.
    + apply String.eqb_eq in Hk. subst k.
      replace (String.eqb other key) with false
        by (symmetry; apply String.eqb_neq; exact Hother).
      reflexivity.
    + rewrite IH. reflexivity.
Qed.

Lemma dict_set_truthy (key : string) (value : json) (d : list (string * json)) :
  json_truthy (JObj (dict_set key value d)) = true.
Proof.
  destruct d as [| [k v] d]; simpl; [reflexivity |].
  destruct (String.eqb key k); reflexivity.
Qed.

(** What [get_user_token] returns when it returns a value. *)
Lemma get_user_token_some (retrieved_at : string) (response : token_response)
  (token_data : json) :
  get_user_token retrieved_at response = Some token_data ->
  exists d access_token,
    response = TokenResponse 200 (Ok (JObj d))
    /\ dict_lookup "access_token" d = Some access_token
    /\ slice_30 access_token = Ok tt
    /\ token_data = JObj (dict_set "retrieved_at" (JStr retrieved_at) d).
Proof.
  unfold get_user_token.
  destruct response as [| status_code [body | e]]; try discriminate.
  - destruct (status_code =? 200) eqn:Hstatus; [| discriminate].
    apply Z.eqb_eq in Hstatus. subst status_code.
    unfold get_user_token_body.
    destruct body as [| b | n | f | s | items | d]; simpl; try discriminate.
    + destruct (str_contains "access_token" s); discriminate.
    + destruct (existsb _ items); discriminate.
    + destruct (dict_lookup "access_token" d) as [access_token |] eqn:Hlookup;
        simpl; [| discriminate].
      destruct (slice_30 access_token) as [[] | e] eqn:Hslice; simpl;
        [| discriminate].
      intros [= <-]. exists d, access_token. repeat split; assumption.
  - destruct (status_code =? 200); discriminate.
Qed.

Lemma load_saved_token (config : oauth_config) (code url : string)
  (written_at last_updated : string) (d : list (string * json)) :
  json_truthy (JObj d) = true ->
  load_access_token
    (Some (_save_oauth_data config code url (JObj d) written_at last_updated))
  = match dict_lookup "access_token" d with
    | Some access_token =>
        if json_truthy access_token then Some access_token else None
    | None => None
    end.
Proof.
  intros Hd.
  unfold load_access_token, load_access_token_body, _save_oauth_data.
  rewrite Hd. simpl.
  destruct (dict_lookup "access_token" d); reflexivity.
Qed.

(** The token of the authorisation is the token the fetcher loads. When
    [get_user_token] returns the answer to the request for a token (which
    it does only for an answer of status 200 that is a dictionary with an
    ["access_token"] that is a string or a list), and [_save_oauth_data]
    writes it to the token file, [load_access_token] returns that
    ["access_token"], unless it is empty: an empty token is taken by the
    authorisation and written to the file, but the fetcher then finds no
    token. A file written without token data ([None] or an empty
    dictionary) gives no token either, and neither does a missing file. *)
Theorem saved_token_is_loaded :
  forall (config : oauth_config) (code url retrieved_at written_at last_updated : string)
         (response : token_response) (token_data : json),
    (get_user_token retrieved_at response = Some token_data ->
     exists d access_token,
       response = TokenResponse 200 (Ok (JObj d))
       /\ dict_lookup "access_token" d = Some access_token
       /\ json_truthy token_data = true
       /\ load_access_token
            (Some (_save_oauth_data config code url token_data written_at
                     last_updated))
          = if json_truthy access_token then Some access_token else None)
    /\ (json_truthy token_data = false ->
        load_access_token
          (Some (_save_oauth_data config code url token_data written_at
                   last_updated)) = None)
    /\ load_access_token None = None.
Proof.
  intros config code url retrieved_at written_at last_updated response token_data.
  split; [| split].
  - intros Hsome.
    destruct (get_user_token_some retrieved_at response token_data Hsome)
      as [d [access_token [Hresponse [Hlookup [_ ->]]]]].
    exists d, access_token.
    split; [exact Hresponse |]. split; [exact Hlookup |].
    split; [apply dict_set_truthy |].
    rewrite load_saved_token by apply dict_set_truthy.
    rewrite dict_lookup_dict_set_other by discriminate.
    rewrite Hlookup. reflexivity.
  - intros Hfalsy.
    unfold load_access_token, load_access_token_body, _save_oauth_data.
    rewrite Hfalsy. reflexivity.
  - reflexivity.
Qed.

(** The token of the example answer, and an answer whose token is empty. *)
Example token_round_trip :
  let saved token_data :=
    _save_oauth_data sample_oauth_config "code" "url" token_data
      "2024-11-07T10:00:00" "2024-11-07T10:00:00" in
  option_map saved
    (get_user_token "2024-11-07T10:00:00" (TokenResponse 200 (Ok token_answer)))
  = Some (saved (JObj [("code", JInt 0); ("access_token", JStr "u-token");
                       ("expires_in", JInt 7200);
                       ("retrieved_at", JStr "2024-11-07T10:00:00")]))
  /\ load_access_token
       (option_map saved
          (get_user_token "2024-11-07T10:00:00"
             (TokenResponse 200 (Ok token_answer))))
     = Some (JStr "u-token")
  /\ get_user_token "2024-11-07T10:00:00"
       (TokenResponse 200 (Ok (JObj [("access_token", JStr "")])))
     = Some (JObj [("access_token", JStr "");
                   ("retrieved_at", JStr "2024-11-07T10:00:00")])
  /\ load_access_token
       (Some (saved (JObj [("access_token", JStr "");
                           ("retrieved_at", JStr "2024-11-07T10:00:00")])))
     = None
  /\ get_user_token "2024-11-07T10:00:00"
       (TokenResponse 200 (Ok (JObj [("access_token", JInt 5)]))) = None
  /\ get_user_token "2024-11-07T10:00:00"
       (TokenResponse 401 (Ok token_answer)) = None
  /\ load_access_token (Some (saved JNull)) = None.
Proof.
  repeat split; reflexivity.
Qed.

(* ================================================================== *)
(** * The tenant token *)




(** A token granted at the time 1700000000 is reused up to the time
    1700006900, which is 115 minutes later, and asked for again then. *)
Example tenant_token_for_115_minutes :
  let first := get_tenant_access_token (float_of_int 1700000000) tenant_token_granted
                 new_token_manager in
  returned first = JStr "t-token"
  /\ requested first = true
  /\ _token_expire_time (manager_after first) = float_of_int 1700006900
  /\ map requested
       (fst (token_calls
               [ (float_of_int 1700000001, TokenRequestFailed);
                 (float_of_int 1700006899, TokenRequestFailed);
                 (float_of_int 1700006900, TokenRequestFailed) ]
               (manager_after first)))
     = [false; false; true]
  /\ map returned
       (fst (token_calls
               [ (float_of_int 1700000001, TokenRequestFailed);
                 (float_of_int 1700006899, TokenRequestFailed);
                 (float_of_int 1700006900, TokenRequestFailed) ]
               (manager_after first)))
     = [JStr "t-token"; JStr "t-token"; JNull].
Proof.
  vm_compute. repeat split; reflexivity.
Qed.

(* ================================================================== *)
(** * What the fetcher leaves in the directory *)

Lemma write_file_keeps_paths (path : string) (items : list event_data)
  (dir : directory) :
  exists added, map file_path (write_file path items dir) = map file_path dir ++ added.
Proof.
  induction dir as [| file dir [added IH]]; simpl.
  - exists [path]. reflexivity.
  - destruct (String.eqb (file_path file) path) eqn:Hpath; simpl.
    + exists []. rewrite app_nil_r. apply String.eqb_eq in Hpath.
      rewrite Hpath. reflexivity.
    + exists added. rewrite IH. reflexivity.
Qed.

Lemma save_calendar_keeps_paths (h : host) (dir : directory)
  (answer : calendar_answer) :
  exists added, map file_path (save_calendar h dir answer) = map file_path dir ++ added.
Proof.
  unfold save_calendar.
  destruct (str_truthy (get_default (ans_calendar_id answer) ""));
    [| exists []; symmetry; apply app_nil_r].
  destruct (get_calendar_events h answer);
    [apply write_file_keeps_paths | exists []; symmetry; apply app_nil_r].
Qed.

Lemma save_calendars_keep_paths (h : host) (calendar_list : list calendar_answer) :
  forall dir : directory,
    exists added,
      map file_path (fold_left (save_calendar h) calendar_list dir)
      = map file_path dir ++ added.
Proof.
  induction calendar_list as [| answer calendar_list IH]; intros dir; simpl.
  - exists []. symmetry. apply app_nil_r.
  - destruct (IH (save_calendar h dir answer)) as [added Hadded].
    destruct (save_calendar_keeps_paths h dir answer) as [added1 Hadded1].
    exists (added1 ++ added). rewrite Hadded, Hadded1, app_assoc. reflexivity.
Qed.

Lemma save_calendars_without_events (h : host) (calendar_list : list calendar_answer) :
  Forall (fun answer =>
            str_truthy (get_default (ans_calendar_id answer) "") = false
            \/ get_calendar_events h answer = None)
         calendar_list ->
  forall dir : directory, fold_left (save_calendar h) calendar_list dir = dir.
Proof.
  induction 1 as [| answer calendar_list Hanswer _ IH]; intros dir; simpl;
    [reflexivity |].
  assert (Hsame : save_calendar h dir answer = dir).
  { unfold save_calendar. destruct Hanswer as [Hid | Hevents].
    - rewrite Hid. reflexivity.
    - rewrite Hevents.
      destruct (str_truthy (get_default (ans_calendar_id answer) "")); reflexivity. }
  rewrite Hsame. apply IH.
Qed.

(** The fetcher removes no file, and it reports success when it wrote
    none. Whatever the calendar API answers, the files of the directory
    before [fetch_calendar_data] are there after it, in their order, new
    files behind them: the file of a calendar that is no longer in the
    list stays, and the loader reads it again on every run. The function
    returns [False] only without a token, without a list or with an empty
    list, and then the directory is as it was. With a list that is not
    empty it returns [True], also when the events of no calendar could be
    had (each has no identifier, or its request failed, or its filter
    raised): the directory is then as before, and the scheduler goes on to
    load those files. *)
Theorem fetch_removes_no_file :
  forall (h : host) (answer : option (list calendar_answer)) (dir : directory),
    let out := fetch_calendar_data h answer dir in
    (exists added, map file_path (snd out) = map file_path dir ++ added)
    /\ (fst out = false <-> answer = None \/ answer = Some [])
    /\ (fst out = false -> snd out = dir)
    /\ (forall calendar_list,
          answer = Some calendar_list ->
          calendar_list <> [] ->
          Forall (fun calendar =>
                    str_truthy (get_default (ans_calendar_id calendar) "") = false
                    \/ get_calendar_events h calendar = None)
                 calendar_list ->
          out = (true, dir)).
Proof.
  intros h answer dir out. subst out.
  unfold fetch_calendar_data, save_calendar_results.
  destruct answer as [[| first rest] |]; cbn [fst snd].
  - split; [exists []; symmetry; apply app_nil_r |].
    split; [split; [intros _; right; reflexivity | reflexivity] |].
    split; [reflexivity |].
    intros calendar_list [= <-] Hne. contradiction.
  - split; [apply save_calendars_keep_paths |].
    split.
    { split; [discriminate | intros [H | H]; discriminate]. }
    split; [discriminate |].
    intros calendar_list [= <-] _ Hall.
    rewrite (save_calendars_without_events h (first :: rest) Hall). reflexivity.
  - split; [exists []; symmetry; apply app_nil_r |].
    split; [split; [intros _; left; reflexivity | reflexivity] |].
    split; [reflexivity |].
    intros calendar_list H. discriminate.
Qed.

(** A fetch in which the one calendar gives no events: success, and the
    file of the run before stays. *)
Example fetch_without_events :
  fetch_calendar_data host_utc (Some [calendar_without_answer]) [file_with_standup]
  = (true, [file_with_standup])
  /\ fetch_calendar_data host_utc (Some [answer_with_unreadable_start])
       [file_with_standup]
     = (true, [file_with_standup])
  /\ fetch_calendar_data host_utc (Some []) [file_with_standup]
     = (false, [file_with_standup]).
Proof.
  repeat split; reflexivity.
Qed.

(* ================================================================== *)
(** * An identifier that comes with two contents *)

Lemma event_id_of_unidentified (event : event_data) :
  has_identifier event = false -> event_id_of event = "".
Proof.
  intros H. unfold event_id_of.
  destruct (has_identifier_none event H) as [-> | ->]; reflexivity.
Qed.

Lemma event_id_of_identified (event : event_data) :
  has_identifier event = true -> event_id_of event <> "".
Proof.
  intros H Hempty.
  destruct (has_identifier_some event H) as [eid [_ [Htruthy Heid]]].
  rewrite Hempty in Heid. subst eid. discriminate.
Qed.

(** A call for one event leaves the row of another identifier as it is. *)
Lemma add_or_update_record_find_other (h : host) (now : Z) (event : event_data)
  (person file : string) (d : db) (eid : string) (r : calendar_record) :
  event_id_of event <> eid ->
  find (has_event_id eid) (calendar_records d) = Some r ->
  find (has_event_id eid)
       (calendar_records (snd (add_or_update_record h now event person file d)))
  = Some r.
Proof.
  intros Hother Hfind.
  destruct (has_identifier event) eqn:Hident.
  - destruct (has_identifier_some event Hident) as [eid' [Hid [Htruthy Heid]]].
    rewrite Heid in Hother.
    destruct (resolved_start_ok h event) as [new_start Hstart].
    destruct (resolved_end_ok h event) as [new_end Hend].
    rewrite (add_or_update_record_with_id h now event person file d eid'
               new_start new_end Hid Htruthy Hstart Hend).
    destruct (find (has_event_id eid') (calendar_records d)) as [existing |].
    + destruct (String.eqb (record_hash existing) (_generate_record_hash h event));
        [exact Hfind |].
      cbn [snd calendar_records set_calendar_records].
      rewrite find_has_event_id_other; [exact Hfind | congruence | reflexivity].
    + cbn [snd calendar_records]. apply find_app_some. exact Hfind.
  - rewrite add_or_update_record_without_id
      by (apply has_identifier_none; exact Hident).
    exact Hfind.
Qed.

Section SharedIdentifier.

Variable h : host.
Variable o : outside.
Variable eid : string.

Let under (steps : list (string * string * event_data)) : list event_data :=
  filter (fun event => String.eqb (event_id_of event) eid)
         (filter has_identifier (map snd steps)).

Lemma under_snoc (steps : list (string * string * event_data))
  (person path : string) (event : event_data) :
  under (steps ++ [(person, path, event)])
  = under steps
    ++ (if has_identifier event && String.eqb (event_id_of event) eid
        then [event] else []).
Proof.
  unfold under. rewrite map_app, !filter_app. cbn [map snd filter].
  destruct (has_identifier event); cbn [andb filter]; [| reflexivity].
  destruct (String.eqb (event_id_of event) eid); reflexivity.
Qed.

Lemma under_has_id (steps : list (string * string * event_data)) (event : event_data) :
  In event (under steps) -> has_identifier event = true /\ event_id_of event = eid.
Proof.
  unfold under. intros Hin. apply filter_In in Hin. destruct Hin as [Hin Heq].
  apply filter_In in Hin. destruct Hin as [_ Hident].
  apply String.eqb_eq in Heq. split; assumption.
Qed.

Lemma other_step_id (steps : list (string * string * event_data))
  (event last_event : event_data) :
  In last_event (under steps) ->
  has_identifier event && String.eqb (event_id_of event) eid = false ->
  event_id_of event <> eid.
Proof.
  intros Hin Hstep. destruct (under_has_id steps last_event Hin) as [Hident Heid].
  destruct (has_identifier event) eqn:Hevent; cbn [andb] in Hstep.
  - apply String.eqb_neq. exact Hstep.
  - rewrite (event_id_of_unidentified event Hevent). rewrite <- Heid.
    intros Hempty. symmetry in Hempty.
    exact (event_id_of_identified last_event Hident Hempty).
Qed.

(** The row of the identifier carries the fingerprint of the event that
    came last under it. *)
Lemma load_steps_last (steps : list (string * string * event_data)) :
  forall (w : world) (earlier : list event_data) (last_event : event_data),
    under steps = earlier ++ [last_event] ->
    exists r,
      find (has_event_id eid)
           (calendar_records (tracker (fold_left (load_step h o) steps w)))
      = Some r
      /\ record_hash r = _generate_record_hash h last_event.
Proof.
  induction steps as [| step steps IH] using rev_ind;
    intros w earlier last_event Hunder.
  - destruct earlier; discriminate.
  - destruct step as [[person path] event]. rewrite fold_left_app. cbn [fold_left]. rewrite tracker_load_step.
    rewrite under_snoc in Hunder.
    destruct (has_identifier event && String.eqb (event_id_of event) eid) eqn:Hstep.
    + apply app_inj_tail in Hunder. destruct Hunder as [_ <-].
      apply andb_true_iff in Hstep. destruct Hstep as [Hident Heid].
      apply String.eqb_eq in Heid.
      pose proof (add_or_update_record_holds h
                    (current_timestamp o
                       (tracker_calls (fold_left (load_step h o) steps w)))
                    event person path
                    (tracker (fold_left (load_step h o) steps w)) Hident) as Hholds.
      unfold holds_unchanged in Hholds. rewrite Heid in Hholds. exact Hholds.
    + rewrite app_nil_r in Hunder.
      destruct (IH w earlier last_event Hunder) as [r [Hfind Hhash]].
      exists r. split; [| exact Hhash].
      apply add_or_update_record_find_other; [| exact Hfind].
      apply (other_step_id steps event last_event); [| exact Hstep].
      rewrite Hunder. apply in_or_app. right. left. reflexivity.
Qed.

(** When the two events that came last under the identifier differ in
    their fingerprints, its row is pending. *)
Lemma load_steps_last_two (steps : list (string * string * event_data)) :
  forall (w : world) (earlier : list event_data) (e1 e2 : event_data),
    under steps = earlier ++ [e1; e2] ->
    _generate_record_hash h e1 <> _generate_record_hash h e2 ->
    exists r,
      find (has_event_id eid)
           (calendar_records (tracker (fold_left (load_step h o) steps w)))
      = Some r
      /\ upload_status r = pending
      /\ record_hash r = _generate_record_hash h e2
      /\ summary r = get_default (ev_summary e2) "".
Proof.
  induction steps as [| step steps IH] using rev_ind;
    intros w earlier e1 e2 Hunder Hdiffer.
  - destruct earlier; discriminate.
  - destruct step as [[person path] event]. rewrite fold_left_app. cbn [fold_left]. rewrite tracker_load_step.
    rewrite under_snoc in Hunder.
    destruct (has_identifier event && String.eqb (event_id_of event) eid) eqn:Hstep.
    + replace (earlier ++ [e1; e2]) with ((earlier ++ [e1]) ++ [e2]) in Hunder
        by (rewrite <- app_assoc; reflexivity).
      apply app_inj_tail in Hunder. destruct Hunder as [Hunder <-].
      apply andb_true_iff in Hstep. destruct Hstep as [Hident Heid].
      apply String.eqb_eq in Heid.
      destruct (has_identifier_some event Hident) as [eid' [Hid [Htruthy Heid']]].
      rewrite Heid in Heid'. subst eid'.
      destruct (load_steps_last steps w earlier e1 Hunder) as [r [Hfind Hhash]].
      destruct (resolved_start_ok h event) as [new_start Hstart].
      destruct (resolved_end_ok h event) as [new_end Hend].
      rewrite (add_or_update_record_with_id h _ event person path _ eid
                 new_start new_end Hid Htruthy Hstart Hend).
      rewrite Hfind.
      replace (String.eqb (record_hash r) (_generate_record_hash h event)) with false
        by (symmetry; apply String.eqb_neq; congruence).
      cbn [snd calendar_records set_calendar_records].
      rewrite find_update_where by (intros; apply has_event_id_set_changed).
      rewrite Hfind. cbn [option_map].
      eexists. split; [reflexivity |]. repeat split.
    + rewrite app_nil_r in Hunder.
      destruct (IH w earlier e1 e2 Hunder Hdiffer) as [r [Hfind Hrest]].
      exists r. split; [| exact Hrest].
      apply add_or_update_record_find_other; [| exact Hfind].
      apply (other_step_id steps event e2); [| exact Hstep].
      rewrite Hunder. apply in_or_app. right. right. left. reflexivity.
Qed.

End SharedIdentifier.

(** An identifier that the files hold with two contents is sent on every
    run. When the two events that the loader passes last under one
    [event_id] differ in their fingerprints (the same event in the files
    of two persons, with another title, time, status or description),
    then after [_load_calendar_records], from whatever state, the row of
    that identifier is pending with the content of the later one: the
    earlier event has overwritten what the run before stored, and the
    later one overwrites it again. The upload that follows (batch size
    above zero, unique identifiers in the store) sends its record once
    more, on every run, however often it was uploaded before. *)
Theorem shared_event_id_is_sent_on_every_run :
  forall (h : host) (o : outside) (config : schedule_config)
         (files : list calendar_file_data) (w : world)
         (eid : string) (earlier : list event_data) (e1 e2 : event_data),
    loaded_under eid files = earlier ++ [e1; e2] ->
    _generate_record_hash h e1 <> _generate_record_hash h e2 ->
    let loaded := fst (_load_calendar_records h o files w) in
    exists r,
      find (has_event_id eid) (calendar_records (tracker loaded)) = Some r
      /\ upload_status r = pending
      /\ record_hash r = _generate_record_hash h e2
      /\ summary r = get_default (ev_summary e2) ""
      /\ In r (get_pending_records None None (tracker loaded))
      /\ (0 < batch_size config ->
          unique_event_ids (tracker w) ->
          exists sent_now,
            sent (load_and_upload h o config files w) = sent w ++ sent_now
            /\ In (to_upload_record r) (List.concat sent_now)).
Proof.
  intros h o config files w eid earlier e1 e2 Hunder Hdiffer loaded.
  unfold loaded_under in Hunder. rewrite <- (loaded_events_steps h files) in Hunder.
  destruct (load_steps_last_two h o eid (load_steps h files) w earlier e1 e2
              Hunder Hdiffer) as [r [Hfind [Hstatus [Hhash Hsummary]]]].
  rewrite <- _load_calendar_records_steps in Hfind. fold loaded in Hfind.
  assert (Hpending : In r (get_pending_records None None (tracker loaded))).
  { apply in_get_pending_records_all. split; [| exact Hstatus].
    apply find_some in Hfind. exact (proj1 Hfind). }
  exists r. repeat (split; [assumption |]).
  intros Hsize Hunique.
  assert (Hunique1 : unique_event_ids (tracker loaded)).
  { apply _load_calendar_records_unique. exact Hunique. }
  destruct (_upload_pending_records_spec o config loaded Hsize Hunique1)
    as [Hconcat [Hsent _]].
  exists (map (map to_upload_record)
            (chunks (Z.to_nat (batch_size config))
               (get_pending_records None None (tracker loaded)))).
  split.
  - unfold load_and_upload. fold loaded. rewrite Hsent. f_equal.
    subst loaded. rewrite _load_calendar_records_steps.
    apply load_steps_kept.
  - rewrite <- concat_map, Hconcat. apply in_map. exact Hpending.
Qed.

(** The example event in the files of two persons under two titles: after
    two runs it has been sent twice, and it is filed under the first
    person with the title the second file gives it. *)
Lemma shared_event_id_is_sent_on_every_run_witness :
  let w1 := load_and_upload host_utc network_up SCHEDULE_CONFIG files_sharing_event
              initial_world in
  let w2 := load_and_upload host_utc network_up SCHEDULE_CONFIG files_sharing_event
              w1 in
  sent w1 = [[{| Summary := "Daily standup"; Start_Time := Some 1700000000000;
                 End_Time := Some 1700000000000;
                 Person := "data/personal_calendars/Ann.txt" |}]]
  /\ sent w2 = sent w1 ++ sent w1
  /\ exists r,
       find (has_event_id "evt_1")
            (calendar_records
               (tracker (fst (_load_calendar_records host_utc network_up
                                files_sharing_event w1))))
       = Some r
       /\ upload_status r = pending.
Proof.
  split; [reflexivity |]. split; [reflexivity |].
  destruct (shared_event_id_is_sent_on_every_run host_utc network_up SCHEDULE_CONFIG
              files_sharing_event
              (load_and_upload host_utc network_up SCHEDULE_CONFIG files_sharing_event
                 initial_world)
              "evt_1" [] standup standup_renamed eq_refl)
    as [r [Hfind [Hstatus _]]].
  - discriminate.
  - exists r. split; assumption.
Defined.
